(** * USTGCN: the training loop and the error metrics

    A shallow embedding of [src/utils/tools.py] (the metric functions) and of
    [src/models/trainer.py] (class [GNNTrainer]), with the properties of the
    specification stated and settled on it.

    Numbers.  The program computes on binary64 / float32 values.  Here a
    finite value is an exact rational ([Q]) and the three special values
    that numpy and torch produce instead of raising (positive and negative
    infinity, not-a-number) are constructors of their own.  Rounding is
    outside the model.  For the metric functions, which compute on numpy's
    binary64 arrays, the range is in the model: a finite result that
    reaches the limit of binary64 becomes an infinity, as numpy makes it.
    The lists of numbers handed to the metric functions stand for lists of
    floats, as the trainer hands them over; where a property also depends
    on how numpy treats a list of Python integers (64-bit integers that
    wrap around), its statement bounds the entries.  For the tensors of
    the trainer the range is outside the model.  Everything else (which
    operation is applied to what, in which order, what happens on a zero
    denominator or on an empty array) follows the source. *)

From Stdlib Require Import Ascii String DecimalString.
From Stdlib Require Import ZArith QArith Qabs List FinFun Bool Lia Lqa.
Import ListNotations.

Local Open Scope string_scope.
Local Open Scope list_scope.
Local Open Scope Q_scope.

(** ** Exceptions and results *)

Inductive exn : Type :=
| ValueError (msg : string)
| RuntimeError (msg : string)
| IndexError (msg : string)
| ZeroDivisionError (msg : string)
| TypeError (msg : string)
| AttributeError (msg : string)
| OSError (msg : string).

Inductive result (A : Type) : Type :=
| Ok (a : A)
| Raise (e : exn).

Arguments Ok {A} a.
Arguments Raise {A} e.

Definition rbind {A B : Type} (r : result A) (k : A -> result B) : result B :=
  match r with
  | Ok a => k a
  | Raise e => Raise e
  end.

Notation "x <- c ;; k" := (rbind c (fun x => k))
  (at level 61, c at next level, right associativity).

(** ** Floating-point values *)

Inductive pyfloat : Type :=
| Fin (q : Q)
| PInf
| NInf
| NaN.

Definition Qltb (x y : Q) : bool := negb (Qle_bool y x).

Definition fadd (a b : pyfloat) : pyfloat :=
  match a, b with
  | NaN, _ | _, NaN => NaN
  | Fin x, Fin y => Fin (x + y)
  | PInf, NInf | NInf, PInf => NaN
  | PInf, _ | _, PInf => PInf
  | NInf, _ | _, NInf => NInf
  end.

Definition fabs (a : pyfloat) : pyfloat :=
  match a with
  | Fin x => Fin (Qabs x)
  | PInf | NInf => PInf
  | NaN => NaN
  end.

(** [inf_signed s] is the infinity of the sign of [s], and nan when [s] is
    zero: the value of [s / 0] and of [inf * s] for an array element. *)
Definition inf_signed (s : Q) : pyfloat :=
  if Qltb 0 s then PInf else if Qltb s 0 then NInf else NaN.

Definition fmul (a b : pyfloat) : pyfloat :=
  match a, b with
  | NaN, _ | _, NaN => NaN
  | Fin x, Fin y => Fin (x * y)
  | PInf, Fin y | Fin y, PInf => inf_signed y
  | NInf, Fin y | Fin y, NInf => inf_signed (- y)
  | PInf, PInf | NInf, NInf => PInf
  | PInf, NInf | NInf, PInf => NInf
  end.

(** Array division: a zero denominator gives an infinity or nan (with a
    warning), it does not raise. *)
Definition fdiv (a b : pyfloat) : pyfloat :=
  match a, b with
  | NaN, _ | _, NaN => NaN
  | Fin x, Fin y => if Qeq_bool y 0 then inf_signed x else Fin (x / y)
  | Fin _, (PInf | NInf) => Fin 0
  | (PInf | NInf), (PInf | NInf) => NaN
  | PInf, Fin y => if Qltb y 0 then NInf else PInf
  | NInf, Fin y => if Qltb y 0 then PInf else NInf
  end.

(** [a < b]; every comparison with nan is false. *)
Definition flt (a b : pyfloat) : bool :=
  match a, b with
  | Fin x, Fin y => Qltb x y
  | Fin _, PInf => true
  | NInf, (Fin _ | PInf) => true
  | _, _ => false
  end.

(** Python's [min(a, b)]: the second argument only when it is strictly
    smaller. *)
Definition py_min (a b : pyfloat) : pyfloat := if flt b a then b else a.

(** Equality of values up to the representation of a rational. *)
Definition fl_eq (a b : pyfloat) : Prop :=
  match a, b with
  | Fin x, Fin y => x == y
  | PInf, PInf | NInf, NInf | NaN, NaN => True
  | _, _ => False
  end.

Definition result_eq {A : Type} (R : A -> A -> Prop) (r s : result A) : Prop :=
  match r, s with
  | Ok a, Ok b => R a b
  | Raise e, Raise e' => e = e'
  | _, _ => False
  end.

(** ** Python lists: slices with a step *)

Section Slices.
Context {A : Type}.

(** [every n k l]: walk [l], skip [k] elements, keep one, then keep one
    out of every [n]. *)
Fixpoint every (n k : nat) (l : list A) : list A :=
  match l with
  | [] => []
  | x :: t =>
      match k with
      | O => x :: every n (pred n) t
      | S k' => every n k' t
      end
  end.

(** [l[i::n]] for [i >= 0]; a zero step raises. *)
Definition py_slice (i n : nat) (l : list A) : result (list A) :=
  match n with
  | O => Raise (ValueError "slice step cannot be zero")
  | S _ => Ok (every n i l)
  end.
End Slices.

(** ** numpy on one-dimensional arrays *)

(** An element-wise binary operation with numpy's broadcasting rule for
    one-dimensional operands: equal lengths pair up, an operand of length
    one is repeated, anything else raises. *)
Definition broadcast {A B C : Type} (f : A -> B -> C)
    (a : list A) (b : list B) : result (list C) :=
  if Nat.eqb (length a) (length b) then
    Ok (map (fun p => f (fst p) (snd p)) (combine a b))
  else
    match a, b with
    | [x], _ => Ok (map (f x) b)
    | _, [y] => Ok (map (fun x => f x y) a)
    | _, _ => Raise (ValueError "operands could not be broadcast together")
    end.

Definition fsum (l : list pyfloat) : pyfloat := fold_left fadd l (Fin 0).

Definition of_len {A : Type} (l : list A) : pyfloat :=
  Fin (inject_Z (Z.of_nat (length l))).

(** The mean of a tensor: the sum over the number of elements; nan on an
    empty tensor. *)
Definition fmean (l : list pyfloat) : pyfloat := fdiv (fsum l) (of_len l).

(** *** The range of binary64

    [float_limit] is the least magnitude that rounds to an infinity: the
    largest finite binary64 value, [2^1024 - 2^971], plus half a unit in
    its last place.  numpy returns the infinity, with a warning and without
    an exception. *)
Definition float_limit : Q := inject_Z (2 ^ 1024 - 2 ^ 970).

Definition overflow (a : pyfloat) : pyfloat :=
  match a with
  | Fin q =>
      if Qle_bool float_limit q then PInf
      else if Qle_bool q (- float_limit) then NInf
      else Fin q
  | _ => a
  end.

Definition fneg (a : pyfloat) : pyfloat :=
  match a with
  | Fin x => Fin (- x)
  | PInf => NInf
  | NInf => PInf
  | NaN => NaN
  end.

(** The arithmetic of numpy on binary64. *)
Definition np_add (a b : pyfloat) : pyfloat := overflow (fadd a b).
Definition np_sub (a b : pyfloat) : pyfloat := overflow (fadd a (fneg b)).
Definition np_mul (a b : pyfloat) : pyfloat := overflow (fmul a b).
Definition np_div (a b : pyfloat) : pyfloat := overflow (fdiv a b).

Definition np_sum (l : list pyfloat) : pyfloat := fold_left np_add l (Fin 0).

(** [np.mean]: the sum over the number of elements; nan on an empty array. *)
Definition np_mean (l : list pyfloat) : pyfloat := np_div (np_sum l) (of_len l).

Definition epsilon : Q := 1 # 10000000.

Module Tools.

Section Metrics.
(** [np.sqrt] on a non-negative finite value.  The square root of a
    rational is not rational in general, so it stays a parameter. *)
Variable sqrtQ : Q -> Q.

Definition np_sqrt (a : pyfloat) : pyfloat :=
  match a with
  | Fin x => if Qltb x 0 then NaN else Fin (sqrtQ x)
  | PInf => PInf
  | NInf | NaN => NaN
  end.

(** In the three functions the first line is [y_true - y_pred], on the
    arrays [np.asarray] makes of the two lists. *)
Definition rmse (y_true y_pred : list Q) : result pyfloat :=
  d <- broadcast (fun t p => np_sub (Fin t) (Fin p)) y_true y_pred ;;
  Ok (np_sqrt (np_mean (map (fun x => np_mul x x) d))).

Definition mape (y_true y_pred : list Q) : result pyfloat :=
  d <- broadcast (fun t p => np_sub (Fin t) (Fin p)) y_true y_pred ;;
  q <- broadcast np_div d
         (map (fun t => np_add (Fin t) (Fin epsilon)) y_true) ;;
  Ok (np_mul (np_mean (map fabs q)) (Fin 100)).

Definition mae (y_true y_pred : list Q) : result pyfloat :=
  d <- broadcast (fun t p => np_sub (Fin t) (Fin p)) y_true y_pred ;;
  Ok (np_mean (map fabs d)).

(** [calculate_foodwise_errors] slices the two sequences it is given and
    hands the slices to [rmse] and [mae], whose [np.asarray] accepts a
    list of numbers as well as a list of equally long rows.  [ravel] is
    that conversion followed by the row-major flattening (the reductions
    are over every element): the identity on numbers, [concat] on rows.
    [concat] stands for it on rows of one length only, two slices of as
    many rows each: on rows of different lengths [np.asarray] raises, and
    two arrays of different shapes are broadcast in two dimensions.  The
    statements about rows are for rows of one length. *)
Section Foodwise.
Context {A : Type}.
Variable ravel : list A -> list Q.

(** The loop, on the entity indices still to visit and the two lists
    built so far. *)
Fixpoint foodwise_loop (y_true y_pred : list A) (num_foods : nat)
    (todo : list nat) (rmse_list mse_list : list pyfloat)
    : result (list pyfloat * list pyfloat) :=
  match todo with
  | [] => Ok (rmse_list, mse_list)
  | i :: rest =>
      t <- py_slice i num_foods y_true ;;
      p <- py_slice i num_foods y_pred ;;
      r <- rmse (ravel t) (ravel p) ;;
      t' <- py_slice i num_foods y_true ;;
      p' <- py_slice i num_foods y_pred ;;
      m <- mae (ravel t') (ravel p') ;;
      foodwise_loop y_true y_pred num_foods rest
        (rmse_list ++ [r]) (mse_list ++ [m])
  end.

Definition calculate_foodwise_errors (y_true y_pred : list A)
    (num_foods : nat) : result (list pyfloat * list pyfloat) :=
  foodwise_loop y_true y_pred num_foods (seq 0 num_foods) [] [].
End Foodwise.

End Metrics.

End Tools.


(** ** Python helpers used by the trainer *)

(** [range(a, b)] *)
Definition py_range (a b : Z) : list Z :=
  map (fun k => (a + Z.of_nat k)%Z) (seq 0 (Z.to_nat (b - a))).

(** [l[a:b]], with Python's treatment of negative and too large bounds. *)
Definition py_slice_range {A : Type} (a b : Z) (l : list A) : list A :=
  let n := Z.of_nat (length l) in
  let norm := fun x : Z =>
    if (x <? 0)%Z then Z.max 0 (x + n) else Z.min x n in
  firstn (Z.to_nat (norm b - norm a)) (skipn (Z.to_nat (norm a)) l).

(** [l[i]] for a non-negative index. *)
Definition py_index {A : Type} (l : list A) (i : nat) : result A :=
  match nth_error l i with
  | Some x => Ok x
  | None => Raise (IndexError "index out of range")
  end.

(** [math.ceil(n / d)] on non-negative integers. *)
Definition ceil_div (n d : nat) : result nat :=
  match d with
  | O => Raise (ZeroDivisionError "division by zero")
  | S _ => Ok ((n + d - 1) / d)%nat
  end.

(** [os.path.join(a, b)] for a relative, non-empty [b]. *)
Fixpoint ends_with_slash (s : string) : bool :=
  match s with
  | EmptyString => false
  | String c EmptyString => Ascii.eqb c "/"%char
  | String _ t => ends_with_slash t
  end.

Definition path_join (a b : string) : string :=
  match a with
  | EmptyString => b
  | _ => if ends_with_slash a then a ++ b else a ++ "/" ++ b
  end.

(** [s.split("_")[-1]]: what follows the last underscore. *)
Fixpoint last_field_from (acc s : string) : string :=
  match s with
  | EmptyString => acc
  | String c t =>
      if Ascii.eqb c "_"%char then last_field_from EmptyString t
      else last_field_from (acc ++ String c EmptyString) t
  end.

Definition last_field (s : string) : string := last_field_from EmptyString s.

(** [str(n)] for a non-negative integer. *)
Definition str_of_nat (n : nat) : string :=
  NilEmpty.string_of_uint (Nat.to_uint n).

(** [l[i] = v] on a list of flags; out of range it leaves the list as it
    is (the trainer only writes at positions it has just read). *)
Fixpoint set_flag (l : list bool) (i : nat) (v : bool) : list bool :=
  match l, i with
  | [], _ => []
  | _ :: t, O => v :: t
  | x :: t, S i' => x :: set_flag t i' v
  end.

Module Trainer.

(** A two-dimensional tensor, row by row. *)
Definition tensor2 : Type := list (list Q).

(** What a run does to the outside, in order: the trace is the record the
    properties below are stated on. *)
Inductive event : Type :=
| EvWriterOpen (dir : string)
| EvScalar (tag : string) (value : pyfloat) (epoch : Z)
| EvStep (epoch : Z) (index : nat) (lr : Q) (loss : pyfloat)
| EvEvaluate
| EvSave (path : string)
| EvWriterClose (dir : string).

(** A torch module: its architecture and parameter values, opaque, and the
    [requires_grad] flag of each of its parameters. *)
Record module (net : Type) : Type := mk_module {
  net_of : net;
  requires_grad : list bool
}.
Arguments mk_module {net} _ _.
Arguments net_of {net} _.
Arguments requires_grad {net} _.

(** The external collaborators: the networks, torch, the random number
    generator, the file system, and two library functions. *)
Record oracles (net FS RNG : Type) : Type := mk_oracles {
  forward : net -> tensor2 -> result tensor2;
  MSELoss : tensor2 -> tensor2 -> result pyfloat;
  backward_step :
    module net -> module net -> Q -> tensor2 -> tensor2 -> result (net * net);
  randperm : RNG -> nat -> list nat * RNG;
  path_exists : FS -> string -> bool;
  makedirs : FS -> string -> result FS;
  listdir : FS -> string -> result (list string);
  summary_writer : FS -> string -> result FS;
  torch_save : FS -> module net -> string -> result FS;
  torch_load : FS -> string -> result (module net);
  py_int : string -> result Z;
  sqrtQ : Q -> Q
}.
Arguments forward {net FS RNG} _ _ _.
Arguments MSELoss {net FS RNG} _ _ _.
Arguments backward_step {net FS RNG} _ _ _ _ _ _.
Arguments randperm {net FS RNG} _ _ _.
Arguments path_exists {net FS RNG} _ _ _.
Arguments makedirs {net FS RNG} _ _ _.
Arguments listdir {net FS RNG} _ _ _.
Arguments summary_writer {net FS RNG} _ _ _.
Arguments torch_save {net FS RNG} _ _ _ _.
Arguments torch_load {net FS RNG} _ _ _.
Arguments py_int {net FS RNG} _ _.
Arguments sqrtQ {net FS RNG} _ _.

(** The constructor's arguments that never change, and the two dictionaries
    [test] unpickles. *)
Record config : Type := mk_config {
  train_data : list tensor2;
  train_labels : list tensor2;
  test_data : list tensor2;
  test_labels : list tensor2;
  num_nodes : nat;
  node_batch_size : nat;
  epochs : Z;
  work_dir : string;
  dish_dict : list (string * nat);
  dates_dict : list (string * Z)
}.

(** The mutable fields of the trainer, and the world around it. *)
Record trainer (net FS RNG : Type) : Type := mk_trainer {
  time_stamp_model : module net;
  regression_model : module net;
  learning_rate : Q;
  log_dir : option string;
  run_version : option Z;
  writer : option string;
  fs : FS;
  rng : RNG;
  trace : list event
}.
Arguments mk_trainer {net FS RNG} _ _ _ _ _ _ _ _ _.
Arguments time_stamp_model {net FS RNG} _.
Arguments regression_model {net FS RNG} _.
Arguments learning_rate {net FS RNG} _.
Arguments log_dir {net FS RNG} _.
Arguments run_version {net FS RNG} _.
Arguments writer {net FS RNG} _.
Arguments fs {net FS RNG} _.
Arguments rng {net FS RNG} _.
Arguments trace {net FS RNG} _.

(** The local variables of [train] that live across epochs. *)
Record locals : Type := mk_locals {
  min_rmse : pyfloat;
  min_mae : pyfloat;
  min_mape : pyfloat;
  best_test : pyfloat;
  train_loss : pyfloat
}.

(** The tables [test] writes. *)
Record dataframe : Type := mk_dataframe {
  df_rows : nat;
  df_dates : list string;
  df_columns : list (string * list Q)
}.

(** [df[name] = values]: the first non-empty column fixes the number of
    rows, every later one has to have that many. *)
Definition df_assign (df : dataframe) (name : string) (values : list Q)
    : result dataframe :=
  if Nat.eqb (df_rows df) 0 then
    Ok (mk_dataframe (length values) (df_dates df)
          (df_columns df ++ [(name, values)]))
  else if Nat.eqb (length values) (df_rows df) then
    Ok (mk_dataframe (df_rows df) (df_dates df)
          (df_columns df ++ [(name, values)]))
  else Raise (ValueError "Length of values does not match length of index").

Record tables : Type := mk_tables {
  df_pred : dataframe;
  df_actual : dataframe;
  rmse_column : list pyfloat;
  mse_column : list pyfloat
}.

(** The learning rate after an epoch (lines 207-210 of [train]). *)
Definition next_learning_rate (epoch : Z) (lr : Q) : Q :=
  if ((epoch <=? 24) && (epoch mod 8 =? 0))%Z then lr / 2 else 1 # 10000.

(** The parameters of a module that require a gradient lose the flag and
    are remembered, by position. *)
Fixpoint disable_from (i : nat) (flags : list bool) : list bool * list nat :=
  match flags with
  | [] => ([], [])
  | b :: t =>
      let (t', ps) := disable_from (S i) t in
      if b then (false :: t', i :: ps) else (b :: t', ps)
  end.

Definition enable_all (flags : list bool) (ps : list nat) : list bool :=
  fold_left (fun fl i => set_flag fl i true) ps flags.

(** [labels[nodes_in_batch]], one row per node of the batch; the [view]
    to [len(nodes_in_batch)] rows of [pred_len] entries that follows leaves
    the rows as they are, [pred_len] being the length of a row of labels. *)
Fixpoint gather (labels : tensor2) (nodes : list nat) : result tensor2 :=
  match nodes with
  | [] => Ok []
  | i :: rest =>
      row <- py_index labels i ;;
      rows <- gather labels rest ;;
      Ok (row :: rows)
  end.

(** The name of a dish: the first key of the dictionary with that value. *)
Fixpoint dish_name_of (d : list (string * nat)) (dish_id : nat)
    : result string :=
  match d with
  | [] => Raise (ValueError "is not in list")
  | (name, v) :: rest =>
      if Nat.eqb v dish_id then Ok name else dish_name_of rest dish_id
  end.

Fixpoint dish_names (d : list (string * nat)) (ids : list nat)
    : result (list string) :=
  match ids with
  | [] => Ok []
  | i :: rest =>
      name <- dish_name_of d i ;;
      names <- dish_names d rest ;;
      Ok (name :: names)
  end.

Section WithCollaborators.
Context {net FS RNG : Type}.
Variable env : oracles net FS RNG.
Variable cfg : config.

Abbreviation state := (trainer net FS RNG).

(** Commands: they read and write the trainer and the world, and return a
    value or raise; what was written before an exception stays written. *)
Definition M (A : Type) : Type := state -> result A * state.

Definition ret {A : Type} (a : A) : M A := fun st => (Ok a, st).

Definition bind {A B : Type} (m : M A) (k : A -> M B) : M B :=
  fun st =>
    match m st with
    | (Ok a, st') => k a st'
    | (Raise e, st') => (Raise e, st')
    end.

Definition lift {A : Type} (r : result A) : M A := fun st => (r, st).

Definition raise {A : Type} (e : exn) : M A := fun st => (Raise e, st).

Definition gets {A : Type} (f : state -> A) : M A := fun st => (Ok (f st), st).

Definition modify (f : state -> state) : M unit := fun st => (Ok tt, f st).

Notation "x <~ c ;; k" := (bind c (fun x => k))
  (at level 61, c at next level, right associativity).
Notation "c ;;; k" := (bind c (fun _ => k))
  (at level 61, right associativity).

Definition set_time_stamp_model (m : module net) (st : state) : state :=
  mk_trainer m (regression_model st) (learning_rate st) (log_dir st)
    (run_version st) (writer st) (fs st) (rng st) (trace st).

Definition set_regression_model (m : module net) (st : state) : state :=
  mk_trainer (time_stamp_model st) m (learning_rate st) (log_dir st)
    (run_version st) (writer st) (fs st) (rng st) (trace st).

Definition set_learning_rate (lr : Q) (st : state) : state :=
  mk_trainer (time_stamp_model st) (regression_model st) lr (log_dir st)
    (run_version st) (writer st) (fs st) (rng st) (trace st).

Definition set_log_dir (d : option string) (st : state) : state :=
  mk_trainer (time_stamp_model st) (regression_model st) (learning_rate st) d
    (run_version st) (writer st) (fs st) (rng st) (trace st).

Definition set_run_version (v : option Z) (st : state) : state :=
  mk_trainer (time_stamp_model st) (regression_model st) (learning_rate st)
    (log_dir st) v (writer st) (fs st) (rng st) (trace st).

Definition set_writer (w : option string) (st : state) : state :=
  mk_trainer (time_stamp_model st) (regression_model st) (learning_rate st)
    (log_dir st) (run_version st) w (fs st) (rng st) (trace st).

Definition set_fs (f : FS) (st : state) : state :=
  mk_trainer (time_stamp_model st) (regression_model st) (learning_rate st)
    (log_dir st) (run_version st) (writer st) f (rng st) (trace st).

Definition set_rng (r : RNG) (st : state) : state :=
  mk_trainer (time_stamp_model st) (regression_model st) (learning_rate st)
    (log_dir st) (run_version st) (writer st) (fs st) r (trace st).

Definition log_event (e : event) (st : state) : state :=
  mk_trainer (time_stamp_model st) (regression_model st) (learning_rate st)
    (log_dir st) (run_version st) (writer st) (fs st) (rng st)
    (trace st ++ [e]).

Definition emit (e : event) : M unit := modify (log_event e).

(** A [for] loop that threads the variables its body assigns. *)
Fixpoint for_each {A S : Type} (l : list A) (body : A -> S -> M S) (s : S)
    : M S :=
  match l with
  | [] => ret s
  | x :: rest => s' <~ body x s ;; for_each rest body s'
  end.

(** An operation that changes the file system, or fails. *)
Definition fs_op (f : FS -> result FS) : M unit :=
  fun st =>
    match f (fs st) with
    | Ok fs' => (Ok tt, set_fs fs' st)
    | Raise e => (Raise e, st)
    end.

Definition all_nodes : list nat := seq 0 (num_nodes cfg).

(** [self.writer = SummaryWriter(d)] *)
Definition open_writer (d : string) : M unit :=
  fs_op (fun f => summary_writer env f d) ;;;
  modify (set_writer (Some d)) ;;;
  emit (EvWriterOpen d).

Definition initiate_writer : M unit :=
  let logs := (work_dir cfg ++ "/logs")%string in
  modify (set_log_dir (Some logs)) ;;;
  modify (set_run_version (Some 0%Z)) ;;;
  present <~ gets (fun st => path_exists env (fs st) logs) ;;
  version <~ (if negb present then
                fs_op (fun f => makedirs env f logs) ;;; ret 0%nat
              else
                names <~ (fun st => (listdir env (fs st) logs, st)) ;;
                modify (set_run_version (Some (Z.of_nat (length names)))) ;;;
                ret (length names)) ;;
  let d := path_join logs ("run_" ++ str_of_nat version)%string in
  modify (set_log_dir (Some d)) ;;;
  open_writer d.

(** [self.writer.add_scalar(tag, value, epoch)] *)
Definition add_scalar (tag : string) (value : pyfloat) (epoch : Z) : M unit :=
  w <~ gets writer ;;
  match w with
  | None => raise (AttributeError "'NoneType' object has no attribute")
  | Some _ => emit (EvScalar tag value epoch)
  end.

Definition writer_close : M unit :=
  w <~ gets writer ;;
  match w with
  | None => raise (AttributeError "'NoneType' object has no attribute")
  | Some d => emit (EvWriterClose d)
  end.

Definition save_model : M unit :=
  d <~ gets log_dir ;;
  match d with
  | None => raise (TypeError "expected str, bytes or os.PathLike object")
  | Some d =>
      ts <~ gets time_stamp_model ;;
      fs_op (fun f => torch_save env f ts (path_join d "time_stamp_model.pth")) ;;;
      emit (EvSave (path_join d "time_stamp_model.pth")) ;;;
      reg <~ gets regression_model ;;
      fs_op (fun f => torch_save env f reg (path_join d "regression_model.pth")) ;;;
      emit (EvSave (path_join d "regression_model.pth"))
  end.

Definition load_model (model_path : option string) : M unit :=
  match model_path with
  | Some p =>
      ts <~ (fun st =>
               (torch_load env (fs st) (path_join p "time_stamp_model.pth"), st)) ;;
      modify (set_time_stamp_model ts) ;;;
      reg <~ (fun st =>
                (torch_load env (fs st) (path_join p "regression_model.pth"), st)) ;;
      modify (set_regression_model reg) ;;;
      modify (set_log_dir (Some p)) ;;;
      open_writer p ;;;
      v <~ lift (py_int env (last_field p)) ;;
      modify (set_run_version (Some v))
  | None =>
      w <~ gets writer ;;
      match w with
      | None => initiate_writer
      | Some _ => raise (ValueError "No model path provided")
      end
  end.

(** The embedding model, then the regression head. *)
Definition predict (data : tensor2) : M tensor2 :=
  ts <~ gets time_stamp_model ;;
  embeddings <~ lift (forward env (net_of ts) data) ;;
  reg <~ gets regression_model ;;
  lift (forward env (net_of reg) embeddings).

(** *** [evaluate] *)

(** Lines 261-265: every parameter that requires a gradient is switched
    off and remembered. *)
Definition disable_grads : M (list nat * list nat) :=
  ts <~ gets time_stamp_model ;;
  let (ts_flags, ts_ps) := disable_from 0 (requires_grad ts) in
  modify (set_time_stamp_model (mk_module (net_of ts) ts_flags)) ;;;
  reg <~ gets regression_model ;;
  let (reg_flags, reg_ps) := disable_from 0 (requires_grad reg) in
  modify (set_regression_model (mk_module (net_of reg) reg_flags)) ;;;
  ret (ts_ps, reg_ps).

(** Lines 276-277: the remembered parameters are switched on again. *)
Definition enable_grads (parameters : list nat * list nat) : M unit :=
  ts <~ gets time_stamp_model ;;
  modify (set_time_stamp_model
            (mk_module (net_of ts)
               (enable_all (requires_grad ts) (fst parameters)))) ;;;
  reg <~ gets regression_model ;;
  modify (set_regression_model
            (mk_module (net_of reg)
               (enable_all (requires_grad reg) (snd parameters)))).

Definition evaluate_step (index : nat)
    (acc : tensor2 * tensor2 * pyfloat) : M (tensor2 * tensor2 * pyfloat) :=
  let '(labels, pred, total_loss) := acc in
  data <~ lift (py_index (test_data cfg) index) ;;
  label <~ lift (py_index (test_labels cfg) index) ;;
  parameters <~ disable_grads ;;
  logits <~ predict data ;;
  loss <~ lift (MSELoss env logits label) ;;
  let loss := fdiv loss (of_len all_nodes) in
  let total_loss := fadd total_loss loss in
  let labels := labels ++ label in
  let pred := pred ++ logits in
  enable_grads parameters ;;;
  ret (labels, pred, total_loss).

Definition draw_randperm (n : nat) : M (list nat) :=
  fun st =>
    let (indices, r) := randperm env (rng st) n in
    (Ok indices, set_rng r st).

Definition evaluate : M (tensor2 * tensor2 * pyfloat) :=
  emit EvEvaluate ;;;
  indices <~ draw_randperm (length (test_data cfg)) ;;
  acc <~ for_each indices evaluate_step ([], [], Fin 0) ;;
  let '(labels, pred, total_loss) := acc in
  ret (labels, pred, fdiv total_loss (of_len indices)).

(** *** [train] *)

(** Lines 179-193: one batch of nodes. *)
Definition node_batch_step (data labels : tensor2) (batch : nat)
    (node_batch_loss : pyfloat) : M pyfloat :=
  let nodes_in_batch :=
    firstn (node_batch_size cfg)
      (skipn (batch * node_batch_size cfg) all_nodes) in
  labels_in_batch <~ lift (gather labels nodes_in_batch) ;;
  logits <~ predict data ;;
  loss <~ lift (MSELoss env logits labels_in_batch) ;;
  ret (fadd node_batch_loss (fdiv loss (of_len nodes_in_batch))).

(** Lines 157-204: one timestamp.  Collecting the trainable parameters,
    building the Adam optimizer with the current learning rate, the
    backward pass, the clipping and the step are the collaborator
    [backward_step]; the event records the rate and the loss of the step. *)
Definition timestamp_step (epoch : Z) (index : nat) (train_loss : pyfloat)
    : M pyfloat :=
  data <~ lift (py_index (train_data cfg) index) ;;
  labels <~ lift (py_index (train_labels cfg) index) ;;
  lr <~ gets learning_rate ;;
  num_node_batches <~
    lift (ceil_div (length all_nodes) (node_batch_size cfg)) ;;
  node_batch_loss <~
    for_each (seq 0 num_node_batches) (node_batch_step data labels) (Fin 0) ;;
  let train_loss := fadd train_loss node_batch_loss in
  ts <~ gets time_stamp_model ;;
  reg <~ gets regression_model ;;
  nets <~ lift (backward_step env ts reg lr data labels) ;;
  modify (set_time_stamp_model (mk_module (fst nets) (requires_grad ts))) ;;;
  modify (set_regression_model (mk_module (snd nets) (requires_grad reg))) ;;;
  emit (EvStep epoch index lr node_batch_loss) ;;;
  ret train_loss.

(** Lines 153-237: one epoch.  The two calls that only update the progress
    bar are left out.  [evaluate] returns lists of rows; the metric
    functions reduce over every entry, so they are applied to the rows laid
    end to end. *)
Definition epoch_step (epoch : Z) (v : locals) : M locals :=
  indices <~ draw_randperm (length (train_data cfg)) ;;
  train_loss <~ for_each indices (timestamp_step epoch) (train_loss v) ;;
  let train_loss := fdiv train_loss (of_len indices) in
  lr <~ gets learning_rate ;;
  modify (set_learning_rate (next_learning_rate epoch lr)) ;;;
  add_scalar "Loss/train" train_loss epoch ;;;
  ev <~ evaluate ;;
  let '(labels, pred, _eval_loss) := ev in
  _rmse <~ lift (Tools.rmse (sqrtQ env) (concat labels) (concat pred)) ;;
  _mae <~ lift (Tools.mae (concat labels) (concat pred)) ;;
  _mape <~ lift (Tools.mape (concat labels) (concat pred)) ;;
  add_scalar "Loss/validation" _eval_loss epoch ;;;
  add_scalar "RMSE/validation" _rmse epoch ;;;
  add_scalar "MAE/validation" _mae epoch ;;;
  add_scalar "MAPE/validation" _mape epoch ;;;
  best_test <~ (if flt _eval_loss (best_test v) then
                  save_model ;;; ret _eval_loss
                else ret (best_test v)) ;;
  let min_rmse := py_min (min_rmse v) _rmse in
  let min_mae := py_min (min_mae v) _mae in
  let min_mape := py_min (min_mape v) _mape in
  add_scalar "Evaluation/Min_RMSE" min_rmse epoch ;;;
  add_scalar "Evaluation/Min_MAE" min_mae epoch ;;;
  add_scalar "Evaluation/Min_MAPE" min_mape epoch ;;;
  ret (mk_locals min_rmse min_mae min_mape best_test train_loss).

Definition initial_locals : locals := mk_locals PInf PInf PInf PInf (Fin 0).

Definition train : M unit :=
  initiate_writer ;;;
  for_each (py_range 1 (epochs cfg)) epoch_step initial_locals ;;;
  writer_close.

(** *** [test]

    Up to the three tables; unpickling the dictionaries and writing the
    tables to disk are left out. *)

(** Lines 333-340: one column per dish, the rows of that dish laid end to
    end. *)
Definition fill_columns (names : list string) (pred labels : tensor2)
    (i : nat) (dfs : dataframe * dataframe) : result (dataframe * dataframe) :=
  name <- py_index names i ;;
  _food <- py_slice i (length names) pred ;;
  p <- df_assign (fst dfs) name (concat _food) ;;
  _food <- py_slice i (length names) labels ;;
  a <- df_assign (snd dfs) name (concat _food) ;;
  Ok (p, a).

Fixpoint fill_all (names : list string) (pred labels : tensor2)
    (todo : list nat) (dfs : dataframe * dataframe)
    : result (dataframe * dataframe) :=
  match todo with
  | [] => Ok dfs
  | i :: rest =>
      dfs' <- fill_columns names pred labels i dfs ;;
      fill_all names pred labels rest dfs'
  end.

Definition test (test_start : Z) (model_path : option string) (num_days : Z)
    : M tables :=
  load_model model_path ;;;
  ev <~ evaluate ;;
  let '(labels, pred, _eval_loss) := ev in
  errors <~ lift (Tools.calculate_foodwise_errors (sqrtQ env) (@concat Q)
                    labels pred (length all_nodes)) ;;
  dish_name <~ lift (dish_names (dish_dict cfg) all_nodes) ;;
  let date := map fst (dates_dict cfg) in
  row0 <~ lift (py_index pred 0) ;;
  per_row <~ lift (match length row0 with
                   | O => Raise (ZeroDivisionError
                                   "integer division or modulo by zero")
                   | S _ => Ok (length row0)
                   end) ;;
  let last := (per_row * (length date / per_row))%nat in
  let dates :=
    py_slice_range (test_start + num_days) (Z.of_nat last + 1) date in
  let empty := mk_dataframe (length dates) dates [] in
  dfs <~ lift (fill_all dish_name pred labels (seq 0 (length dish_name))
                 (empty, empty)) ;;
  ret (mk_tables (fst dfs) (snd dfs) (fst errors) (snd errors)).

End WithCollaborators.

End Trainer.

(** ** Definitions used to state the properties *)

(** The values [rmse] and [mae] return on operands of one length. *)
Definition rmse_value (sqrtQ : Q -> Q) (t p : list Q) : pyfloat :=
  Tools.np_sqrt sqrtQ
    (np_mean (map (fun x => np_mul x x)
                (map (fun q => np_sub (Fin (fst q)) (Fin (snd q)))
                   (combine t p)))).

Definition mae_value (t p : list Q) : pyfloat :=
  np_mean (map fabs
             (map (fun q => np_sub (Fin (fst q)) (Fin (snd q)))
                (combine t p))).

(** The sum of a list of rationals. *)
Definition Qsum (l : list Q) : Q := fold_right Qplus 0 l.

(** ** Sample collaborators

    A small world on which the commands can be run: a network is one
    rational weight, the file system is absent and never fails, and the
    random number generator hands out the permutations of a queue (the
    identity when the queue is empty). *)

Definition sample_MSELoss (a b : Trainer.tensor2) : result pyfloat :=
  d <- broadcast Qminus (concat a) (concat b) ;;
  Ok (fmean (map (fun x => Fin (x * x)) d)).

Definition sample_randperm (r : list (list nat)) (n : nat)
    : list nat * list (list nat) :=
  match r with
  | [] => (seq 0 n, [])
  | p :: r' => (p, r')
  end.

Definition sample_env (fwd : Q -> Trainer.tensor2 -> result Trainer.tensor2)
    (step : Q * Q -> result (Q * Q))
    : Trainer.oracles Q unit (list (list nat)) :=
  Trainer.mk_oracles Q unit (list (list nat))
    fwd
    sample_MSELoss
    (fun ts reg _ _ _ => step (Trainer.net_of ts, Trainer.net_of reg))
    sample_randperm
    (fun _ _ => false)
    (fun f _ => Ok f)
    (fun _ _ => Ok [])
    (fun f _ => Ok f)
    (fun f _ _ => Ok f)
    (fun _ _ => Raise (OSError "No such file or directory"))
    (fun _ => Ok 0%Z)
    (fun x => x).

Definition sample_state (ts reg : Trainer.module Q) (lr : Q)
    (perms : list (list nat)) : Trainer.trainer Q unit (list (list nat)) :=
  Trainer.mk_trainer ts reg lr None None None tt perms [].

(** A network that multiplies every entry by its weight. *)
Definition scale_forward (w : Q) (x : Trainer.tensor2)
    : result Trainer.tensor2 :=
  Ok (map (map (fun v => w * v)) x).

(** A network whose forward pass fails. *)
Definition failing_forward (w : Q) (x : Trainer.tensor2)
    : result Trainer.tensor2 :=
  Raise (RuntimeError "mat1 and mat2 shapes cannot be multiplied").

(** The synthetic predictor of the round trip: the data of timestamp [t] is
    the single entry [t]; the embedding model (weight 0) passes it on and
    the regression head answers, for each of [n] entities [e], the tag
    [e * 1000 + t]. *)
Definition tag_forward (n : nat) (w : Q) (x : Trainer.tensor2)
    : result Trainer.tensor2 :=
  if Qeq_bool w 0 then Ok x
  else
    match x with
    | [[t]] =>
        Ok (map (fun e => [inject_Z (Z.of_nat e) * 1000 + t]) (seq 0 n))
    | _ => Raise (RuntimeError "unexpected shape")
    end.

Definition roundtrip_cfg : Trainer.config :=
  Trainer.mk_config [] []
    [ [[0]]; [[1]] ]
    [ [[0]; [1000]]; [[1]; [1001]] ]
    2 2 1 "work"
    [("rice", 0%nat); ("dal", 1%nat)]
    [("2020-01-01", 0%Z); ("2020-01-02", 1%Z)].

Definition roundtrip_state (perms : list (list nat))
    : Trainer.trainer Q unit (list (list nat)) :=
  sample_state (Trainer.mk_module 0 [true]) (Trainer.mk_module 1 [true])
    (1 # 100) perms.

(** ** Reading a trace *)

(** The values written under a tag, oldest first. *)
Definition scalars (tag : string) (tr : list Trainer.event) : list pyfloat :=
  flat_map (fun e =>
              match e with
              | Trainer.EvScalar t v _ => if String.eqb t tag then [v] else []
              | _ => []
              end) tr.

(** The losses of the optimizer steps of one epoch, oldest first. *)
Definition step_losses (epoch : Z) (tr : list Trainer.event) : list pyfloat :=
  flat_map (fun e =>
              match e with
              | Trainer.EvStep ep _ _ loss =>
                  if Z.eqb ep epoch then [loss] else []
              | _ => []
              end) tr.

(** The learning rates the optimizer steps of one epoch were taken with. *)
Definition step_rates (epoch : Z) (tr : list Trainer.event) : list Q :=
  flat_map (fun e =>
              match e with
              | Trainer.EvStep ep _ lr _ => if Z.eqb ep epoch then [lr] else []
              | _ => []
              end) tr.

(** The reports of the training loss a cumulative accumulator gives: each
    is the previous report (the initial value before the first epoch) plus
    the losses of the epoch's steps, added one after the other, over the
    number of those steps. *)
Fixpoint cumulative_means (prev : pyfloat) (epochs : list Z)
    (tr : list Trainer.event) : list pyfloat :=
  match epochs with
  | [] => []
  | e :: rest =>
      let losses := step_losses e tr in
      let r := fdiv (fold_left fadd losses prev) (of_len losses) in
      r :: cumulative_means r rest tr
  end.

(** Validation losses and checkpoints, in the order they happened. *)
Inductive token : Type :=
| Validated (v : pyfloat)
| Saved.

Definition checkpoint_tokens (tr : list Trainer.event) : list token :=
  flat_map (fun e =>
              match e with
              | Trainer.EvScalar t v _ =>
                  if String.eqb t "Loss/validation" then [Validated v] else []
              | Trainer.EvSave _ => [Saved]
              | _ => []
              end) tr.

(** For each validation loss, whether a checkpoint was written after it
    and before the next one. *)
Fixpoint checkpoint_log (toks : list token) : list (pyfloat * bool) :=
  match toks with
  | [] => []
  | Validated v :: rest =>
      (v, match rest with Saved :: _ => true | _ => false end)
        :: checkpoint_log rest
  | Saved :: rest => checkpoint_log rest
  end.

(** The rule of the claim: a loss is saved exactly when it is strictly
    below the best loss before it. *)
Definition improve (best v : pyfloat) : pyfloat :=
  if flt v best then v else best.

Fixpoint strict_improvements (best : pyfloat) (vs : list pyfloat)
    : list (pyfloat * bool) :=
  match vs with
  | [] => []
  | v :: rest => (v, flt v best) :: strict_improvements (improve best v) rest
  end.

Definition best_after (best : pyfloat) (vs : list pyfloat) : pyfloat :=
  fold_left improve vs best.

(** *** Checkpoints on the file system *)

(** The end of an epoch: its validation loss, the two models and the file
    system at that point. *)
Record epoch_end (net FS : Type) : Type := mk_epoch_end {
  end_loss : pyfloat;
  end_time_stamp_model : Trainer.module net;
  end_regression_model : Trainer.module net;
  end_fs : FS
}.
Arguments mk_epoch_end {net FS} _ _ _ _.
Arguments end_loss {net FS} _.
Arguments end_time_stamp_model {net FS} _.
Arguments end_regression_model {net FS} _.
Arguments end_fs {net FS} _.

Definition end_files {net FS : Type} (e : epoch_end net FS)
    : Trainer.module net * Trainer.module net * FS :=
  (end_time_stamp_model e, end_regression_model e, end_fs e).

(** The rule of the claim on the file system: in an epoch whose loss is
    strictly below the best loss before it, the file system at the end of
    the epoch is the one before the epoch after [torch.save] has written
    the time-stamp model and then the regression model of that epoch to
    the two files of the directory [d]; in any other epoch the file system
    is what it was. *)
Fixpoint saved_on_improvement {net FS RNG : Type}
    (env : Trainer.oracles net FS RNG) (d : string) (best : pyfloat) (f : FS)
    (ends : list (epoch_end net FS)) : Prop :=
  match ends with
  | [] => True
  | e :: rest =>
      (if flt (end_loss e) best then
         exists f1,
           Trainer.torch_save env f (end_time_stamp_model e)
             (path_join d "time_stamp_model.pth") = Ok f1
           /\ Trainer.torch_save env f1 (end_regression_model e)
                (path_join d "regression_model.pth") = Ok (end_fs e)
       else end_fs e = f)
      /\ saved_on_improvement env d (improve best (end_loss e)) (end_fs e) rest
  end.

(** The learning rate after the epochs [1 .. e]. *)
Definition learning_rate_after (lr0 : Q) (e : Z) : Q :=
  fold_left (fun lr epoch => Trainer.next_learning_rate epoch lr)
    (py_range 1 (e + 1)) lr0.

(** A sample training set: two timestamps, two nodes, one feature, and the
    labels equal to the data. *)
Definition training_cfg (epochs : Z) : Trainer.config :=
  Trainer.mk_config
    [ [[1]; [2]]; [[3]; [4]] ] [ [[1]; [2]]; [[3]; [4]] ]
    [ [[5]; [6]] ] [ [[5]; [6]] ]
    2 2 epochs "work"
    [("rice", 0%nat); ("dal", 1%nat)]
    [("2020-01-01", 0%Z)].

(** An optimizer step that moves the weight of the regression head half
    of the way to [1]. *)
Definition halfway_step (w : Q * Q) : result (Q * Q) :=
  Ok (fst w, Qred ((snd w + 1) / 2)).

(** An optimizer step that reaches the weight [1] at once. *)
Definition exact_step (w : Q * Q) : result (Q * Q) := Ok (fst w, 1).

Definition training_state (lr : Q)
    : Trainer.trainer Q unit (list (list nat)) :=
  sample_state (Trainer.mk_module 1 [true]) (Trainer.mk_module 0 [true])
    lr [].

(** The events of one epoch of [train] that ends normally. *)
Definition epoch_events (epoch : Z) (lr : Q) (indices : list nat)
    (losses : list pyfloat) (train_loss eval_loss rmse mae mape : pyfloat)
    (saves : list Trainer.event) (min_rmse min_mae min_mape : pyfloat)
    : list Trainer.event :=
  map (fun p => Trainer.EvStep epoch (fst p) lr (snd p))
    (combine indices losses)
  ++ [Trainer.EvScalar "Loss/train" train_loss epoch;
      Trainer.EvEvaluate;
      Trainer.EvScalar "Loss/validation" eval_loss epoch;
      Trainer.EvScalar "RMSE/validation" rmse epoch;
      Trainer.EvScalar "MAE/validation" mae epoch;
      Trainer.EvScalar "MAPE/validation" mape epoch]
  ++ saves
  ++ [Trainer.EvScalar "Evaluation/Min_RMSE" min_rmse epoch;
      Trainer.EvScalar "Evaluation/Min_MAE" min_mae epoch;
      Trainer.EvScalar "Evaluation/Min_MAPE" min_mape epoch].

(** A value that is not below zero: a finite one from zero up, positive
    infinity, or nan (which is below nothing). *)
Definition not_negative (r : pyfloat) : Prop :=
  match r with
  | Fin v => 0 <= v
  | PInf | NaN => True
  | NInf => False
  end.

(** A value that is neither negative nor nan: a finite one from zero up,
    or positive infinity. *)
Definition nonneg_or_inf (r : pyfloat) : Prop :=
  match r with
  | Fin v => 0 <= v
  | PInf => True
  | NInf | NaN => False
  end.

(** Two values that are each other's opposite. *)
Definition opposite (u v : pyfloat) : Prop := fl_eq u (fneg v).

(** The nodes of one batch (lines 180-183 of [train]). *)
Definition nodes_in_batch (batch_size : nat) (nodes : list nat) (batch : nat)
    : list nat :=
  firstn batch_size (skipn (batch * batch_size) nodes).

(** The running minimum of a sequence of values, as [min] computes it. *)
Fixpoint running_mins (m : pyfloat) (vs : list pyfloat) : list pyfloat :=
  match vs with
  | [] => []
  | v :: rest => py_min m v :: running_mins (py_min m v) rest
  end.


(** Whether a string has an underscore. *)
Fixpoint has_underscore (s : string) : bool :=
  match s with
  | EmptyString => false
  | String c t => Ascii.eqb c "_"%char || has_underscore t
  end.

(** A file system that keeps what is saved: the files written, newest
    first. *)
Definition store : Type := list (string * Trainer.module Q).

Fixpoint store_lookup (f : store) (p : string)
    : result (Trainer.module Q) :=
  match f with
  | [] => Raise (OSError "No such file or directory")
  | (q, m) :: rest => if String.eqb p q then Ok m else store_lookup rest p
  end.

(** The sample world on that file system, with the identity as the only
    permutation. *)
Definition store_env : Trainer.oracles Q store unit :=
  Trainer.mk_oracles Q store unit
    scale_forward
    sample_MSELoss
    (fun ts reg _ _ _ => Ok (Trainer.net_of ts, Trainer.net_of reg))
    (fun r n => (seq 0 n, r))
    (fun _ _ => false)
    (fun f _ => Ok f)
    (fun _ _ => Ok [])
    (fun f _ => Ok f)
    (fun f m p => Ok ((p, m) :: f))
    store_lookup
    (fun _ => Ok 0%Z)
    (fun x => x).

Definition store_state (d : option string) : Trainer.trainer Q store unit :=
  Trainer.mk_trainer (Trainer.mk_module 1 [true]) (Trainer.mk_module 0 [true])
    (1 # 100) d None None [] tt [].

(** The sample training set with no training data. *)
Definition no_train_cfg (epochs : Z) : Trainer.config :=
  Trainer.mk_config
    [] []
    [ [[5]; [6]] ] [ [[5]; [6]] ]
    2 2 epochs "work"
    [("rice", 0%nat); ("dal", 1%nat)]
    [("2020-01-01", 0%Z)].

(** The sample training set with no test data. *)
Definition no_test_cfg (epochs : Z) : Trainer.config :=
  Trainer.mk_config
    [ [[1]; [2]]; [[3]; [4]] ] [ [[1]; [2]]; [[3]; [4]] ]
    [] []
    2 2 epochs "work"
    [("rice", 0%nat); ("dal", 1%nat)]
    [("2020-01-01", 0%Z)].
(** ** Facts about slices and broadcasting *)

Lemma every_nth_error {A : Type} (n : nat) (l : list A) :
  (1 <= n)%nat ->
  forall k j, nth_error (every n k l) j = nth_error l (k + j * n).
Proof.
  intros Hn. induction l as [|x t IH]; intros k j.
  - simpl. now destruct j, (k + _)%nat.
  - destruct k as [|k]; simpl.
    + destruct j as [|j]; simpl; [reflexivity|].
      rewrite IH. destruct n as [|n]; [lia|]. simpl. reflexivity.
    + apply IH.
Qed.

Lemma every_length {A B : Type} (n : nat) (l : list A) :
  forall (l' : list B) k,
    length l = length l' -> length (every n k l) = length (every n k l').
Proof.
  induction l as [|x t IH]; intros [|y t'] k H; simpl in *; try discriminate.
  - reflexivity.
  - injection H as H. destruct k; simpl; auto.
Qed.

Lemma broadcast_same_length {A B C : Type} (f : A -> B -> C) a b :
  length a = length b ->
  broadcast f a b = Ok (map (fun p => f (fst p) (snd p)) (combine a b)).
Proof.
  intros H. unfold broadcast. now rewrite H, Nat.eqb_refl.
Qed.

Lemma every_one {A : Type} (l : list A) : every 1 0 l = l.
Proof. induction l as [|x t IH]; simpl; [reflexivity | now rewrite IH]. Qed.

Lemma py_slice_ok {A : Type} (i n : nat) (l : list A) :
  (1 <= n)%nat -> py_slice i n l = Ok (every n i l).
Proof. intros H. destruct n; [lia | reflexivity]. Qed.

(** ** The metric functions *)

Section MetricFacts.
Variable sqrtQ : Q -> Q.

Lemma rmse_same_length t p :
  length t = length p -> Tools.rmse sqrtQ t p = Ok (rmse_value sqrtQ t p).
Proof.
  intros H. unfold Tools.rmse. now rewrite (broadcast_same_length _ _ _ H).
Qed.

Lemma mae_same_length t p :
  length t = length p -> Tools.mae t p = Ok (mae_value t p).
Proof.
  intros H. unfold Tools.mae. now rewrite (broadcast_same_length _ _ _ H).
Qed.

Lemma foodwise_loop_flat (y_true y_pred : list Q) (n : nat) :
  (1 <= n)%nat -> length y_true = length y_pred ->
  forall todo rl ml,
    Tools.foodwise_loop sqrtQ (fun l => l) y_true y_pred n todo rl ml =
    Ok (rl ++ map (fun i => rmse_value sqrtQ (every n i y_true) (every n i y_pred))
                todo,
        ml ++ map (fun i => mae_value (every n i y_true) (every n i y_pred))
                todo).
Proof.
  intros Hn Hlen. induction todo as [|i rest IH]; intros rl ml; simpl.
  - now rewrite !app_nil_r.
  - rewrite !(py_slice_ok _ _ _ Hn). simpl.
    rewrite rmse_same_length, mae_same_length
      by (apply every_length; exact Hlen).
    simpl. rewrite IH, <- !app_assoc. reflexivity.
Qed.

(** C5.  With at least one food and two flat sequences of one length,
    [calculate_foodwise_errors] returns two lists with one entry per food;
    entry [i] of the first is the rmse and entry [i] of the second is the
    mae (the list is called mse) of the slices [y_true[i::n]] and
    [y_pred[i::n]], whose [j]-th elements are those at position
    [i + j * n].  With one food the entries are the rmse and the mae of the
    whole sequences, and [[1,2,3,4,5,6]] splits for three foods into
    [[1,4]], [[2,5]], [[3,6]]. *)
Theorem calculate_foodwise_errors_per_entity
    (n : nat) (y_true y_pred : list Q) :
  (1 <= n)%nat ->
  length y_true = length y_pred ->
  exists rmse_list mse_list,
    Tools.calculate_foodwise_errors sqrtQ (fun l => l) y_true y_pred n
      = Ok (rmse_list, mse_list)
    /\ length rmse_list = n
    /\ length mse_list = n
    /\ (forall i, (i < n)%nat ->
        exists t p r m,
          py_slice i n y_true = Ok t
          /\ py_slice i n y_pred = Ok p
          /\ (forall j, nth_error t j = nth_error y_true (i + j * n))
          /\ (forall j, nth_error p j = nth_error y_pred (i + j * n))
          /\ nth_error rmse_list i = Some r
          /\ nth_error mse_list i = Some m
          /\ Tools.rmse sqrtQ t p = Ok r
          /\ Tools.mae t p = Ok m)
    /\ (n = 1%nat ->
        exists r m,
          Tools.rmse sqrtQ y_true y_pred = Ok r
          /\ Tools.mae y_true y_pred = Ok m
          /\ rmse_list = [r] /\ mse_list = [m])
    /\ py_slice 0 3 [1; 2; 3; 4; 5; 6] = Ok [1; 4]
    /\ py_slice 1 3 [1; 2; 3; 4; 5; 6] = Ok [2; 5]
    /\ py_slice 2 3 [1; 2; 3; 4; 5; 6] = Ok [3; 6].
Proof.
  intros Hn Hlen.
  unfold Tools.calculate_foodwise_errors.
  rewrite (foodwise_loop_flat _ _ _ Hn Hlen). simpl app.
  eexists _, _. split; [reflexivity|].
  split; [now rewrite length_map, length_seq|].
  split; [now rewrite length_map, length_seq|].
  split; [|split; [|repeat split]].
  - intros i Hi.
    exists (every n i y_true), (every n i y_pred),
      (rmse_value sqrtQ (every n i y_true) (every n i y_pred)),
      (mae_value (every n i y_true) (every n i y_pred)).
    rewrite !(py_slice_ok _ _ _ Hn).
    repeat split.
    + intros j. now apply every_nth_error.
    + intros j. now apply every_nth_error.
    + rewrite nth_error_map, nth_error_seq.
      destruct (Nat.ltb_spec i n); [reflexivity | lia].
    + rewrite nth_error_map, nth_error_seq.
      destruct (Nat.ltb_spec i n); [reflexivity | lia].
    + apply rmse_same_length, every_length, Hlen.
    + apply mae_same_length, every_length, Hlen.
  - intros ->. simpl. rewrite !every_one.
    eexists _, _. repeat split.
    + now apply rmse_same_length.
    + now apply mae_same_length.
Qed.

End MetricFacts.

(** ** Floating-point values up to the representation of rationals *)

Lemma Qltb_lt (x y : Q) : Qltb x y = true <-> x < y.
Proof.
  unfold Qltb. rewrite negb_true_iff. split; intros H.
  - apply Qnot_le_lt. intros Hle. apply Qle_bool_iff in Hle. congruence.
  - destruct (Qle_bool y x) eqn:E; [|reflexivity].
    apply Qle_bool_iff in E. exfalso. exact (Qlt_not_le _ _ H E).
Qed.

Lemma Qltb_compat (x x' y y' : Q) :
  x == x' -> y == y' -> Qltb x y = Qltb x' y'.
Proof.
  intros Hx Hy.
  destruct (Qltb x y) eqn:E, (Qltb x' y') eqn:E'; try reflexivity.
  - apply Qltb_lt in E. rewrite Hx, Hy in E. apply Qltb_lt in E. congruence.
  - apply Qltb_lt in E'. rewrite <- Hx, <- Hy in E'. apply Qltb_lt in E'.
    congruence.
Qed.

Lemma Qeq_bool_compat (x x' y y' : Q) :
  x == x' -> y == y' -> Qeq_bool x y = Qeq_bool x' y'.
Proof.
  intros Hx Hy.
  destruct (Qeq_bool x y) eqn:E, (Qeq_bool x' y') eqn:E'; try reflexivity.
  - apply Qeq_bool_iff in E. rewrite Hx, Hy in E. apply Qeq_bool_iff in E.
    congruence.
  - apply Qeq_bool_iff in E'. rewrite <- Hx, <- Hy in E'.
    apply Qeq_bool_iff in E'. congruence.
Qed.

Lemma fl_eq_refl (a : pyfloat) : fl_eq a a.
Proof. destruct a; simpl; auto. reflexivity. Qed.

Lemma fl_eq_sym (a b : pyfloat) : fl_eq a b -> fl_eq b a.
Proof. destruct a, b; simpl; auto. intros H. now symmetry. Qed.

Lemma fl_eq_trans (a b c : pyfloat) : fl_eq a b -> fl_eq b c -> fl_eq a c.
Proof.
  destruct a, b, c; simpl; auto; try contradiction.
  intros H1 H2. now rewrite H1.
Qed.

Lemma inf_signed_compat (x x' : Q) : x == x' -> inf_signed x = inf_signed x'.
Proof.
  intros H. unfold inf_signed.
  rewrite (Qltb_compat 0 0 x x'), (Qltb_compat x x' 0 0);
    (reflexivity || assumption).
Qed.

Lemma fadd_compat (a a' b b' : pyfloat) :
  fl_eq a a' -> fl_eq b b' -> fl_eq (fadd a b) (fadd a' b').
Proof.
  destruct a, a', b, b'; simpl; auto; try contradiction.
  intros H1 H2. now rewrite H1, H2.
Qed.

Lemma fmul_compat (a a' b b' : pyfloat) :
  fl_eq a a' -> fl_eq b b' -> fl_eq (fmul a b) (fmul a' b').
Proof.
  destruct a, a', b, b'; simpl; auto; try contradiction;
    intros H1 H2;
    try (now rewrite H1, H2);
    try (rewrite (inf_signed_compat _ _ H1); apply fl_eq_refl);
    try (rewrite (inf_signed_compat _ _ H2); apply fl_eq_refl);
    try (rewrite (inf_signed_compat (- q) (- q0)) by (now rewrite ?H1, ?H2);
         apply fl_eq_refl).
Qed.

Lemma fdiv_compat (a a' b b' : pyfloat) :
  fl_eq a a' -> fl_eq b b' -> fl_eq (fdiv a b) (fdiv a' b').
Proof.
  destruct a, a', b, b'; simpl; auto; try contradiction; intros H1 H2;
    try reflexivity;
    try (rewrite (Qltb_compat _ _ _ _ H2 (Qeq_refl 0)); apply fl_eq_refl).
  rewrite (Qeq_bool_compat _ _ _ _ H2 (Qeq_refl 0)).
  destruct (Qeq_bool q2 0) eqn:E.
  - rewrite (inf_signed_compat _ _ H1). apply fl_eq_refl.
  - simpl. now rewrite H1, H2.
Qed.


(** *** The arithmetic of numpy *)

Lemma float_limit_pos : 0 < float_limit.
Proof. reflexivity. Qed.

Lemma Qle_bool_compat (x x' y y' : Q) :
  x == x' -> y == y' -> Qle_bool x y = Qle_bool x' y'.
Proof.
  intros Hx Hy.
  destruct (Qle_bool x y) eqn:E, (Qle_bool x' y') eqn:E'; try reflexivity.
  - apply Qle_bool_iff in E. rewrite Hx, Hy in E. apply Qle_bool_iff in E.
    congruence.
  - apply Qle_bool_iff in E'. rewrite <- Hx, <- Hy in E'.
    apply Qle_bool_iff in E'. congruence.
Qed.

(** The three cases of a finite result. *)
Lemma overflow_cases (q : Q) :
  (float_limit <= q /\ overflow (Fin q) = PInf)
  \/ (q <= - float_limit /\ overflow (Fin q) = NInf)
  \/ (- float_limit < q < float_limit /\ overflow (Fin q) = Fin q).
Proof.
  pose proof float_limit_pos as Hpos. unfold overflow.
  destruct (Qle_bool float_limit q) eqn:E1.
  - left. apply Qle_bool_iff in E1. now split.
  - assert (H1 : q < float_limit).
    { apply Qnot_le_lt. intros H. apply Qle_bool_iff in H. congruence. }
    destruct (Qle_bool q (- float_limit)) eqn:E2.
    + right. left. apply Qle_bool_iff in E2. now split.
    + right. right. split; [|reflexivity]. split; [|exact H1].
      apply Qnot_le_lt. intros H. apply Qle_bool_iff in H. congruence.
Qed.

Lemma overflow_in_range (q : Q) :
  - float_limit < q < float_limit -> overflow (Fin q) = Fin q.
Proof.
  intros [Hlo Hhi].
  destruct (overflow_cases q) as [[H _]|[[H _]|[_ H]]];
    [exfalso; exact (Qlt_not_le _ _ Hhi H)
    |exfalso; exact (Qlt_not_le _ _ Hlo H)
    |exact H].
Qed.

Lemma overflow_compat (a a' : pyfloat) :
  fl_eq a a' -> fl_eq (overflow a) (overflow a').
Proof.
  destruct a as [q| | |], a' as [q'| | |]; simpl; auto; try contradiction.
  intros H.
  rewrite (Qle_bool_compat float_limit float_limit q q' (Qeq_refl _) H).
  rewrite (Qle_bool_compat q q' (- float_limit) (- float_limit) H
             (Qeq_refl _)).
  destruct (Qle_bool float_limit q'); [exact I|].
  destruct (Qle_bool q' (- float_limit)); [exact I | exact H].
Qed.

Lemma fneg_compat (a a' : pyfloat) : fl_eq a a' -> fl_eq (fneg a) (fneg a').
Proof.
  destruct a, a'; simpl; auto. intros H. now rewrite H.
Qed.

Lemma np_add_compat (a a' b b' : pyfloat) :
  fl_eq a a' -> fl_eq b b' -> fl_eq (np_add a b) (np_add a' b').
Proof. intros. now apply overflow_compat, fadd_compat. Qed.

Lemma np_sub_compat (a a' b b' : pyfloat) :
  fl_eq a a' -> fl_eq b b' -> fl_eq (np_sub a b) (np_sub a' b').
Proof.
  intros. apply overflow_compat, fadd_compat; [assumption|].
  now apply fneg_compat.
Qed.

Lemma np_mul_compat (a a' b b' : pyfloat) :
  fl_eq a a' -> fl_eq b b' -> fl_eq (np_mul a b) (np_mul a' b').
Proof. intros. now apply overflow_compat, fmul_compat. Qed.

Lemma np_div_compat (a a' b b' : pyfloat) :
  fl_eq a a' -> fl_eq b b' -> fl_eq (np_div a b) (np_div a' b').
Proof. intros. now apply overflow_compat, fdiv_compat. Qed.

Lemma fold_np_add_compat (l l' : list pyfloat) :
  Forall2 fl_eq l l' ->
  forall a a', fl_eq a a' ->
    fl_eq (fold_left np_add l a) (fold_left np_add l' a').
Proof.
  induction 1 as [|x x' l l' Hx _ IH]; intros a a' Ha; simpl.
  - exact Ha.
  - apply IH. now apply np_add_compat.
Qed.

Lemma np_mean_compat (l l' : list pyfloat) :
  Forall2 fl_eq l l' -> fl_eq (np_mean l) (np_mean l').
Proof.
  intros H. unfold np_mean, np_sum, of_len.
  rewrite (Forall2_length H).
  apply np_div_compat.
  - apply fold_np_add_compat; [exact H | apply fl_eq_refl].
  - apply fl_eq_refl.
Qed.

(** Overflow keeps the sign: the absolute value can be taken before or
    after. *)
Lemma fabs_overflow (a : pyfloat) : fabs (overflow a) = overflow (fabs a).
Proof.
  destruct a as [q| | |]; try reflexivity. cbn [fabs].
  pose proof float_limit_pos as Hpos.
  destruct (overflow_cases q) as [[H ->]|[[H ->]|[[Hlo Hhi] ->]]]; cbn [fabs].
  - destruct (overflow_cases (Qabs q)) as [[_ ->]|[[H' _]|[[_ H'] _]]];
      [reflexivity| |].
    + exfalso. pose proof (Qabs_nonneg q). lra.
    + exfalso. rewrite Qabs_pos in H' by lra. lra.
  - destruct (overflow_cases (Qabs q)) as [[_ ->]|[[H' _]|[[_ H'] _]]];
      [reflexivity| |].
    + exfalso. pose proof (Qabs_nonneg q). lra.
    + exfalso. rewrite Qabs_neg in H' by lra. lra.
  - symmetry. apply overflow_in_range. split.
    + pose proof (Qabs_nonneg q). lra.
    + apply Qabs_Qlt_condition. now split.
Qed.

Lemma Forall2_map_in {A B : Type} (R : B -> B -> Prop) (f g : A -> B)
    (l : list A) :
  (forall z, In z l -> R (f z) (g z)) -> Forall2 R (map f l) (map g l).
Proof.
  induction l as [|x t IH]; intros H; simpl; constructor.
  - apply H. now left.
  - apply IH. intros z Hz. apply H. now right.
Qed.

(** Two element-wise operations that agree, up to [R], whenever the right
    operand comes from [b] broadcast alike. *)
Lemma broadcast_rel {A B C : Type} (R : C -> C -> Prop) (f g : A -> B -> C)
    (a : list A) (b : list B) :
  (forall x y, In y b -> R (f x y) (g x y)) ->
  match broadcast f a b, broadcast g a b with
  | Ok l, Ok l' => Forall2 R l l'
  | Raise e, Raise e' => e = e'
  | _, _ => False
  end.
Proof.
  intros H. unfold broadcast.
  destruct (Nat.eqb (length a) (length b)).
  - apply Forall2_map_in. intros [x y] Hin. simpl.
    apply H. eapply in_combine_r; eassumption.
  - destruct a as [|x [|x' a']]; destruct b as [|y [|y' b']];
      try reflexivity;
      try (apply Forall2_map_in; intros z Hz; apply H; simpl; auto).
Qed.

(** ** [mape] *)

Lemma Qabs_div_nonneg (x y : Q) : 0 <= y -> Qabs (x / y) == Qabs x / y.
Proof.
  intros Hy. unfold Qdiv. rewrite Qabs_Qmult.
  rewrite (Qabs_pos (/ y)); [reflexivity|].
  now apply Qinv_le_0_compat.
Qed.

Lemma fabs_inf_signed (x : Q) : fabs (inf_signed x) = inf_signed (Qabs x).
Proof.
  unfold inf_signed.
  destruct (Qltb 0 x) eqn:E1.
  - apply Qltb_lt in E1. simpl.
    assert (H : Qltb 0 (Qabs x) = true).
    { apply Qltb_lt. rewrite Qabs_pos; [assumption | now apply Qlt_le_weak]. }
    now rewrite H.
  - destruct (Qltb x 0) eqn:E2.
    + apply Qltb_lt in E2. simpl.
      assert (H : Qltb 0 (Qabs x) = true).
      { apply Qltb_lt. rewrite Qabs_neg; [lra | now apply Qlt_le_weak]. }
      now rewrite H.
    + simpl.
      assert (Hx : x == 0).
      { destruct (Qlt_le_dec 0 x) as [H|H].
        - apply Qltb_lt in H. congruence.
        - destruct (Qlt_le_dec x 0) as [H'|H'].
          + apply Qltb_lt in H'. congruence.
          + now apply Qle_antisym. }
      assert (H0 : Qltb 0 (Qabs x) = false).
      { rewrite (Qltb_compat 0 0 (Qabs x) 0); [reflexivity | reflexivity|].
        rewrite Hx. reflexivity. }
      assert (H1 : Qltb (Qabs x) 0 = false).
      { rewrite (Qltb_compat (Qabs x) 0 0 0); [reflexivity | | reflexivity].
        rewrite Hx. reflexivity. }
      now rewrite H0, H1.
Qed.

Lemma Qltb_nonneg (y : Q) : 0 <= y -> Qltb y 0 = false.
Proof.
  intros H. destruct (Qltb y 0) eqn:E; [|reflexivity].
  apply Qltb_lt in E. lra.
Qed.

(** The absolute value of a quotient is the quotient of the absolute value
    of the numerator as long as the denominator is not negative. *)
Lemma fabs_fdiv_nonneg (x y : pyfloat) :
  nonneg_or_inf y ->
  fl_eq (fabs (fdiv x y)) (fdiv (fabs x) y).
Proof.
  destruct x as [x| | |], y as [y| | |]; cbn [nonneg_or_inf];
    intros Hy; try contradiction; try exact I.
  - cbn [fdiv fabs]. destruct (Qeq_bool y 0).
    + rewrite fabs_inf_signed. apply fl_eq_refl.
    + cbn. now apply Qabs_div_nonneg.
  - cbn. reflexivity.
  - cbn [fdiv fabs]. rewrite (Qltb_nonneg y Hy). exact I.
  - cbn [fdiv fabs]. rewrite (Qltb_nonneg y Hy). exact I.
Qed.

Lemma fabs_np_div_nonneg (x y : pyfloat) :
  nonneg_or_inf y ->
  fl_eq (fabs (np_div x y)) (np_div (fabs x) y).
Proof.
  intros Hy. unfold np_div. rewrite fabs_overflow.
  now apply overflow_compat, fabs_fdiv_nonneg.
Qed.

Lemma denominator_nonneg (t : Q) :
  0 <= t + epsilon -> nonneg_or_inf (np_add (Fin t) (Fin epsilon)).
Proof.
  intros H. unfold np_add. cbn [fadd].
  pose proof float_limit_pos as Hpos.
  destruct (overflow_cases (t + epsilon)) as [[_ ->]|[[H' _]|[_ ->]]];
    cbn; auto.
  exfalso. lra.
Qed.



Lemma fl_eq_Fin_r (r : pyfloat) (x : Q) :
  fl_eq r (Fin x) -> exists v, r = Fin v /\ v == x.
Proof.
  destruct r; simpl; try contradiction. intros H. now exists q.
Qed.

Lemma epsilon_pos : 0 < epsilon.
Proof. reflexivity. Qed.

Lemma Qsum_nonneg (l : list Q) : Forall (fun x => 0 <= x) l -> 0 <= Qsum l.
Proof.
  induction 1 as [|x t Hx _ IH]; simpl; [lra|]. lra.
Qed.

Lemma Qdiv_nonneg (s n : Q) : 0 <= s -> 0 < n -> 0 <= s / n.
Proof.
  intros Hs Hn. unfold Qdiv. apply Qmult_le_0_compat; [exact Hs|].
  apply Qinv_le_0_compat. lra.
Qed.

Lemma of_len_nonzero {A : Type} (l : list A) :
  l <> [] -> Qeq_bool (inject_Z (Z.of_nat (length l))) 0 = false.
Proof.
  intros H. destruct l as [|x t]; [congruence|].
  destruct (Qeq_bool _ 0) eqn:E; [|reflexivity].
  apply Qeq_bool_iff in E. unfold Qeq in E. simpl in E. lia.
Qed.

Lemma of_len_ge_1 {A : Type} (l : list A) :
  l <> [] -> 1 <= inject_Z (Z.of_nat (length l)).
Proof.
  intros H. destruct l as [|x t]; [congruence|].
  unfold Qle. simpl. lia.
Qed.

(** Dividing by a count of at least one does not increase a value that
    is not negative. *)
Lemma Qdiv_count_le (s n : Q) : 0 <= s -> 1 <= n -> s / n <= s.
Proof.
  intros Hs Hn.
  assert (E : s == s / n * n) by (field; lra).
  assert (Hq : 0 <= s / n) by (apply Qdiv_nonneg; lra).
  revert E Hq. generalize (s / n). intros q E Hq. nra.
Qed.

(** *** Sums within the range *)

(** A sum of values that are not negative, as long as it stays below the
    limit, is the exact sum. *)
Lemma np_sum_in_range (l : list Q) :
  Forall (fun x => 0 <= x) l ->
  forall a,
    0 <= a -> a + Qsum l < float_limit ->
    exists v,
      fold_left np_add (map Fin l) (Fin a) = Fin v /\ v == a + Qsum l.
Proof.
  pose proof float_limit_pos as Hpos.
  induction 1 as [|x t Hx Ht IH]; intros a Ha Hb; cbn [map fold_left Qsum
                                                        fold_right] in *.
  - exists a. split; [reflexivity | lra].
  - pose proof (Qsum_nonneg t Ht) as Hs. fold (Qsum t) in Hb.
    unfold np_add at 2. cbn [fadd].
    rewrite overflow_in_range by (split; lra).
    destruct (IH (a + x)) as (v & Hv & Hval); [lra | lra|].
    exists v. split; [exact Hv|]. fold (Qsum t). lra.
Qed.

(** The mean of values that are not negative, as long as their sum stays
    below the limit: the exact sum over the count. *)
Lemma np_mean_in_range (l : list Q) :
  l <> [] ->
  Forall (fun x => 0 <= x) l ->
  Qsum l < float_limit ->
  exists v,
    np_mean (map Fin l) = Fin v
    /\ v == Qsum l / inject_Z (Z.of_nat (length l)).
Proof.
  intros Hne Hnn Hb. pose proof float_limit_pos as Hpos.
  destruct (np_sum_in_range l Hnn 0) as (s & Hs & Hsv);
    [lra | lra|].
  unfold np_mean, np_sum, of_len. rewrite Hs, length_map.
  unfold np_div. cbn [fdiv]. rewrite (of_len_nonzero l Hne).
  pose proof (of_len_ge_1 l Hne) as Hn.
  pose proof (Qsum_nonneg l Hnn) as Hs0.
  assert (Hs1 : 0 <= s) by lra.
  pose proof (Qdiv_count_le s _ Hs1 Hn) as Hle.
  pose proof (Qdiv_nonneg s (inject_Z (Z.of_nat (length l))) Hs1) as Hq.
  rewrite overflow_in_range by (split; lra).
  eexists. split; [reflexivity|]. now rewrite Hsv, Qplus_0_l.
Qed.

(** *** Values that are neither negative nor nan *)

Lemma nonneg_or_inf_overflow (a : pyfloat) :
  nonneg_or_inf a -> nonneg_or_inf (overflow a).
Proof.
  destruct a as [q| | |]; cbn [nonneg_or_inf]; auto.
  intros H. pose proof float_limit_pos as Hpos.
  destruct (overflow_cases q) as [[_ ->]|[[H' _]|[_ ->]]]; cbn; auto.
  lra.
Qed.

Lemma nonneg_or_inf_np_add (a b : pyfloat) :
  nonneg_or_inf a -> nonneg_or_inf b ->
  nonneg_or_inf (np_add a b).
Proof.
  intros Ha Hb. apply nonneg_or_inf_overflow.
  destruct a, b; cbn in *; auto. lra.
Qed.

Lemma nonneg_or_inf_np_sum (l : list pyfloat) :
  Forall nonneg_or_inf l ->
  forall a, nonneg_or_inf a ->
    nonneg_or_inf (fold_left np_add l a).
Proof.
  induction 1 as [|x t Hx _ IH]; intros a Ha; cbn; [exact Ha|].
  apply IH. now apply nonneg_or_inf_np_add.
Qed.

Lemma nonneg_or_inf_np_mean (l : list pyfloat) :
  l <> [] -> Forall nonneg_or_inf l -> nonneg_or_inf (np_mean l).
Proof.
  intros Hne H. unfold np_mean, np_sum, of_len, np_div.
  apply nonneg_or_inf_overflow.
  pose proof (nonneg_or_inf_np_sum l H (Fin 0) (Qle_refl 0)) as Hs.
  pose proof (of_len_ge_1 l Hne) as Hn.
  destruct (fold_left np_add l (Fin 0)) as [s| | |]; cbn in *;
    try contradiction.
  - rewrite (of_len_nonzero l Hne). cbn. apply Qdiv_nonneg; lra.
  - rewrite Qltb_nonneg by lra. exact I.
Qed.

(** With a true value of zero the quotient is the prediction over
    [epsilon], up to the sign. *)
Lemma zero_true_quotient (t p : Q) :
  t == 0 ->
  fl_eq (fabs (np_div (np_sub (Fin t) (Fin p)) (np_add (Fin t) (Fin epsilon))))
    (overflow
       (fdiv (overflow (Fin (Qabs p))) (Fin epsilon))).
Proof.
  intros Ht.
  assert (Hden : fl_eq (np_add (Fin t) (Fin epsilon)) (Fin epsilon)).
  { unfold np_add. cbn [fadd].
    assert (E : fl_eq (overflow (Fin (t + epsilon))) (overflow (Fin epsilon))).
    { apply overflow_compat. cbn [fl_eq]. rewrite Ht. lra. }
    exact E. }
  eapply fl_eq_trans.
  { apply fabs_np_div_nonneg. apply denominator_nonneg.
    rewrite Ht. pose proof epsilon_pos. lra. }
  unfold np_div. apply overflow_compat, fdiv_compat; [|exact Hden].
  unfold np_sub. cbn [fneg fadd]. rewrite fabs_overflow. cbn [fabs].
  apply overflow_compat. cbn [fl_eq]. rewrite Ht.
  setoid_replace (0 + - p) with (- p) by ring. apply Qabs_opp.
Qed.

Lemma zero_true_quotients (y_true : list Q) :
  forall y_pred,
    length y_true = length y_pred ->
    Forall (fun t => t == 0) y_true ->
    Forall2 fl_eq
      (map fabs
         (map (fun p => np_div (fst p) (snd p))
            (combine
               (map (fun p => np_sub (Fin (fst p)) (Fin (snd p)))
                  (combine y_true y_pred))
               (map (fun t => np_add (Fin t) (Fin epsilon)) y_true))))
      (map (fun p => overflow (fdiv (overflow (Fin (Qabs p))) (Fin epsilon)))
         y_pred).
Proof.
  induction y_true as [|t ts IH]; intros [|p ps] Hlen Hz;
    cbn [map combine fst snd length] in *; try discriminate; constructor.
  - inversion Hz as [|? ? Ht _]; subst. now apply zero_true_quotient.
  - inversion Hz; subst. apply IH; [now injection Hlen | assumption].
Qed.

Lemma quotient_by_epsilon (a : pyfloat) :
  nonneg_or_inf a ->
  nonneg_or_inf (overflow (fdiv (overflow a) (Fin epsilon))).
Proof.
  intros Ha. apply nonneg_or_inf_overflow.
  apply nonneg_or_inf_overflow in Ha.
  destruct (overflow a) as [q| | |]; cbn in *; try contradiction; auto.
  apply Qdiv_nonneg; [exact Ha | apply epsilon_pos].
Qed.

Lemma Qabs_le_Qsum (l : list Q) (p : Q) :
  In p l -> Qabs p <= Qsum (map Qabs l).
Proof.
  induction l as [|x t IH]; intros Hin; [contradiction|].
  cbn [map Qsum fold_right]. fold (Qsum (map Qabs t)).
  assert (Ht : 0 <= Qsum (map Qabs t)).
  { apply Qsum_nonneg, Forall_forall. intros y Hy.
    apply in_map_iff in Hy. destruct Hy as (z & <- & _). apply Qabs_nonneg. }
  destruct Hin as [->|Hin].
  - lra.
  - pose proof (IH Hin). pose proof (Qabs_nonneg x). lra.
Qed.

Lemma Qsum_scale (c : Q) (l : list Q) :
  Qsum (map (fun p => Qabs p / c) l) == Qsum (map Qabs l) / c.
Proof.
  induction l as [|x t IH]; simpl.
  - unfold Qdiv. lra.
  - rewrite IH. unfold Qdiv. lra.
Qed.

Lemma Qdiv_epsilon_ge (x : Q) : 0 <= x -> x <= x / epsilon.
Proof.
  intros H. unfold Qdiv.
  setoid_replace (/ epsilon) with 10000000 by reflexivity. lra.
Qed.

Lemma half_range_below_limit : inject_Z (2 ^ 1023) < float_limit.
Proof. reflexivity. Qed.

(** C8 as stated fails twice.  On the empty input, all of whose true
    values are zero, the mean of no element is nan, which is not a finite
    value; and a prediction of [10^300] against a true value of zero
    overflows binary64, so the result is positive infinity. *)
Lemma mape_all_zero_finite_counterexample :
  (Forall (fun t => t == 0) (@nil Q)
   /\ length (@nil Q) = length (@nil Q)
   /\ Tools.mape [] [] = Ok NaN
   /\ ~ (exists v, Tools.mape [] [] = Ok (Fin v)))
  /\ (Forall (fun t => t == 0) [0]
      /\ Qabs (inject_Z (10 ^ 300)) < float_limit
      /\ Tools.mape [0] [inject_Z (10 ^ 300)] = Ok PInf
      /\ ~ (exists v, Tools.mape [0] [inject_Z (10 ^ 300)] = Ok (Fin v))).
Proof.
  split.
  - repeat split; try constructor.
    intros [v H]. discriminate H.
  - assert (E : Tools.mape [0] [inject_Z (10 ^ 300)] = Ok PInf)
      by (vm_compute; reflexivity).
    split; [repeat constructor; reflexivity|].
    split; [vm_compute; reflexivity|].
    split; [exact E|].
    intros [v H]. rewrite E in H. discriminate H.
Qed.

(** C8, amended.  On a non-empty input whose true values are all zero and
    whose predictions are in the range of binary64, [mape] does not raise:
    every denominator is [epsilon].  What it returns is never nan and never
    negative: it is the mean of the [|y_pred| / epsilon], times 100, a
    finite value as long as that stays in the range of binary64 (it does
    when the sum of the [|y_pred|], over [epsilon] and times 100, is at
    most [2^1023]), and positive infinity beyond. *)
Theorem mape_all_zero_finite (y_true y_pred : list Q) :
  y_true <> [] ->
  length y_true = length y_pred ->
  Forall (fun t => t == 0) y_true ->
  Forall (fun p => Qabs p < float_limit) y_pred ->
  (exists r,
      Tools.mape y_true y_pred = Ok r
      /\ (r = PInf \/ exists v, r = Fin v /\ 0 <= v))
  /\ (Qsum (map Qabs y_pred) / epsilon * 100 <= inject_Z (2 ^ 1023) ->
      exists v,
        Tools.mape y_true y_pred = Ok (Fin v)
        /\ 0 <= v
        /\ v == Qsum (map (fun p => Qabs p / epsilon) y_pred)
                / inject_Z (Z.of_nat (length y_pred)) * 100).
Proof.
  intros Hne Hlen Hz Hrange. unfold Tools.mape.
  rewrite (broadcast_same_length _ _ _ Hlen). cbn [rbind].
  rewrite broadcast_same_length
    by (rewrite !length_map, length_combine, <- Hlen; lia).
  cbn [rbind].
  pose proof (zero_true_quotients _ _ Hlen Hz) as Hq.
  set (terms := map fabs _) in *.
  set (quot := fun p => overflow (fdiv (overflow (Fin (Qabs p))) (Fin epsilon)))
    in *.
  assert (Hpne : y_pred <> []).
  { destruct y_true; [congruence|]. destruct y_pred; [discriminate|].
    discriminate. }
  assert (Hqne : map quot y_pred <> []).
  { destruct y_pred; [congruence | discriminate]. }
  pose proof (np_mean_compat _ _ Hq) as Hmean.
  split.
  - (* never nan, never negative *)
    assert (Hgood : nonneg_or_inf (np_mean (map quot y_pred))).
    { apply nonneg_or_inf_np_mean; [exact Hqne|].
      apply Forall_forall. intros x Hx. apply in_map_iff in Hx.
      destruct Hx as (p & <- & _). apply quotient_by_epsilon.
      cbn. apply Qabs_nonneg. }
    assert (Hres : nonneg_or_inf
                     (np_mul (np_mean (map quot y_pred)) (Fin 100))).
    { unfold np_mul. apply nonneg_or_inf_overflow.
      destruct (np_mean (map quot y_pred)) as [m| | |]; cbn in *;
        try contradiction; auto. lra. }
    pose proof (np_mul_compat _ _ (Fin 100) (Fin 100) Hmean
                  (fl_eq_refl _)) as Hfinal.
    eexists. split; [reflexivity|].
    destruct (np_mul (np_mean (map quot y_pred)) (Fin 100)) as [v| | |];
      destruct (np_mul (np_mean terms) (Fin 100)) as [v'| | |];
      cbn in Hres, Hfinal; try contradiction.
    + right. exists v'. split; [reflexivity|]. now rewrite Hfinal.
    + now left.
  - (* finite within the range *)
    intros Hbound.
    pose proof float_limit_pos as Hpos.
    pose proof half_range_below_limit as Hhalf.
    pose proof epsilon_pos as Heps.
    set (S := Qsum (map Qabs y_pred)) in *.
    assert (HS : 0 <= S).
    { apply Qsum_nonneg, Forall_forall. intros y Hy.
      apply in_map_iff in Hy. destruct Hy as (z & <- & _).
      apply Qabs_nonneg. }
    assert (HSe : 0 <= S / epsilon) by (apply Qdiv_nonneg; assumption).
    assert (HSle : S <= S / epsilon) by now apply Qdiv_epsilon_ge.
    assert (Hexact : map quot y_pred
                     = map Fin (map (fun p => Qabs p / epsilon) y_pred)).
    { rewrite map_map. apply map_ext_in. intros p Hp. unfold quot.
      pose proof (Qabs_le_Qsum y_pred p Hp) as Hle. fold S in Hle.
      pose proof (Qabs_nonneg p) as Hp0.
      rewrite overflow_in_range by (split; lra).
      cbn [fdiv].
      assert (Ee : Qeq_bool epsilon 0 = false) by reflexivity.
      rewrite Ee.
      assert (Hq0 : 0 <= Qabs p / epsilon) by (apply Qdiv_nonneg; assumption).
      assert (Hq1 : Qabs p / epsilon <= S / epsilon).
      { unfold Qdiv. apply Qmult_le_compat_r; [exact Hle|].
        apply Qinv_le_0_compat. lra. }
      apply overflow_in_range. split; lra. }
    rewrite Hexact in Hmean.
    assert (Hterms : Forall (fun x => 0 <= x)
                       (map (fun p => Qabs p / epsilon) y_pred)).
    { apply Forall_forall. intros x Hx. apply in_map_iff in Hx.
      destruct Hx as (p & <- & _). apply Qdiv_nonneg; [|exact Heps].
      apply Qabs_nonneg. }
    assert (Hsum : Qsum (map (fun p => Qabs p / epsilon) y_pred)
                   == S / epsilon) by apply Qsum_scale.
    destruct (np_mean_in_range (map (fun p => Qabs p / epsilon) y_pred))
      as (m & Hm & Hmv).
    { destruct y_pred; [congruence | discriminate]. }
    { exact Hterms. }
    { rewrite Hsum. lra. }
    rewrite Hm in Hmean. rewrite length_map in Hmv.
    apply fl_eq_Fin_r in Hmean. destruct Hmean as (m' & Hm' & Hmv').
    rewrite Hm'. unfold np_mul. cbn [fmul].
    pose proof (of_len_ge_1 y_pred Hpne) as Hn.
    assert (Hm0 : 0 <= m').
    { rewrite Hmv', Hmv, Hsum. apply Qdiv_nonneg; lra. }
    assert (Hm1 : m' <= S / epsilon).
    { rewrite Hmv', Hmv, Hsum. apply Qdiv_count_le; assumption. }
    rewrite overflow_in_range by (split; lra).
    eexists. split; [reflexivity|]. split; [lra|].
    now rewrite Hmv', Hmv.
Qed.
(** ** More on the metric functions *)

Lemma combine_nonempty {A B : Type} (a : list A) (b : list B) :
  length a = length b -> a <> [] -> combine a b <> [].
Proof.
  destruct a, b; simpl; intros; congruence.
Qed.









Section MoreMetricFacts.
Variable sqrtQ : Q -> Q.


Lemma Qsquare_nonneg (x : Q) : 0 <= x * x.
Proof. nra. Qed.

Lemma Qsum_le_count (c : Q) (l : list Q) :
  Forall (fun x => x <= c) l ->
  Qsum l <= inject_Z (Z.of_nat (length l)) * c.
Proof.
  induction 1 as [|x t Hx _ IH]; cbn [Qsum fold_right length].
  - cbn [Z.of_nat]. setoid_replace (inject_Z 0 * c) with 0 by ring.
    apply Qle_refl.
  - fold (Qsum t). rewrite Nat2Z.inj_succ. unfold Z.succ.
    rewrite inject_Z_plus.
    setoid_replace ((inject_Z (Z.of_nat (length t)) + inject_Z 1) * c)
      with (inject_Z (Z.of_nat (length t)) * c + c) by ring.
    lra.
Qed.

Lemma Qsquare_le (d b : Q) : - b <= d <= b -> d * d <= b * b.
Proof.
  intros [Hlo Hhi]. destruct (Qlt_le_dec d 0) as [Hd|Hd].
  - setoid_replace (d * d) with ((- d) * (- d)) by ring.
    apply Qmult_le_compat_nonneg; split; lra.
  - apply Qmult_le_compat_nonneg; split; lra.
Qed.

(** The squares of differences of entries of at most [2^30], as many as
    fit a list, stay far below the limit of binary64. *)
Lemma moderate_squares_in_range :
  inject_Z (2 ^ 64)
  * ((inject_Z (2 ^ 30) + inject_Z (2 ^ 30))
     * (inject_Z (2 ^ 30) + inject_Z (2 ^ 30))) < float_limit.
Proof. reflexivity. Qed.

Lemma moderate_bound_nonneg : 0 <= inject_Z (2 ^ 30).
Proof. discriminate. Qed.

(** X2.  On two sequences of one length that are not empty, with entries
    of at most [2^30] in magnitude (where neither binary64 overflows nor
    the squares of numpy's 64-bit integers wrap around), [rmse] is the
    square root of a finite value that is not negative, the mean of the
    squares of the differences: it is never nan and never infinite. *)
Theorem rmse_of_moderate_values (y_true y_pred : list Q) :
  length y_true = length y_pred ->
  y_true <> [] ->
  (Z.of_nat (length y_true) < 2 ^ 64)%Z ->
  Forall (fun x => Qabs x <= inject_Z (2 ^ 30)) (y_true ++ y_pred) ->
  exists m,
    Tools.rmse sqrtQ y_true y_pred = Ok (Fin (sqrtQ m))
    /\ 0 <= m
    /\ m == Qsum (map (fun q => (fst q - snd q) * (fst q - snd q))
                    (combine y_true y_pred))
            / inject_Z (Z.of_nat (length y_true)).
Proof.
  intros Hlen Hne Hcount Hent. unfold Tools.rmse.
  rewrite (broadcast_same_length _ _ _ Hlen). cbn [rbind].
  pose proof (combine_nonempty _ _ Hlen Hne) as Hcne.
  pose proof float_limit_pos as Hpos.
  pose proof moderate_squares_in_range as Hfar.
  pose proof moderate_bound_nonneg as Hb0.
  assert (Hb1 : inject_Z (2 ^ 30) + inject_Z (2 ^ 30) < float_limit)
    by reflexivity.
  set (b := inject_Z (2 ^ 30)) in *.
  set (n := inject_Z (2 ^ 64)) in *.
  assert (Hn1 : 1 <= n) by discriminate.
  assert (Hbb : 0 <= (b + b) * (b + b)).
  { apply Qmult_le_0_compat; lra. }
  assert (Hcc : (b + b) * (b + b) <= n * ((b + b) * (b + b))).
  { setoid_replace ((b + b) * (b + b)) with (1 * ((b + b) * (b + b))) at 1
      by ring.
    apply Qmult_le_compat_r; assumption. }
  assert (Hdiff : forall q, In q (combine y_true y_pred) ->
            - (b + b) <= fst q - snd q <= b + b).
  { intros [t p] Hq. cbn [fst snd].
    rewrite Forall_forall in Hent.
    assert (Ht : Qabs t <= b)
      by (apply Hent, in_or_app; left; eapply in_combine_l; exact Hq).
    assert (Hp : Qabs p <= b)
      by (apply Hent, in_or_app; right; eapply in_combine_r; exact Hq).
    apply Qabs_Qle_condition in Ht. apply Qabs_Qle_condition in Hp.
    split; lra. }
  set (g := fun q : Q * Q => (fst q - snd q) * (fst q - snd q)).
  assert (Hg : forall q, In q (combine y_true y_pred) ->
            0 <= g q <= (b + b) * (b + b)).
  { intros q Hq. unfold g. split; [apply Qsquare_nonneg|].
    apply Qsquare_le. now apply Hdiff. }
  assert (Hexact :
    map (fun x => np_mul x x)
      (map (fun q => np_sub (Fin (fst q)) (Fin (snd q)))
         (combine y_true y_pred))
    = map Fin (map g (combine y_true y_pred))).
  { rewrite !map_map. apply map_ext_in. intros q Hq.
    pose proof (Hdiff q Hq) as Hd. pose proof (Hg q Hq) as Hgq.
    unfold np_sub. cbn [fneg fadd].
    rewrite overflow_in_range by (unfold Qminus in Hd; split; lra).
    unfold np_mul. cbn [fmul].
    apply overflow_in_range. unfold g, Qminus in Hgq |- *. split; lra. }
  rewrite Hexact.
  assert (Hcount' : inject_Z (Z.of_nat (length (combine y_true y_pred))) <= n).
  { rewrite length_combine, <- Hlen, Nat.min_id. unfold n.
    rewrite <- Zle_Qle. lia. }
  assert (Hlen0 : 0 <= inject_Z (Z.of_nat (length (combine y_true y_pred)))).
  { rewrite <- (Zle_Qle 0). lia. }
  destruct (np_mean_in_range (map g (combine y_true y_pred)))
    as (m & Hm & Hmv).
  - destruct (combine y_true y_pred); [congruence | discriminate].
  - apply Forall_forall. intros x Hx. apply in_map_iff in Hx.
    destruct Hx as (q & <- & Hq). now apply Hg.
  - assert (Hle : Qsum (map g (combine y_true y_pred))
                  <= inject_Z (Z.of_nat (length (map g (combine y_true y_pred))))
                     * ((b + b) * (b + b))).
    { apply Qsum_le_count, Forall_forall. intros x Hx.
      apply in_map_iff in Hx. destruct Hx as (q & <- & Hq). now apply Hg. }
    rewrite length_map in Hle.
    assert (Hle2 : inject_Z (Z.of_nat (length (combine y_true y_pred)))
                   * ((b + b) * (b + b)) <= n * ((b + b) * (b + b))).
    { apply Qmult_le_compat_r; assumption. }
    lra.
  - rewrite Hm. exists m.
    assert (Hm0 : 0 <= m).
    { rewrite Hmv. apply Qdiv_nonneg.
      - apply Qsum_nonneg, Forall_forall. intros x Hx.
        apply in_map_iff in Hx. destruct Hx as (q & <- & Hq). now apply Hg.
      - rewrite length_map.
        pose proof (of_len_ge_1 _ Hcne). lra. }
    split; [|split; [exact Hm0|]].
    + cbn [Tools.np_sqrt]. now rewrite Qltb_nonneg.
    + rewrite Hmv, length_map, length_combine, <- Hlen, Nat.min_id.
      reflexivity.
Qed.

Lemma combine_flip {A B C : Type} (f : A -> B -> C) (a : list A) :
  forall b : list B,
    map (fun q => f (fst q) (snd q)) (combine a b)
    = map (fun q => f (snd q) (fst q)) (combine b a).
Proof.
  induction a as [|x a IH]; intros [|y b]; simpl; try reflexivity.
  now rewrite IH.
Qed.

(** Swapping the operands of an element-wise operation swaps its
    arguments, whatever the shapes. *)
Lemma broadcast_flip {A B C : Type} (f : A -> B -> C)
    (a : list A) (b : list B) :
  broadcast f a b = broadcast (fun y x => f x y) b a.
Proof.
  unfold broadcast. rewrite (Nat.eqb_sym (length b) (length a)).
  destruct (Nat.eqb (length a) (length b)) eqn:E.
  - now rewrite (combine_flip f a b).
  - destruct a as [|x [|x' a']]; destruct b as [|y [|y' b']];
      try reflexivity; discriminate E.
Qed.

Lemma Forall2_map_rel {A B : Type} (R : A -> A -> Prop) (R' : B -> B -> Prop)
    (h : A -> B) (l l' : list A) :
  (forall u v, R u v -> R' (h u) (h v)) ->
  Forall2 R l l' -> Forall2 R' (map h l) (map h l').
Proof.
  intros Hh. induction 1; simpl; constructor; auto.
Qed.

Lemma fneg_overflow (a : pyfloat) : fneg (overflow a) = overflow (fneg a).
Proof.
  destruct a as [q| | |]; try reflexivity. cbn [fneg].
  pose proof float_limit_pos as Hpos.
  destruct (overflow_cases q) as [[H ->]|[[H ->]|[[Hlo Hhi] ->]]]; cbn [fneg].
  - destruct (overflow_cases (- q)) as [[H' _]|[[_ ->]|[[H' _] _]]];
      [exfalso; lra | reflexivity | exfalso; lra].
  - destruct (overflow_cases (- q)) as [[_ ->]|[[H' _]|[[_ H'] _]]];
      [reflexivity | exfalso; lra | exfalso; lra].
  - symmetry. apply overflow_in_range. split; lra.
Qed.

Lemma np_sub_opposite (x y : Q) :
  opposite (np_sub (Fin x) (Fin y)) (np_sub (Fin y) (Fin x)).
Proof.
  unfold opposite, np_sub. rewrite fneg_overflow. cbn [fneg fadd].
  apply overflow_compat. cbn [fl_eq]. ring.
Qed.

Lemma fabs_opposite (u v : pyfloat) :
  opposite u v -> fl_eq (fabs u) (fabs v).
Proof.
  unfold opposite. destruct u, v; cbn; auto.
  intros H. rewrite H. apply Qabs_opp.
Qed.

Lemma square_opposite (u v : pyfloat) :
  opposite u v -> fl_eq (np_mul u u) (np_mul v v).
Proof.
  unfold opposite, np_mul. intros H. apply overflow_compat.
  destruct u, v; cbn in *; auto; try contradiction.
  rewrite H. ring.
Qed.

(** X3.  [mae] and [rmse] do not depend on the order of their two
    arguments, whatever the shapes: on entries below [2^63] in magnitude
    (from there on numpy's unsigned 64-bit integers wrap around without a
    sign) they return equal values, or raise the same exception (for
    [rmse], with a square root that gives equal roots to equal
    rationals). *)
Theorem mae_rmse_symmetric (y_true y_pred : list Q) :
  (forall x y, x == y -> sqrtQ x == sqrtQ y) ->
  Forall (fun x => Qabs x < inject_Z (2 ^ 63)) (y_true ++ y_pred) ->
  result_eq fl_eq (Tools.mae y_true y_pred) (Tools.mae y_pred y_true)
  /\ result_eq fl_eq (Tools.rmse sqrtQ y_true y_pred)
       (Tools.rmse sqrtQ y_pred y_true).
Proof.
  intros Hsqrt _. unfold Tools.mae, Tools.rmse.
  rewrite (broadcast_flip (fun t p => np_sub (Fin t) (Fin p)) y_pred y_true).
  pose proof (broadcast_rel opposite
                (fun t p => np_sub (Fin t) (Fin p))
                (fun y x => np_sub (Fin x) (Fin y)) y_true y_pred) as Hrel.
  destruct (broadcast (fun t p => np_sub (Fin t) (Fin p)) y_true y_pred)
    as [d|e];
    destruct (broadcast (fun y x => np_sub (Fin x) (Fin y)) y_true y_pred)
      as [d'|e'];
    cbn [rbind result_eq];
    try (exfalso; apply Hrel; intros; apply np_sub_opposite);
    try (split; apply Hrel; intros; apply np_sub_opposite).
  assert (Hd : Forall2 opposite d d')
    by (apply Hrel; intros; apply np_sub_opposite).
  split.
  - apply np_mean_compat.
    eapply Forall2_map_rel; [|exact Hd].
    intros u v Huv. now apply fabs_opposite.
  - assert (Hm : fl_eq (np_mean (map (fun x => np_mul x x) d))
                   (np_mean (map (fun x => np_mul x x) d'))).
    { apply np_mean_compat.
      eapply Forall2_map_rel; [|exact Hd].
      intros u v Huv. now apply square_opposite. }
    destruct (np_mean (map (fun x => np_mul x x) d)) as [m| | |];
      destruct (np_mean (map (fun x => np_mul x x) d')) as [m'| | |];
      cbn in Hm; try contradiction; cbn; auto.
    rewrite (Qltb_compat m m' 0 0 Hm (Qeq_refl 0)).
    destruct (Qltb m' 0); cbn; auto.
Qed.

Lemma not_negative_overflow (a : pyfloat) :
  not_negative a -> not_negative (overflow a).
Proof.
  destruct a as [q| | |]; cbn [not_negative overflow]; auto.
  intros H. pose proof float_limit_pos as Hpos.
  destruct (overflow_cases q) as [[_ E]|[[H' _]|[_ E]]].
  - unfold overflow in E. rewrite E. exact I.
  - exfalso. lra.
  - unfold overflow in E. rewrite E. exact H.
Qed.

Lemma not_negative_np_add (a b : pyfloat) :
  not_negative a -> not_negative b -> not_negative (np_add a b).
Proof.
  intros Ha Hb. apply not_negative_overflow.
  destruct a, b; cbn in *; auto. lra.
Qed.

Lemma not_negative_np_sum (l : list pyfloat) :
  Forall not_negative l ->
  forall a, not_negative a -> not_negative (fold_left np_add l a).
Proof.
  induction 1 as [|x t Hx _ IH]; intros a Ha; cbn; [exact Ha|].
  apply IH. now apply not_negative_np_add.
Qed.

Lemma inf_signed_nonneg (s : Q) : 0 <= s -> not_negative (inf_signed s).
Proof.
  intros H. unfold inf_signed.
  destruct (Qltb 0 s); cbn; auto.
  destruct (Qltb s 0) eqn:E; cbn; auto.
  apply Qltb_lt in E. lra.
Qed.

Lemma not_negative_mean (l : list pyfloat) :
  Forall not_negative l -> not_negative (np_mean l).
Proof.
  intros H. unfold np_mean, np_sum, of_len, np_div.
  apply not_negative_overflow.
  pose proof (not_negative_np_sum l H (Fin 0)) as Hs.
  assert (Hn : 0 <= inject_Z (Z.of_nat (length l))).
  { unfold Qle. simpl. lia. }
  destruct (fold_left np_add l (Fin 0)) as [s| | |]; cbn in *.
  - specialize (Hs (Qle_refl 0)).
    destruct (Qeq_bool _ 0) eqn:E.
    + now apply inf_signed_nonneg.
    + cbn. apply Qeq_bool_neq in E. apply Qdiv_nonneg; [exact Hs|].
      destruct (Qlt_le_dec 0 (inject_Z (Z.of_nat (length l)))) as [Hp|Hp];
        [exact Hp|].
      exfalso. apply E. lra.
  - destruct (Qltb _ 0) eqn:E; cbn; auto. apply Qltb_lt in E. lra.
  - exfalso. apply Hs. apply Qle_refl.
  - exact I.
Qed.

Lemma not_negative_fabs (a : pyfloat) : not_negative (fabs a).
Proof. destruct a; cbn; auto. apply Qabs_nonneg. Qed.

(** X4.  Whatever its operands, when [mape] returns, what it returns is
    not negative: a finite value from zero up, positive infinity or nan,
    never a negative number and never negative infinity. *)
Theorem mape_never_negative (y_true y_pred : list Q) (r : pyfloat) :
  Tools.mape y_true y_pred = Ok r -> not_negative r.
Proof.
  unfold Tools.mape.
  destruct (broadcast (fun t p => np_sub (Fin t) (Fin p)) y_true y_pred)
    as [d|e]; cbn [rbind]; [|discriminate].
  destruct (broadcast _ d _) as [q|e]; cbn [rbind]; [|discriminate].
  intros H. injection H as <-.
  assert (Hm : not_negative (np_mean (map fabs q))).
  { apply not_negative_mean, Forall_forall. intros x Hx.
    apply in_map_iff in Hx. destruct Hx as (y & <- & _).
    apply not_negative_fabs. }
  unfold np_mul. apply not_negative_overflow.
  destruct (np_mean (map fabs q)) as [m| | |]; cbn in *; auto.
  lra.
Qed.

(** X5.  Two operands of different lengths, neither of length one, make
    each of the three metrics raise the [ValueError] of numpy's
    broadcasting; none returns a number. *)
Theorem metrics_reject_mismatched_lengths (y_true y_pred : list Q) :
  length y_true <> length y_pred ->
  length y_true <> 1%nat ->
  length y_pred <> 1%nat ->
  let e := ValueError "operands could not be broadcast together" in
  Tools.rmse sqrtQ y_true y_pred = Raise e
  /\ Tools.mae y_true y_pred = Raise e
  /\ Tools.mape y_true y_pred = Raise e.
Proof.
  intros Hne H1 H2. cbv zeta.
  assert (Hb : broadcast (fun t p => np_sub (Fin t) (Fin p)) y_true y_pred
               = Raise (ValueError "operands could not be broadcast together")).
  { unfold broadcast.
    destruct (Nat.eqb_spec (length y_true) (length y_pred)) as [E|_];
      [contradiction|].
    destruct y_true as [|x [|x' a']]; destruct y_pred as [|y [|y' b']];
      cbn in *; try reflexivity; congruence. }
  unfold Tools.rmse, Tools.mae, Tools.mape. rewrite Hb. now repeat split.
Qed.

(** A slice with a step keeps two lists row-for-row alike. *)
Lemma every_Forall2 {A B : Type} (R : A -> B -> Prop) (n : nat)
    (l : list A) (l' : list B) :
  Forall2 R l l' -> forall k, Forall2 R (every n k l) (every n k l').
Proof.
  induction 1 as [|x y l l' Hxy _ IH]; intros k; cbn; [constructor|].
  destruct k; [constructor; auto | apply IH].
Qed.

Lemma concat_length_Forall2 {A : Type} (l l' : list (list A)) :
  Forall2 (fun a b => length a = length b) l l' ->
  length (concat l) = length (concat l').
Proof.
  induction 1 as [|x y l l' Hxy _ IH]; cbn; [reflexivity|].
  now rewrite !length_app, Hxy, IH.
Qed.

Lemma foodwise_loop_ravel {A : Type} (ravel : list A -> list Q)
    (y_true y_pred : list A) (n : nat) :
  (1 <= n)%nat ->
  (forall i, length (ravel (every n i y_true))
             = length (ravel (every n i y_pred))) ->
  forall todo rl ml,
    Tools.foodwise_loop sqrtQ ravel y_true y_pred n todo rl ml =
    Ok (rl ++ map (fun i => rmse_value sqrtQ (ravel (every n i y_true))
                              (ravel (every n i y_pred))) todo,
        ml ++ map (fun i => mae_value (ravel (every n i y_true))
                              (ravel (every n i y_pred))) todo).
Proof.
  intros Hn Hlen. induction todo as [|i rest IH]; intros rl ml; simpl.
  - now rewrite !app_nil_r.
  - rewrite !(py_slice_ok _ _ _ Hn). simpl.
    rewrite rmse_same_length, mae_same_length by apply Hlen.
    simpl. rewrite IH, <- !app_assoc. reflexivity.
Qed.

(** X6.  [calculate_foodwise_errors] as [test] calls it, on two lists of
    as many rows, every row of one length [m] (the rows of a
    two-dimensional array): it returns two lists with one entry per food,
    and entry [i] is the rmse, respectively the mae, over all the values
    of the rows [i], [i + n], [i + 2n], ... of the two lists. *)
Theorem calculate_foodwise_errors_on_rows
    (n m : nat) (y_true y_pred : list (list Q)) :
  (1 <= n)%nat ->
  length y_true = length y_pred ->
  Forall (fun row => length row = m) y_true ->
  Forall (fun row => length row = m) y_pred ->
  exists rmse_list mse_list,
    Tools.calculate_foodwise_errors sqrtQ (@concat Q) y_true y_pred n
      = Ok (rmse_list, mse_list)
    /\ length rmse_list = n
    /\ length mse_list = n
    /\ forall i, (i < n)%nat ->
         exists r e,
           nth_error rmse_list i = Some r
           /\ nth_error mse_list i = Some e
           /\ Tools.rmse sqrtQ (concat (every n i y_true))
                (concat (every n i y_pred)) = Ok r
           /\ Tools.mae (concat (every n i y_true))
                (concat (every n i y_pred)) = Ok e
           /\ (forall j, nth_error (every n i y_true) j
                         = nth_error y_true (i + j * n))
           /\ (forall j, nth_error (every n i y_pred) j
                         = nth_error y_pred (i + j * n)).
Proof.
  intros Hn Hcount Ht Hp.
  assert (Hrows : Forall2 (fun a b => length a = length b) y_true y_pred).
  { clear Hn. revert y_pred Hcount Hp.
    induction Ht as [|a t Ha _ IH]; intros [|b p] Hcount Hp;
      try discriminate; constructor.
    - inversion Hp; subst. congruence.
    - inversion Hp; subst. apply IH; [now injection Hcount | assumption]. }
  assert (Hlen : forall i, length (concat (every n i y_true))
                           = length (concat (every n i y_pred))).
  { intros i. apply concat_length_Forall2. now apply every_Forall2. }
  unfold Tools.calculate_foodwise_errors.
  rewrite (foodwise_loop_ravel (@concat Q) _ _ _ Hn Hlen). simpl app.
  eexists _, _. split; [reflexivity|].
  split; [now rewrite length_map, length_seq|].
  split; [now rewrite length_map, length_seq|].
  intros i Hi.
  exists (rmse_value sqrtQ (concat (every n i y_true))
            (concat (every n i y_pred))),
    (mae_value (concat (every n i y_true)) (concat (every n i y_pred))).
  rewrite !nth_error_map, !nth_error_seq.
  destruct (Nat.ltb_spec i n); [|lia]. cbn.
  repeat split.
  - apply rmse_same_length, Hlen.
  - apply mae_same_length, Hlen.
  - intros j. now apply every_nth_error.
  - intros j. now apply every_nth_error.
Qed.

Lemma every_beyond {A : Type} (n : nat) (l : list A) :
  forall k, (length l <= k)%nat -> every n k l = [].
Proof.
  induction l as [|x t IH]; intros k H; cbn in *; [reflexivity|].
  destruct k; [lia|]. apply IH. lia.
Qed.

(** X7.  A food with no observation, that is an index from the length of
    the sequences on, gets nan for both errors (the mean of no value); the
    function does not raise, and with no food at all it returns two empty
    lists whatever the sequences. *)
Theorem foods_without_observations_get_nan
    (n : nat) (y_true y_pred : list Q) :
  length y_true = length y_pred ->
  exists rmse_list mse_list,
    Tools.calculate_foodwise_errors sqrtQ (fun l => l) y_true y_pred n
      = Ok (rmse_list, mse_list)
    /\ (forall i, (length y_true <= i < n)%nat ->
          nth_error rmse_list i = Some NaN /\ nth_error mse_list i = Some NaN)
    /\ (n = 0%nat -> rmse_list = [] /\ mse_list = []).
Proof.
  intros Hlen. destruct (Nat.eq_dec n 0) as [->|Hn0].
  - exists [], []. split; [reflexivity|]. split; [intros i Hi; lia|].
    now intros _.
  - unfold Tools.calculate_foodwise_errors.
    rewrite (foodwise_loop_flat sqrtQ _ _ n) by (lia || exact Hlen).
    cbn [app]. eexists _, _. split; [reflexivity|].
    split; [|intros; contradiction].
    intros i [Hlo Hhi].
    rewrite !nth_error_map, !nth_error_seq.
    destruct (Nat.ltb_spec i n); [|lia]. cbn [option_map Nat.add].
    rewrite !every_beyond by (rewrite <- ?Hlen; exact Hlo).
    split; reflexivity.
Qed.

(** X8.  Slicing with step [n] sends every position of a sequence to
    exactly one slice: position [p] is element [p / n] of the slice that
    starts at [p mod n], and of no other slice that starts below [n]. *)
Theorem slices_cover_each_position {A : Type} (n p : nat) (l : list A) :
  (1 <= n)%nat ->
  (p mod n < n)%nat
  /\ py_slice (p mod n) n l = Ok (every n (p mod n) l)
  /\ nth_error (every n (p mod n) l) (p / n) = nth_error l p
  /\ (forall i j, (i < n)%nat -> (i + j * n = p)%nat ->
        i = (p mod n)%nat /\ j = (p / n)%nat).
Proof.
  intros Hn. split; [apply Nat.mod_upper_bound; lia|].
  split; [now apply py_slice_ok|].
  split.
  - rewrite (every_nth_error n l Hn). f_equal.
    pose proof (Nat.div_mod_eq p n). lia.
  - intros i j Hi Hp. split.
    + apply (Nat.mod_unique p n j i); lia.
    + apply (Nat.div_unique p n j i); lia.
Qed.

End MoreMetricFacts.

(** ** Running the commands of the trainer *)

Import Trainer.

Section TrainerFacts.
Context {net FS RNG : Type}.
Variable env : oracles net FS RNG.
Variable cfg : config.

Abbreviation state := (trainer net FS RNG).

Lemma bind_ok {A B : Type} (m : M A) (k : A -> M B)
    (st st'' : state) (b : B) :
  bind m k st = (Ok b, st'') ->
  exists a st', m st = (Ok a, st') /\ k a st' = (Ok b, st'').
Proof.
  unfold bind. destruct (m st) as [[a|e] st']; intros H.
  - now exists a, st'.
  - discriminate H.
Qed.

Lemma bind_run {A B : Type} (m : M A) (k : A -> M B)
    (st st' : state) (a : A) :
  m st = (Ok a, st') -> bind m k st = k a st'.
Proof. intros H. unfold bind. now rewrite H. Qed.

Lemma bind_raise {A B : Type} (m : M A) (k : A -> M B)
    (st st' : state) (e : exn) :
  m st = (Raise e, st') -> bind m k st = (Raise e, st').
Proof. intros H. unfold bind. now rewrite H. Qed.

Lemma gets_ok {A : Type} (f : state -> A) (st st' : state) (a : A) :
  gets f st = (Ok a, st') -> a = f st /\ st' = st.
Proof. unfold gets. intros H. injection H as <- <-. now split. Qed.

Lemma modify_ok (f : state -> state) (st st' : state) (u : unit) :
  modify f st = (Ok u, st') -> st' = f st.
Proof. unfold modify. intros H. now injection H as _ <-. Qed.

Lemma lift_ok {A : Type} (r : result A) (st st' : state) (a : A) :
  lift r st = (Ok a, st') -> r = Ok a /\ st' = st.
Proof. unfold lift. intros H. injection H as -> <-. now split. Qed.

Lemma ret_ok {A : Type} (x a : A) (st st' : state) :
  ret x st = (Ok a, st') -> a = x /\ st' = st.
Proof. unfold ret. intros H. injection H as <- <-. now split. Qed.

Lemma fs_op_ok (f : FS -> result FS) (st st' : state) (u : unit) :
  fs_op f st = (Ok u, st') -> exists fs', f (fs st) = Ok fs' /\ st' = set_fs fs' st.
Proof.
  unfold fs_op. destruct (f (fs st)) as [fs'|e]; intros H.
  - injection H as _ <-. now exists fs'.
  - discriminate H.
Qed.

Lemma emit_ok (e : event) (st st' : state) (u : unit) :
  emit e st = (Ok u, st') -> st' = log_event e st.
Proof. apply modify_ok. Qed.

(** *** The writer *)

Lemma open_writer_cases (d : string) (st : state) :
  (exists e st',
      open_writer env d st = (Raise e, st')
      /\ trace st' = trace st
      /\ writer st' = writer st
      /\ time_stamp_model st' = time_stamp_model st
      /\ regression_model st' = regression_model st
      /\ learning_rate st' = learning_rate st)
  \/ (exists st',
      open_writer env d st = (Ok tt, st')
      /\ trace st' = trace st ++ [EvWriterOpen d]
      /\ writer st' = Some d
      /\ log_dir st' = log_dir st
      /\ time_stamp_model st' = time_stamp_model st
      /\ regression_model st' = regression_model st
      /\ learning_rate st' = learning_rate st).
Proof.
  unfold open_writer, bind, fs_op, modify, emit.
  destruct (summary_writer env (fs st) d) as [f|e].
  - right. eexists. repeat split.
  - left. exists e, st. repeat split.
Qed.

Lemma initiate_writer_cases (st : state) :
  (exists e st',
      initiate_writer env cfg st = (Raise e, st')
      /\ trace st' = trace st
      /\ writer st' = writer st
      /\ time_stamp_model st' = time_stamp_model st
      /\ regression_model st' = regression_model st
      /\ learning_rate st' = learning_rate st)
  \/ (exists d st',
      initiate_writer env cfg st = (Ok tt, st')
      /\ trace st' = trace st ++ [EvWriterOpen d]
      /\ writer st' = Some d
      /\ log_dir st' = Some d
      /\ time_stamp_model st' = time_stamp_model st
      /\ regression_model st' = regression_model st
      /\ learning_rate st' = learning_rate st).
Proof.
  unfold initiate_writer, open_writer, emit, bind, modify, gets, fs_op, ret.
  cbn -[path_join str_of_nat String.append].
  destruct (path_exists env (fs st) _); cbn -[path_join str_of_nat String.append].
  - destruct (listdir env (fs st) _) as [names|e];
      cbn -[path_join str_of_nat String.append].
    + destruct (summary_writer env (fs st) _) as [f|e];
        cbn -[path_join str_of_nat String.append].
      * right. eexists _, _. now repeat split.
      * left. eexists _, _. now repeat split.
    + left. eexists _, _. now repeat split.
  - destruct (makedirs env (fs st) _) as [f0|e];
      cbn -[path_join str_of_nat String.append].
    + destruct (summary_writer env f0 _) as [f|e];
        cbn -[path_join str_of_nat String.append].
      * right. eexists _, _. now repeat split.
      * left. eexists _, _. now repeat split.
    + left. eexists _, _. now repeat split.
Qed.

Lemma writer_close_open (d : string) (st : state) :
  writer st = Some d ->
  exists st',
    writer_close st = (Ok tt, st')
    /\ trace st' = trace st ++ [EvWriterClose d]
    /\ time_stamp_model st' = time_stamp_model st
    /\ regression_model st' = regression_model st
    /\ learning_rate st' = learning_rate st.
Proof.
  intros H. unfold writer_close, bind, gets. rewrite H.
  eexists. now repeat split.
Qed.

Lemma py_range_empty (a b : Z) : (b <= a)%Z -> py_range a b = [].
Proof.
  intros H. unfold py_range.
  replace (Z.to_nat (b - a)) with 0%nat by lia. reflexivity.
Qed.

(** C10.  With [epochs <= 1] the loop of [train] has no iteration: [train]
    is [initiate_writer] followed by closing the writer.  It leaves both
    models and the learning rate as they were, every event it adds to the
    trace is the opening or the closing of the writer (no optimizer step,
    no evaluation, no checkpoint), and when the writer can be created it
    returns normally having opened and closed it. *)
Theorem train_without_epochs (st : state) :
  (epochs cfg <= 1)%Z ->
  train env cfg st
    = bind (initiate_writer env cfg) (fun _ => writer_close) st
  /\ time_stamp_model (snd (train env cfg st)) = time_stamp_model st
  /\ regression_model (snd (train env cfg st)) = regression_model st
  /\ learning_rate (snd (train env cfg st)) = learning_rate st
  /\ (exists new,
        trace (snd (train env cfg st)) = trace st ++ new
        /\ forall ev, In ev new ->
             exists d, ev = EvWriterOpen d \/ ev = EvWriterClose d)
  /\ (forall st1,
        initiate_writer env cfg st = (Ok tt, st1) ->
        exists d st',
          train env cfg st = (Ok tt, st')
          /\ trace st' = trace st ++ [EvWriterOpen d; EvWriterClose d]).
Proof.
  intros He.
  assert (Htrain : train env cfg st
            = bind (initiate_writer env cfg) (fun _ => writer_close) st).
  { unfold train. rewrite (py_range_empty 1 (epochs cfg) He). reflexivity. }
  split; [exact Htrain|]. rewrite Htrain.
  destruct (initiate_writer_cases st)
    as [(e & st1 & Hr & Ht & Hw & H1 & H2 & H3)
       |(d & st1 & Hr & Ht & Hw & Hl & H1 & H2 & H3)].
  - rewrite (bind_raise _ _ _ _ _ Hr). cbn [snd].
    repeat split; try assumption.
    + exists []. rewrite app_nil_r. split; [assumption|]. intros ev [].
    + intros st2 Hok. rewrite Hr in Hok. discriminate Hok.
  - rewrite (bind_run _ _ _ _ _ Hr).
    destruct (writer_close_open d st1 Hw) as (st2 & Hc & Htc & C1 & C2 & C3).
    rewrite Hc. cbn [snd].
    assert (Hfull : trace st2 = trace st ++ [EvWriterOpen d; EvWriterClose d]).
    { rewrite Htc, Ht, <- app_assoc. reflexivity. }
    repeat split; try congruence.
    + exists [EvWriterOpen d; EvWriterClose d]. split; [exact Hfull|].
      intros ev [<-|[<-|[]]]; exists d; auto.
    + intros _ _. exists d, st2. now split.
Qed.

(** *** [load_model] *)

Lemma load_model_path_ok (path : string) (st st' : state) :
  load_model env cfg (Some path) st = (Ok tt, st') ->
  exists ts reg f v,
    torch_load env (fs st) (path_join path "time_stamp_model.pth") = Ok ts
    /\ torch_load env (fs st) (path_join path "regression_model.pth") = Ok reg
    /\ summary_writer env (fs st) path = Ok f
    /\ py_int env (last_field path) = Ok v
    /\ st' = set_run_version (Some v)
               (log_event (EvWriterOpen path)
                  (set_writer (Some path)
                     (set_fs f
                        (set_log_dir (Some path)
                           (set_regression_model reg
                              (set_time_stamp_model ts st)))))).
Proof.
  unfold load_model, open_writer, emit, bind, modify, fs_op, lift.
  cbn -[path_join].
  destruct (torch_load env (fs st) (path_join path "time_stamp_model.pth"))
    as [ts|]; [|discriminate].
  cbn -[path_join].
  destruct (torch_load env (fs st) (path_join path "regression_model.pth"))
    as [reg|]; [|discriminate].
  cbn -[path_join].
  destruct (summary_writer env (fs st) path) as [f|]; [|discriminate].
  cbn -[path_join].
  destruct (py_int env (last_field path)) as [v|]; [|discriminate].
  intros H. injection H as <-. now exists ts, reg, f, v.
Qed.

(** C2, the code at the input of the claim and at its sibling.  Without a
    path and without a writer [load_model] does not raise a [ValueError]
    of its own: it is [initiate_writer], which returns normally when the
    run directory can be created.  The [ValueError] is raised in the other
    case, without a path but with a writer.  With a path both models are
    the ones loaded and the writer is on that directory. *)
Theorem load_model_without_path (st : state) :
  (writer st = None ->
     load_model env cfg None st = initiate_writer env cfg st)
  /\ (forall d, writer st = Some d ->
        load_model env cfg None st
          = (Raise (ValueError "No model path provided"), st))
  /\ (forall path st', load_model env cfg (Some path) st = (Ok tt, st') ->
        torch_load env (fs st) (path_join path "time_stamp_model.pth")
          = Ok (time_stamp_model st')
        /\ torch_load env (fs st) (path_join path "regression_model.pth")
          = Ok (regression_model st')
        /\ writer st' = Some path
        /\ log_dir st' = Some path
        /\ trace st' = trace st ++ [EvWriterOpen path]).
Proof.
  split; [|split].
  - intros H. unfold load_model, bind, gets. now rewrite H.
  - intros d H. unfold load_model, bind, gets, raise. now rewrite H.
  - intros path st' H. apply load_model_path_ok in H.
    destruct H as (ts & reg & f & v & H1 & H2 & _ & _ & ->).
    now repeat split.
Qed.

(** *** [evaluate] and the [requires_grad] flags *)

Lemma set_flag_app (prefix t : list bool) (x v : bool) :
  set_flag (prefix ++ x :: t) (length prefix) v = prefix ++ v :: t.
Proof.
  induction prefix as [|y p IH]; simpl; [reflexivity | now rewrite IH].
Qed.

Lemma enable_disable_from (flags : list bool) :
  forall prefix,
    enable_all (prefix ++ fst (disable_from (length prefix) flags))
      (snd (disable_from (length prefix) flags))
    = prefix ++ flags.
Proof.
  induction flags as [|b t IH]; intros prefix; simpl.
  - reflexivity.
  - specialize (IH (prefix ++ [b])).
    rewrite length_app, Nat.add_1_r in IH.
    destruct (disable_from (S (length prefix)) t) as [t' ps].
    simpl in IH. rewrite <- !app_assoc in IH. simpl in IH.
    destruct b; simpl.
    + unfold enable_all in *. simpl. rewrite set_flag_app. exact IH.
    + exact IH.
Qed.

(** What [evaluate] switches off it switches on again, parameter by
    parameter, when nothing fails in between. *)
Lemma enable_disable (flags : list bool) :
  enable_all (fst (disable_from 0 flags)) (snd (disable_from 0 flags)) = flags.
Proof. exact (enable_disable_from flags []). Qed.

Lemma module_eta (m : module net) : mk_module (net_of m) (requires_grad m) = m.
Proof. now destruct m. Qed.

Lemma predict_state (data : tensor2) (st : state) :
  snd (predict env data st) = st.
Proof.
  unfold predict, bind, gets, lift. cbn.
  destruct (forward env (net_of (time_stamp_model st)) data); cbn;
    reflexivity.
Qed.

Lemma evaluate_step_ok (index : nat) (acc acc' : tensor2 * tensor2 * pyfloat)
    (st st' : state) :
  evaluate_step env cfg index acc st = (Ok acc', st') ->
  st' = st
  /\ exists label logits loss,
       py_index (test_labels cfg) index = Ok label
       /\ (exists data, py_index (test_data cfg) index = Ok data
             /\ fst (predict env data st) = Ok logits)
       /\ acc' = (fst (fst acc) ++ label, snd (fst acc) ++ logits,
                  fadd (snd acc) (fdiv loss (of_len (all_nodes cfg)))).
Proof.
  destruct acc as [[labels pred] total].
  unfold evaluate_step, disable_grads, enable_grads.
  unfold bind at 1. unfold lift at 1.
  destruct (py_index (test_data cfg) index) as [data|e]; [|discriminate].
  unfold bind at 1. unfold lift at 1.
  destruct (py_index (test_labels cfg) index) as [label|e]; [|discriminate].
  unfold bind at 1 2. unfold gets at 1.
  pose proof (enable_disable (requires_grad (time_stamp_model st))) as Ets.
  pose proof (enable_disable (requires_grad (regression_model st))) as Ereg.
  destruct (disable_from 0 (requires_grad (time_stamp_model st)))
    as [ts_flags ts_ps].
  unfold bind at 1 2. unfold modify at 1. unfold gets at 1.
  cbn [regression_model set_time_stamp_model].
  destruct (disable_from 0 (requires_grad (regression_model st)))
    as [reg_flags reg_ps].
  unfold bind at 1. unfold modify at 1. unfold ret at 1.
  unfold bind at 1.
  match goal with
  | |- context [predict env data ?s] =>
      pose proof (predict_state data s) as Hp;
      assert (Hsame : fst (predict env data s) = fst (predict env data st))
        by (unfold predict, bind, gets, lift; cbn;
            destruct (forward env (net_of (time_stamp_model st)) data);
            reflexivity);
      destruct (predict env data s) as [[logits|e] s1]
  end; [|discriminate].
  cbn [snd fst] in Hp, Hsame. subst s1.
  unfold bind at 1. unfold lift at 1.
  destruct (MSELoss env logits label) as [loss|e]; [|discriminate].
  unfold bind, gets, modify, ret. cbn -[enable_all].
  intros H. injection H as <- <-.
  cbn [fst snd] in Ets, Ereg. rewrite Ets, Ereg, !module_eta.
  split; [destruct st; reflexivity|].
  exists label, logits, loss. split; [reflexivity|].
  split; [|reflexivity].
  exists data. now split.
Qed.

Lemma evaluate_loop_ok (indices : list nat) :
  forall (acc acc' : tensor2 * tensor2 * pyfloat) (st st' : state),
    for_each indices (evaluate_step env cfg) acc st = (Ok acc', st') ->
    st' = st
    /\ exists blocks : list (tensor2 * tensor2),
         Forall2 (fun i b =>
                    py_index (test_labels cfg) i = Ok (fst b)
                    /\ exists data,
                         py_index (test_data cfg) i = Ok data
                         /\ fst (predict env data st) = Ok (snd b))
           indices blocks
         /\ fst (fst acc') = fst (fst acc) ++ concat (map fst blocks)
         /\ snd (fst acc') = snd (fst acc) ++ concat (map snd blocks).
Proof.
  induction indices as [|i rest IH]; intros acc acc' st st' H.
  - cbn in H. injection H as <- <-. split; [reflexivity|].
    exists []. cbn. rewrite !app_nil_r. repeat split. constructor.
  - cbn [for_each] in H. apply bind_ok in H.
    destruct H as (acc1 & st1 & Hstep & Hrest).
    apply evaluate_step_ok in Hstep.
    destruct Hstep as (-> & label & logits & loss & Hl & Hd & ->).
    apply IH in Hrest.
    destruct Hrest as (-> & blocks & Hall & Hlab & Hpred).
    split; [reflexivity|].
    exists ((label, logits) :: blocks). cbn [fst snd map concat] in *.
    repeat split.
    + constructor; [|exact Hall]. cbn. now split.
    + rewrite Hlab, <- app_assoc. reflexivity.
    + rewrite Hpred, <- app_assoc. reflexivity.
Qed.

Lemma evaluate_ok (r : tensor2 * tensor2 * pyfloat) (st st' : state) :
  evaluate env cfg st = (Ok r, st') ->
  time_stamp_model st' = time_stamp_model st
  /\ regression_model st' = regression_model st
  /\ learning_rate st' = learning_rate st
  /\ writer st' = writer st
  /\ log_dir st' = log_dir st
  /\ trace st' = trace st ++ [EvEvaluate]
  /\ exists blocks : list (tensor2 * tensor2),
       Forall2 (fun i b =>
                  py_index (test_labels cfg) i = Ok (fst b)
                  /\ exists data,
                       py_index (test_data cfg) i = Ok data
                       /\ fst (predict env data st) = Ok (snd b))
         (fst (randperm env (rng st) (length (test_data cfg)))) blocks
       /\ fst (fst r) = concat (map fst blocks)
       /\ snd (fst r) = concat (map snd blocks).
Proof.
  unfold evaluate. intros H.
  apply bind_ok in H. destruct H as (u & st1 & Hemit & H).
  apply emit_ok in Hemit. subst st1.
  apply bind_ok in H. destruct H as (indices & st2 & Hdraw & H).
  unfold draw_randperm in Hdraw. cbn [rng log_event] in Hdraw.
  destruct (randperm env (rng st) (length (test_data cfg))) as [ix r'].
  injection Hdraw as <- <-.
  apply bind_ok in H. destruct H as (acc & st3 & Hloop & H).
  apply evaluate_loop_ok in Hloop.
  destruct Hloop as (-> & blocks & Hall & Hlab & Hpred).
  destruct acc as [[labels pred] total].
  apply ret_ok in H. destruct H as [-> ->].
  cbn [fst snd] in *.
  repeat split.
  exists blocks. repeat split; try assumption.
  eapply Forall2_impl; [|exact Hall].
  intros i b (Hl & data & Hd & Hp). split; [exact Hl|].
  exists data. split; [exact Hd|].
  rewrite <- Hp. unfold predict, bind, gets, lift. cbn.
  destruct (forward env (net_of (time_stamp_model st)) data); reflexivity.
Qed.

(** C9, amended.  When [evaluate] returns, both models are what they were
    (so is the [requires_grad] flag of every parameter), and the only mark
    it leaves is the evaluation in the trace. *)
Theorem evaluate_restores_requires_grad
    (r : tensor2 * tensor2 * pyfloat) (st st' : state) :
  evaluate env cfg st = (Ok r, st') ->
  requires_grad (time_stamp_model st') = requires_grad (time_stamp_model st)
  /\ requires_grad (regression_model st')
     = requires_grad (regression_model st)
  /\ time_stamp_model st' = time_stamp_model st
  /\ regression_model st' = regression_model st
  /\ trace st' = trace st ++ [EvEvaluate].
Proof.
  intros H. apply evaluate_ok in H.
  destruct H as (H1 & H2 & _ & _ & _ & H6 & _). now rewrite H1, H2.
Qed.

(** *** De-interleaving *)

Lemma every_app_skip {A : Type} (n : nat) (b : list A) :
  forall k rest,
    (length b <= k)%nat ->
    every n k (b ++ rest) = every n (k - length b) rest.
Proof.
  induction b as [|x b IH]; intros k rest H; simpl in *.
  - now rewrite Nat.sub_0_r.
  - destruct k as [|k]; [lia|]. simpl. apply IH. lia.
Qed.

Lemma every_app_take {A : Type} (n : nat) (d : A) (b : list A) :
  forall k rest,
    (k < length b)%nat -> (length b <= k + n)%nat ->
    every n k (b ++ rest) = nth k b d :: every n (k + n - length b) rest.
Proof.
  induction b as [|x b IH]; intros k rest H1 H2; simpl in *; [lia|].
  destruct k as [|k]; simpl.
  - rewrite every_app_skip by lia. do 2 f_equal. lia.
  - rewrite IH by lia. do 2 f_equal.
Qed.

(** Taking every [n]-th row from position [i] of a sequence of blocks of
    [n] rows gives row [i] of each block, in the order of the blocks:
    slicing with a step undoes the interleaving. *)
Lemma every_concat_blocks {A : Type} (n i : nat) (d : A)
    (blocks : list (list A)) :
  Forall (fun b => length b = n) blocks ->
  (i < n)%nat ->
  every n i (concat blocks) = map (fun b => nth i b d) blocks.
Proof.
  intros Hall Hi. induction Hall as [|b rest Hb _ IH]; simpl.
  - reflexivity.
  - rewrite (every_app_take n d) by lia.
    rewrite Hb. replace (i + n - n)%nat with i by lia. now rewrite IH.
Qed.

(** *** Batches of nodes *)

Lemma seq_shift_map {B : Type} (f : nat -> B) (k : nat) :
  map f (seq 1 k) = map (fun b => f (S b)) (seq 0 k).
Proof. now rewrite <- seq_shift, map_map. Qed.

Lemma batches_concat (bs : nat) :
  forall k (l : list nat),
    (length l <= k * bs)%nat ->
    concat (map (nodes_in_batch bs l) (seq 0 k)) = l.
Proof.
  induction k as [|k IH]; intros l H.
  - destruct l; [reflexivity | cbn in H; lia].
  - cbn [seq map concat]. rewrite seq_shift_map.
    assert (E : map (fun b => nodes_in_batch bs l (S b)) (seq 0 k)
                = map (nodes_in_batch bs (skipn bs l)) (seq 0 k)).
    { apply map_ext. intros b. unfold nodes_in_batch.
      rewrite skipn_skipn. f_equal. f_equal. lia. }
    rewrite E, IH.
    + unfold nodes_in_batch. cbn [Nat.mul skipn]. apply firstn_skipn.
    + rewrite length_skipn. cbn in H. lia.
Qed.

Lemma ceil_div_bounds (n d k : nat) :
  ceil_div n d = Ok k ->
  (1 <= d)%nat /\ (n <= k * d)%nat /\ (k * d < n + d)%nat.
Proof.
  unfold ceil_div. destruct d as [|d']; [discriminate|].
  intros H. injection H as <-.
  change (fst (Nat.divmod (n + S d' - 1) d' 0 d'))
    with ((n + S d' - 1) / S d')%nat.
  pose proof (Nat.div_mod_eq (n + S d' - 1) (S d')) as E.
  assert (U : ((n + S d' - 1) mod S d' < S d')%nat)
    by (apply Nat.mod_upper_bound; lia).
  rewrite (Nat.mul_comm (S d')) in E.
  set (q := ((n + S d' - 1) / S d')%nat) in *.
  set (r := ((n + S d' - 1) mod S d')%nat) in *.
  set (m := (q * S d')%nat) in *.
  split; [lia|]. split; lia.
Qed.

(** X9.  The batches of nodes of a timestamp: with a positive batch size
    they are [ceil(n / batch_size)] slices of the node list that, laid end
    to end, give the node list back (every node once, in order), none is
    empty and none is longer than the batch size; with batch size 0 the
    count of batches raises [ZeroDivisionError]. *)
Theorem node_batches_partition (batch_size : nat) (nodes : list nat) :
  (batch_size = 0%nat ->
     exists msg, ceil_div (length nodes) batch_size
                 = Raise (ZeroDivisionError msg))
  /\ (forall k,
        ceil_div (length nodes) batch_size = Ok k ->
        concat (map (nodes_in_batch batch_size nodes) (seq 0 k)) = nodes
        /\ forall batch, (batch < k)%nat ->
             nodes_in_batch batch_size nodes batch <> []
             /\ (length (nodes_in_batch batch_size nodes batch)
                 <= batch_size)%nat).
Proof.
  split.
  - intros ->. eexists. reflexivity.
  - intros k Hk. destruct (ceil_div_bounds _ _ _ Hk) as (Hd & Hlo & Hhi).
    split; [now apply batches_concat|].
    intros batch Hb. unfold nodes_in_batch. split.
    + intros E. apply (f_equal (@length nat)) in E.
      rewrite length_firstn, length_skipn in E. cbn in E. nia.
    + rewrite length_firstn. lia.
Qed.

(** *** The schedule of the learning rate *)

Lemma py_range_snoc (a b : Z) :
  (a <= b)%Z -> py_range a (b + 1) = py_range a b ++ [b].
Proof.
  intros H. unfold py_range.
  replace (Z.to_nat (b + 1 - a)) with (S (Z.to_nat (b - a))) by lia.
  rewrite seq_S, map_app. cbn. do 2 f_equal. lia.
Qed.

Lemma learning_rate_after_step (lr0 : Q) (e : Z) :
  (1 <= e)%Z ->
  learning_rate_after lr0 e
  = next_learning_rate e (learning_rate_after lr0 (e - 1)).
Proof.
  intros H. unfold learning_rate_after.
  rewrite (py_range_snoc 1 e H), fold_left_app. cbn.
  now replace (e - 1 + 1)%Z with e by lia.
Qed.

(** X10.  After any epoch the learning rate does not depend on the rate
    the trainer was constructed with: it is 0.00005 after the epochs 8, 16
    and 24 and 0.0001 after every other epoch. *)
Theorem learning_rate_after_forgets_initial (lr0 : Q) (e : Z) :
  (1 <= e)%Z ->
  learning_rate_after lr0 e
  = if ((e =? 8) || (e =? 16) || (e =? 24))%Z then 1 # 20000 else 1 # 10000.
Proof.
  intros He. rewrite (learning_rate_after_step lr0 e He).
  unfold next_learning_rate at 1.
  destruct (Z.leb_spec e 24) as [Hle|Hgt]; cbn [andb].
  - destruct (Z.eqb_spec (e mod 8) 0) as [Hm|Hm].
    + assert (Hcases : e = 8%Z \/ e = 16%Z \/ e = 24%Z).
      { pose proof (Z.div_mod e 8). lia. }
      rewrite (learning_rate_after_step lr0 (e - 1)) by lia.
      destruct Hcases as [->|[->| ->]]; reflexivity.
    + destruct (Z.eqb_spec e 8) as [->|_]; [now contradiction Hm|].
      destruct (Z.eqb_spec e 16) as [->|_]; [now contradiction Hm|].
      destruct (Z.eqb_spec e 24) as [->|_]; [now contradiction Hm|].
      reflexivity.
  - destruct (Z.eqb_spec e 8); [lia|]. destruct (Z.eqb_spec e 16); [lia|].
    destruct (Z.eqb_spec e 24); [lia|]. reflexivity.
Qed.

(** *** The names of the dishes *)

Lemma dish_name_of_ok (d : list (string * nat)) (dish_id : nat) :
  (forall name, dish_name_of d dish_id = Ok name -> In (name, dish_id) d)
  /\ (In dish_id (map snd d) -> exists name, dish_name_of d dish_id = Ok name)
  /\ (~ In dish_id (map snd d) ->
      dish_name_of d dish_id = Raise (ValueError "is not in list")).
Proof.
  induction d as [|[n v] rest (IH1 & IH2 & IH3)]; cbn.
  - repeat split; [discriminate | contradiction].
  - destruct (Nat.eqb_spec v dish_id) as [->|Hne]; repeat split.
    + intros name H. injection H as <-. now left.
    + intros _. now exists n.
    + intros H. exfalso. apply H. now left.
    + intros name H. right. now apply IH1.
    + intros [H|H]; [contradiction | now apply IH2].
    + intros H. apply IH3. intros Hin. apply H. now right.
Qed.

(** X11.  Resolving the node ids to dish names: it succeeds exactly when
    every id is a value of the dictionary, it then gives one name per id,
    in order, each a key of the dictionary with that id as value; an id
    that is missing makes it raise [ValueError]. *)
Theorem dish_names_lookup (d : list (string * nat)) (ids : list nat) :
  ((exists names, dish_names d ids = Ok names)
   <-> Forall (fun i => In i (map snd d)) ids)
  /\ (forall names, dish_names d ids = Ok names ->
        Forall2 (fun i name => In (name, i) d) ids names)
  /\ ((exists i, In i ids /\ ~ In i (map snd d)) ->
      dish_names d ids = Raise (ValueError "is not in list")).
Proof.
  induction ids as [|i rest (IH1 & IH2 & IH3)]; cbn.
  - repeat split.
    + intros _. constructor.
    + intros _. now exists [].
    + intros names H. injection H as <-. constructor.
    + intros (i & [] & _).
  - destruct (dish_name_of_ok d i) as (D1 & D2 & D3).
    destruct (dish_name_of d i) as [name|e] eqn:Hn; cbn [rbind].
    + assert (Hin : In i (map snd d)).
      { apply in_map_iff. exists (name, i). split; [reflexivity|].
        now apply D1. }
      destruct (dish_names d rest) as [names|e] eqn:Hr; cbn [rbind].
      * repeat split.
        -- intros _. constructor; [exact Hin|]. apply IH1. now exists names.
        -- intros _. now exists (name :: names).
        -- intros names' H. injection H as <-.
           constructor; [now apply D1 | now apply IH2].
        -- intros (j & [<-|Hj] & Hnot); [contradiction|].
           assert (Hr' : Ok names = Raise (ValueError "is not in list"))
             by (apply IH3; now exists j).
           discriminate Hr'.
      * repeat split.
        -- intros (names & H). discriminate H.
        -- intros H. inversion H as [|? ? _ Hrest]; subst.
           apply IH1 in Hrest. destruct Hrest as (names & Hbad).
           discriminate Hbad.
        -- intros names H. discriminate H.
        -- intros (j & [<-|Hj] & Hnot); [contradiction|].
           apply IH3. now exists j.
    + assert (Hnot : ~ In i (map snd d)).
      { intros Hin. destruct (D2 Hin) as (name & H). discriminate H. }
      pose proof (D3 Hnot) as He. injection He as ->.
      repeat split.
      * intros (names & H). discriminate H.
      * intros H. inversion H; subst. contradiction.
      * intros names H. discriminate H.
Qed.

(** *** One timestamp, one epoch *)

Lemma for_each_state {A S : Type} (body : A -> S -> M S) (l : list A) :
  (forall x s (st : state), snd (body x s st) = st) ->
  forall s (st : state), snd (for_each l body s st) = st.
Proof.
  intros Hbody. induction l as [|x rest IH]; intros s st; cbn.
  - reflexivity.
  - unfold bind. specialize (Hbody x s st).
    destruct (body x s st) as [[s'|e] st1]; cbn in *; subst st1.
    + apply IH.
    + reflexivity.
Qed.

Lemma node_batch_step_state (data labels : tensor2) (batch : nat)
    (loss : pyfloat) (st : state) :
  snd (node_batch_step env cfg data labels batch loss st) = st.
Proof.
  unfold node_batch_step, bind, lift, ret.
  destruct (gather labels _); [|reflexivity].
  pose proof (predict_state data st) as Hp.
  destruct (predict env data st) as [[logits|e] st1]; cbn in Hp; subst st1;
    [|reflexivity].
  destruct (MSELoss env logits _); reflexivity.
Qed.

Lemma add_scalar_ok (tag : string) (v : pyfloat) (epoch : Z)
    (st st' : state) (u : unit) :
  add_scalar tag v epoch st = (Ok u, st') ->
  st' = log_event (EvScalar tag v epoch) st.
Proof.
  unfold add_scalar, bind, gets, raise.
  destruct (writer st); [|discriminate]. apply emit_ok.
Qed.

Lemma timestamp_step_ok (epoch : Z) (index : nat) (tl tl' : pyfloat)
    (st st' : state) :
  timestamp_step env cfg epoch index tl st = (Ok tl', st') ->
  exists loss,
    tl' = fadd tl loss
    /\ trace st' = trace st ++ [EvStep epoch index (learning_rate st) loss]
    /\ learning_rate st' = learning_rate st
    /\ writer st' = writer st
    /\ log_dir st' = log_dir st
    /\ rng st' = rng st
    /\ requires_grad (time_stamp_model st')
       = requires_grad (time_stamp_model st)
    /\ requires_grad (regression_model st')
       = requires_grad (regression_model st)
    /\ fs st' = fs st.
Proof.
  unfold timestamp_step. intros H.
  apply bind_ok in H. destruct H as (data & s1 & H1 & H).
  apply lift_ok in H1. destruct H1 as [_ ->].
  apply bind_ok in H. destruct H as (labels & s1 & H1 & H).
  apply lift_ok in H1. destruct H1 as [_ ->].
  apply bind_ok in H. destruct H as (lr & s1 & H1 & H).
  apply gets_ok in H1. destruct H1 as [-> ->].
  apply bind_ok in H. destruct H as (nb & s1 & H1 & H).
  apply lift_ok in H1. destruct H1 as [_ ->].
  apply bind_ok in H. destruct H as (loss & s1 & H1 & H).
  assert (Hs : s1 = st).
  { pose proof (for_each_state (node_batch_step env cfg data labels)
                  (seq 0 nb) (node_batch_step_state data labels)
                  (Fin 0) st) as Hfe.
    rewrite H1 in Hfe. exact Hfe. }
  subst s1. clear H1.
  apply bind_ok in H. destruct H as (ts & s1 & H1 & H).
  apply gets_ok in H1. destruct H1 as [-> ->].
  apply bind_ok in H. destruct H as (reg & s1 & H1 & H).
  apply gets_ok in H1. destruct H1 as [-> ->].
  apply bind_ok in H. destruct H as (nets & s1 & H1 & H).
  apply lift_ok in H1. destruct H1 as [_ ->].
  apply bind_ok in H. destruct H as (u1 & s1 & H1 & H).
  apply modify_ok in H1. subst s1.
  apply bind_ok in H. destruct H as (u2 & s1 & H1 & H).
  apply modify_ok in H1. subst s1.
  apply bind_ok in H. destruct H as (u3 & s1 & H1 & H).
  apply emit_ok in H1. subst s1.
  apply ret_ok in H. destruct H as [-> ->].
  exists loss. now repeat split.
Qed.

(** The events of the optimizer steps of one epoch. *)
Lemma timestamp_loop_ok (epoch : Z) (indices : list nat) :
  forall (tl tl' : pyfloat) (st st' : state),
    for_each indices (timestamp_step env cfg epoch) tl st = (Ok tl', st') ->
    exists losses,
      length losses = length indices
      /\ tl' = fold_left fadd losses tl
      /\ trace st'
         = trace st
           ++ map (fun p => EvStep epoch (fst p) (learning_rate st) (snd p))
                (combine indices losses)
      /\ learning_rate st' = learning_rate st
      /\ writer st' = writer st
      /\ log_dir st' = log_dir st
      /\ rng st' = rng st
      /\ requires_grad (time_stamp_model st')
         = requires_grad (time_stamp_model st)
      /\ requires_grad (regression_model st')
         = requires_grad (regression_model st)
      /\ fs st' = fs st.
Proof.
  induction indices as [|i rest IH]; intros tl tl' st st' H.
  - cbn in H. injection H as <- <-. exists [].
    cbn. rewrite app_nil_r. now repeat split.
  - cbn [for_each] in H. apply bind_ok in H.
    destruct H as (tl1 & st1 & Hstep & Hrest).
    apply timestamp_step_ok in Hstep.
    destruct Hstep as (loss & -> & Ht & Hlr & Hw & Hl & Hr & G1 & G2 & F).
    apply IH in Hrest.
    destruct Hrest
      as (losses & Hlen & -> & Ht' & Hlr' & Hw' & Hl' & Hr' & G1' & G2' & F').
    exists (loss :: losses). cbn [length combine map fold_left fst snd].
    repeat split; try congruence.
    rewrite Ht', Ht, Hlr, <- app_assoc. reflexivity.
Qed.

Lemma save_model_ok (st st' : state) (u : unit) :
  save_model env st = (Ok u, st') ->
  exists p1 p2,
    trace st' = trace st ++ [EvSave p1; EvSave p2]
    /\ learning_rate st' = learning_rate st
    /\ writer st' = writer st
    /\ log_dir st' = log_dir st
    /\ rng st' = rng st
    /\ time_stamp_model st' = time_stamp_model st
    /\ regression_model st' = regression_model st.
Proof.
  unfold save_model. intros H.
  apply bind_ok in H. destruct H as (d & s1 & H1 & H).
  apply gets_ok in H1. destruct H1 as [-> ->].
  destruct (log_dir st) as [d|] eqn:Hd; [|discriminate].
  apply bind_ok in H. destruct H as (ts & s1 & H1 & H).
  apply gets_ok in H1. destruct H1 as [-> ->].
  apply bind_ok in H. destruct H as (u1 & s1 & H1 & H).
  apply fs_op_ok in H1. destruct H1 as (f1 & _ & ->).
  apply bind_ok in H. destruct H as (u2 & s1 & H1 & H).
  apply emit_ok in H1. subst s1.
  apply bind_ok in H. destruct H as (reg & s1 & H1 & H).
  apply gets_ok in H1. destruct H1 as [-> ->].
  apply bind_ok in H. destruct H as (u3 & s1 & H1 & H).
  apply fs_op_ok in H1. destruct H1 as (f2 & _ & ->).
  apply emit_ok in H. subst st'.
  eexists _, _. cbn -[path_join]. rewrite <- app_assoc.
  now repeat split.
Qed.

Lemma of_len_length {A B : Type} (l : list A) (l' : list B) :
  length l = length l' -> of_len l = of_len l'.
Proof. unfold of_len. now intros ->. Qed.

Lemma save_model_paths (st st' : state) (u : unit) :
  save_model env st = (Ok u, st') ->
  exists d,
    log_dir st = Some d
    /\ trace st'
       = trace st ++ [EvSave (path_join d "time_stamp_model.pth");
                      EvSave (path_join d "regression_model.pth")].
Proof.
  unfold save_model. intros H.
  apply bind_ok in H. destruct H as (d & s1 & H1 & H).
  apply gets_ok in H1. destruct H1 as [-> ->].
  destruct (log_dir st) as [d|] eqn:Hd; [|discriminate].
  apply bind_ok in H. destruct H as (ts & s1 & H1 & H).
  apply gets_ok in H1. destruct H1 as [-> ->].
  apply bind_ok in H. destruct H as (u1 & s1 & H1 & H).
  apply fs_op_ok in H1. destruct H1 as (f1 & _ & ->).
  apply bind_ok in H. destruct H as (u2 & s1 & H1 & H).
  apply emit_ok in H1. subst s1.
  apply bind_ok in H. destruct H as (reg & s1 & H1 & H).
  apply gets_ok in H1. destruct H1 as [-> ->].
  apply bind_ok in H. destruct H as (u3 & s1 & H1 & H).
  apply fs_op_ok in H1. destruct H1 as (f2 & _ & ->).
  apply emit_ok in H. subst st'.
  exists d. split; [reflexivity|].
  cbn -[path_join]. now rewrite <- app_assoc.
Qed.

(** With no test timestamp, an evaluation that returns has visited
    nothing: no label, no prediction, and the mean of no loss. *)
Lemma evaluate_empty (r : tensor2 * tensor2 * pyfloat) (st st' : state) :
  test_data cfg = [] ->
  evaluate env cfg st = (Ok r, st') ->
  r = ([], [], NaN).
Proof.
  intros Hempty H. unfold evaluate in H.
  apply bind_ok in H. destruct H as (u & s1 & _ & H).
  apply bind_ok in H. destruct H as (indices & s2 & _ & H).
  apply bind_ok in H. destruct H as (acc & s3 & Hloop & H).
  destruct indices as [|i rest].
  - cbn in Hloop. injection Hloop as <- <-.
    apply ret_ok in H. destruct H as [-> _]. reflexivity.
  - exfalso. cbn [for_each] in Hloop.
    apply bind_ok in Hloop. destruct Hloop as (acc1 & s4 & Hstep & _).
    unfold evaluate_step in Hstep.
    apply bind_ok in Hstep. destruct Hstep as (data & s5 & Hd & _).
    apply lift_ok in Hd. destruct Hd as [Hd _].
    rewrite Hempty in Hd. unfold py_index in Hd.
    destruct i; discriminate Hd.
Qed.

(** What [save_model] does to the file system: the first model goes to
    the first file, the second model to the second file. *)
Lemma save_model_fs (st st' : state) (u : unit) :
  save_model env st = (Ok u, st') ->
  exists d f1,
    log_dir st = Some d
    /\ torch_save env (fs st) (time_stamp_model st)
         (path_join d "time_stamp_model.pth") = Ok f1
    /\ torch_save env f1 (regression_model st)
         (path_join d "regression_model.pth") = Ok (fs st').
Proof.
  unfold save_model. intros H.
  apply bind_ok in H. destruct H as (d & s1 & H1 & H).
  apply gets_ok in H1. destruct H1 as [-> ->].
  destruct (log_dir st) as [d|] eqn:Hd; [|discriminate].
  apply bind_ok in H. destruct H as (ts & s1 & H1 & H).
  apply gets_ok in H1. destruct H1 as [-> ->].
  apply bind_ok in H. destruct H as (u1 & s1 & H1 & H).
  apply fs_op_ok in H1. destruct H1 as (f1 & Hf1 & ->).
  apply bind_ok in H. destruct H as (u2 & s1 & H1 & H).
  apply emit_ok in H1. subst s1.
  apply bind_ok in H. destruct H as (reg & s1 & H1 & H).
  apply gets_ok in H1. destruct H1 as [-> ->].
  apply bind_ok in H. destruct H as (u3 & s1 & H1 & H).
  apply fs_op_ok in H1. destruct H1 as (f2 & Hf2 & ->).
  apply emit_ok in H. subst st'.
  cbn -[path_join] in Hf1, Hf2 |- *.
  exists d, f1. now repeat split.
Qed.

(** [evaluate] does not touch the file system. *)
Lemma evaluate_fs (r : tensor2 * tensor2 * pyfloat) (st st' : state) :
  evaluate env cfg st = (Ok r, st') -> fs st' = fs st.
Proof.
  unfold evaluate. intros H.
  apply bind_ok in H. destruct H as (u & st1 & Hemit & H).
  apply emit_ok in Hemit. subst st1.
  apply bind_ok in H. destruct H as (indices & st2 & Hdraw & H).
  unfold draw_randperm in Hdraw. cbn [rng log_event] in Hdraw.
  destruct (randperm env (rng st) (length (test_data cfg))) as [ix r'].
  injection Hdraw as <- <-.
  apply bind_ok in H. destruct H as (acc & st3 & Hloop & H).
  apply evaluate_loop_ok in Hloop. destruct Hloop as (-> & _).
  destruct acc as [[labels pred] total].
  apply ret_ok in H. destruct H as [_ ->]. reflexivity.
Qed.

(** One epoch that ends normally: its events, the variables it assigns,
    and the learning rate it leaves. *)
Lemma epoch_step_ok (epoch : Z) (v v' : locals) (st st' : state) :
  epoch_step env cfg epoch v st = (Ok v', st') ->
  exists losses ev rm ma mp saves,
    length losses
      = length (fst (randperm env (rng st) (length (train_data cfg))))
    /\ train_loss v'
       = fdiv (fold_left fadd losses (train_loss v)) (of_len losses)
    /\ best_test v' = improve (best_test v) ev
    /\ ((flt ev (best_test v) = true
         /\ exists p1 p2, saves = [EvSave p1; EvSave p2])
        \/ (flt ev (best_test v) = false /\ saves = []))
    /\ trace st'
       = trace st
         ++ epoch_events epoch (learning_rate st)
              (fst (randperm env (rng st) (length (train_data cfg))))
              losses (train_loss v') ev rm ma mp saves
              (min_rmse v') (min_mae v') (min_mape v')
    /\ learning_rate st' = next_learning_rate epoch (learning_rate st)
    /\ writer st' = writer st
    /\ requires_grad (time_stamp_model st')
       = requires_grad (time_stamp_model st)
    /\ requires_grad (regression_model st')
       = requires_grad (regression_model st)
    /\ log_dir st' = log_dir st
    /\ min_rmse v' = py_min (min_rmse v) rm
    /\ min_mae v' = py_min (min_mae v) ma
    /\ min_mape v' = py_min (min_mape v) mp
    /\ (forall p, In (EvSave p) saves ->
          exists d,
            log_dir st = Some d
            /\ (p = path_join d "time_stamp_model.pth"
                \/ p = path_join d "regression_model.pth"))
    /\ (test_data cfg = [] -> ev = NaN)
    /\ ((flt ev (best_test v) = true
         /\ exists d f1,
              log_dir st = Some d
              /\ torch_save env (fs st) (time_stamp_model st')
                   (path_join d "time_stamp_model.pth") = Ok f1
              /\ torch_save env f1 (regression_model st')
                   (path_join d "regression_model.pth") = Ok (fs st'))
        \/ (flt ev (best_test v) = false /\ fs st' = fs st)).
Proof.
  unfold epoch_step. intros H.
  apply bind_ok in H. destruct H as (indices & s1 & H1 & H).
  unfold draw_randperm in H1.
  destruct (randperm env (rng st) (length (train_data cfg))) as [ix r'].
  injection H1 as <- <-. cbn [fst].
  apply bind_ok in H. destruct H as (tl & s1 & H1 & H).
  apply timestamp_loop_ok in H1.
  destruct H1
    as (losses & Hlen & -> & Ht1 & Hlr1 & Hw1 & Hl1 & Hr1 & G1 & G2 & F1).
  cbn [trace learning_rate writer log_dir time_stamp_model regression_model
       set_rng fs] in Ht1, Hlr1, Hw1, Hl1, G1, G2, F1.
  apply bind_ok in H. destruct H as (lr & s2 & H1 & H).
  apply gets_ok in H1. destruct H1 as [-> ->].
  apply bind_ok in H. destruct H as (u1 & s2 & H1 & H).
  apply modify_ok in H1. subst s2.
  apply bind_ok in H. destruct H as (u2 & s2 & H1 & H).
  apply add_scalar_ok in H1. subst s2.
  apply bind_ok in H. destruct H as ([[labels pred] ev] & s2 & H1 & H).
  assert (Hnan : test_data cfg = [] -> ev = NaN).
  { intros Hempty. pose proof (evaluate_empty _ _ _ Hempty H1) as Hr.
    now injection Hr as _ _ ->. }
  pose proof (evaluate_fs _ _ _ H1) as F2.
  apply evaluate_ok in H1.
  destruct H1 as (E1 & E2 & E3 & E4 & E5 & E6 & _).
  cbn [trace learning_rate writer log_dir time_stamp_model regression_model
       log_event set_learning_rate fs] in E1, E2, E3, E4, E5, E6, F2.
  apply bind_ok in H. destruct H as (rm & s3 & H1 & H).
  apply lift_ok in H1. destruct H1 as [_ ->].
  apply bind_ok in H. destruct H as (ma & s3 & H1 & H).
  apply lift_ok in H1. destruct H1 as [_ ->].
  apply bind_ok in H. destruct H as (mp & s3 & H1 & H).
  apply lift_ok in H1. destruct H1 as [_ ->].
  apply bind_ok in H. destruct H as (u3 & s3 & H1 & H).
  apply add_scalar_ok in H1. subst s3.
  apply bind_ok in H. destruct H as (u4 & s3 & H1 & H).
  apply add_scalar_ok in H1. subst s3.
  apply bind_ok in H. destruct H as (u5 & s3 & H1 & H).
  apply add_scalar_ok in H1. subst s3.
  apply bind_ok in H. destruct H as (u6 & s3 & H1 & H).
  apply add_scalar_ok in H1. subst s3.
  apply bind_ok in H. destruct H as (best & s3 & H1 & H).
  assert (Hsave :
    best = improve (best_test v) ev
    /\ exists saves,
         ((flt ev (best_test v) = true
           /\ exists p1 p2, saves = [EvSave p1; EvSave p2])
          \/ (flt ev (best_test v) = false /\ saves = []))
         /\ trace s3
            = trace s2
              ++ [EvScalar "Loss/validation" ev epoch;
                  EvScalar "RMSE/validation" rm epoch;
                  EvScalar "MAE/validation" ma epoch;
                  EvScalar "MAPE/validation" mp epoch]
              ++ saves
         /\ learning_rate s3 = learning_rate s2
         /\ writer s3 = writer s2
         /\ time_stamp_model s3 = time_stamp_model s2
         /\ regression_model s3 = regression_model s2
         /\ log_dir s3 = log_dir s2
         /\ (forall p, In (EvSave p) saves ->
               exists d,
                 log_dir s2 = Some d
                 /\ (p = path_join d "time_stamp_model.pth"
                     \/ p = path_join d "regression_model.pth"))
         /\ ((flt ev (best_test v) = true
              /\ exists d f1,
                   log_dir s2 = Some d
                   /\ torch_save env (fs s2) (time_stamp_model s2)
                        (path_join d "time_stamp_model.pth") = Ok f1
                   /\ torch_save env f1 (regression_model s2)
                        (path_join d "regression_model.pth") = Ok (fs s3))
             \/ (flt ev (best_test v) = false /\ fs s3 = fs s2))).
  { unfold improve. destruct (flt ev (best_test v)) eqn:Hflt.
    - apply bind_ok in H1. destruct H1 as (u7 & s4 & H1 & H2).
      pose proof (save_model_paths _ _ _ H1) as (d & Hd & Hpaths).
      pose proof (save_model_fs _ _ _ H1) as (d' & f1 & Hd' & Hf1 & Hf2).
      apply save_model_ok in H1.
      destruct H1 as (p1 & p2 & S1 & S2 & S3 & S4 & S5 & S6 & S7).
      apply ret_ok in H2. destruct H2 as [-> ->].
      rewrite S1 in Hpaths. apply app_inv_head in Hpaths.
      injection Hpaths as -> ->.
      split; [reflexivity|].
      eexists. 
      split; [left; split; [reflexivity | eexists _, _; reflexivity]|].
      cbn [trace learning_rate writer log_dir time_stamp_model
           regression_model log_event fs]
        in S1, S2, S3, S4, S6, S7, Hd, Hd', Hf1, Hf2.
      split; [rewrite S1, <- !app_assoc; reflexivity|].
      split; [assumption|]. split; [assumption|]. split; [assumption|].
      split; [assumption|]. split; [assumption|].
      split.
      + intros p [Hp|[Hp|[]]]; injection Hp as <-; exists d; auto.
      + left. split; [reflexivity|]. exists d', f1. now repeat split.
    - apply ret_ok in H1. destruct H1 as [-> ->].
      split; [reflexivity|].
      exists []. split; [right; now split|].
      cbn. rewrite <- !app_assoc.
      split; [reflexivity|]. split; [reflexivity|]. split; [reflexivity|].
      split; [reflexivity|]. split; [reflexivity|]. split; [reflexivity|].
      split; [intros p []|]. right. now split. }
  destruct Hsave
    as (-> & saves & Hsaves & Ht3 & Hlr3 & Hw3 & M1 & M2 & L3 & Hpaths
        & Hfs).
  clear H1.
  apply bind_ok in H. destruct H as (u8 & s4 & H1 & H).
  apply add_scalar_ok in H1. subst s4.
  apply bind_ok in H. destruct H as (u9 & s4 & H1 & H).
  apply add_scalar_ok in H1. subst s4.
  apply bind_ok in H. destruct H as (u10 & s4 & H1 & H).
  apply add_scalar_ok in H1. subst s4.
  apply ret_ok in H. destruct H as [-> ->].
  exists losses, ev, rm, ma, mp, saves.
  cbn [train_loss best_test min_rmse min_mae min_mape trace learning_rate
       writer log_dir time_stamp_model regression_model log_event fs].
  split; [exact Hlen|].
  split; [now rewrite (of_len_length _ _ Hlen)|].
  split; [reflexivity|].
  split; [exact Hsaves|].
  split.
  { rewrite Ht3, E6, Ht1. unfold epoch_events.
    rewrite <- !app_assoc. reflexivity. }
  split; [now rewrite Hlr3, E3, Hlr1|].
  split; [now rewrite Hw3, E4, Hw1|].
  split; [now rewrite M1, E1, G1|].
  split; [now rewrite M2, E2, G2|].
  assert (Hld : log_dir s2 = log_dir st) by (now rewrite E5, Hl1).
  split; [now rewrite L3|].
  split; [reflexivity|]. split; [reflexivity|]. split; [reflexivity|].
  split; [intros p Hp; rewrite <- Hld; now apply Hpaths|].
  split; [exact Hnan|].
  assert (Hf : fs s2 = fs st) by (now rewrite F2, F1).
  destruct Hfs as [(Hflt & d & f1 & Hd & Hf1 & Hf2)|[Hflt Hf2]].
  - left. split; [exact Hflt|]. exists d, f1.
    rewrite <- Hld, <- Hf, M1, M2. now repeat split.
  - right. split; [exact Hflt|]. now rewrite Hf2.
Qed.

(** *** Reading the events of an epoch *)

Lemma scalars_app (tag : string) (a b : list event) :
  scalars tag (a ++ b) = scalars tag a ++ scalars tag b.
Proof. apply flat_map_app. Qed.

Lemma step_losses_app (e : Z) (a b : list event) :
  step_losses e (a ++ b) = step_losses e a ++ step_losses e b.
Proof. apply flat_map_app. Qed.

Lemma step_rates_app (e : Z) (a b : list event) :
  step_rates e (a ++ b) = step_rates e a ++ step_rates e b.
Proof. apply flat_map_app. Qed.

Lemma checkpoint_tokens_app (a b : list event) :
  checkpoint_tokens (a ++ b) = checkpoint_tokens a ++ checkpoint_tokens b.
Proof. apply flat_map_app. Qed.

Lemma steps_read (e e' : Z) (lr : Q) (indices : list nat) :
  forall losses,
    length losses = length indices ->
    let steps := map (fun p => EvStep e (fst p) lr (snd p))
                   (combine indices losses) in
    step_losses e' steps = (if Z.eqb e e' then losses else [])
    /\ step_rates e' steps
       = (if Z.eqb e e' then map (fun _ => lr) losses else [])
    /\ (forall tag, scalars tag steps = [])
    /\ checkpoint_tokens steps = [].
Proof.
  induction indices as [|i rest IH]; intros [|l losses] Hlen;
    cbn [length] in Hlen; try discriminate; cbn zeta.
  - cbn. destruct (Z.eqb e e'); now repeat split.
  - injection Hlen as Hlen. destruct (IH losses Hlen) as (H1 & H2 & H3 & H4).
    cbn zeta in H1, H2, H3, H4.
    cbn [combine map fst snd].
    unfold step_losses, step_rates, scalars, checkpoint_tokens in *.
    cbn [flat_map]. rewrite H1, H2, H4.
    destruct (Z.eqb e e'); repeat split; try reflexivity;
      intros tag; apply H3.
Qed.

Lemma epoch_events_read (e : Z) (lr : Q) (indices : list nat)
    (losses : list pyfloat) (tl ev rm ma mp : pyfloat) (saves : list event)
    (m1 m2 m3 : pyfloat) :
  length losses = length indices ->
  (exists p1 p2, saves = [EvSave p1; EvSave p2]) \/ saves = [] ->
  let block := epoch_events e lr indices losses tl ev rm ma mp saves
                 m1 m2 m3 in
  scalars "Loss/train" block = [tl]
  /\ scalars "Loss/validation" block = [ev]
  /\ (forall e', step_losses e' block = if Z.eqb e e' then losses else [])
  /\ (forall e', step_rates e' block
                 = if Z.eqb e e' then map (fun _ => lr) losses else [])
  /\ checkpoint_tokens block
     = Validated ev :: map (fun _ => Saved) saves.
Proof.
  intros Hlen Hsaves. cbn zeta. unfold epoch_events.
  assert (Hs1 : forall tag, scalars tag saves = []).
  { intros tag. destruct Hsaves as [(p1 & p2 & ->)| ->]; reflexivity. }
  assert (Hs2 : forall e', step_losses e' saves = []).
  { intros e'. destruct Hsaves as [(p1 & p2 & ->)| ->]; reflexivity. }
  assert (Hs3 : forall e', step_rates e' saves = []).
  { intros e'. destruct Hsaves as [(p1 & p2 & ->)| ->]; reflexivity. }
  assert (Hs4 : checkpoint_tokens saves = map (fun _ => Saved) saves).
  { destruct Hsaves as [(p1 & p2 & ->)| ->]; reflexivity. }
  repeat split; intros;
    rewrite ?scalars_app, ?step_losses_app, ?step_rates_app,
      ?checkpoint_tokens_app;
    rewrite ?Hs1, ?Hs2, ?Hs3, ?Hs4;
    destruct (steps_read e e lr indices losses Hlen) as (S1 & S2 & S3 & S4);
    cbn zeta in S1, S2, S3, S4.
  - rewrite S3. reflexivity.
  - rewrite S3. reflexivity.
  - destruct (steps_read e e' lr indices losses Hlen) as (T1 & _).
    cbn zeta in T1. rewrite T1. cbn. now rewrite !app_nil_r.
  - destruct (steps_read e e' lr indices losses Hlen) as (_ & T2 & _).
    cbn zeta in T2. rewrite T2. cbn. now rewrite !app_nil_r.
  - rewrite S4. cbn. now rewrite app_nil_r.
Qed.

(** *** The loop over the epochs *)

Lemma cumulative_means_ext (es : list Z) (tr tr' : list event) :
  (forall e, In e es -> step_losses e tr = step_losses e tr') ->
  forall prev, cumulative_means prev es tr = cumulative_means prev es tr'.
Proof.
  induction es as [|e rest IH]; intros H prev; cbn.
  - reflexivity.
  - rewrite (H e) by now left.
    f_equal. apply IH. intros e' He'. apply H. now right.
Qed.

Lemma checkpoint_log_block (ev : pyfloat) (saves : list event)
    (rest : list token) :
  (exists p1 p2, saves = [EvSave p1; EvSave p2]) \/ saves = [] ->
  rest = [] \/ (exists x r, rest = Validated x :: r) ->
  checkpoint_log ((Validated ev :: map (fun _ => Saved) saves) ++ rest)
  = (ev, match saves with [] => false | _ => true end) :: checkpoint_log rest.
Proof.
  intros [(p1 & p2 & ->)| ->] Hrest; cbn.
  - reflexivity.
  - destruct Hrest as [->|(x & r & ->)]; reflexivity.
Qed.

Lemma py_range_NoDup (a b : Z) : NoDup (py_range a b).
Proof.
  unfold py_range. apply Injective_map_NoDup.
  - intros x y H. lia.
  - apply seq_NoDup.
Qed.

Lemma train_loop_ok (es : list Z) :
  NoDup es ->
  forall (v v' : locals) (st st' : state),
    for_each es (epoch_step env cfg) v st = (Ok v', st') ->
    exists new,
      trace st' = trace st ++ new
      /\ scalars "Loss/train" new = cumulative_means (train_loss v) es new
      /\ (forall e, ~ In e es ->
            step_losses e new = [] /\ step_rates e new = [])
      /\ checkpoint_log (checkpoint_tokens new)
         = strict_improvements (best_test v) (scalars "Loss/validation" new)
      /\ (checkpoint_tokens new = []
          \/ exists x r, checkpoint_tokens new = Validated x :: r)
      /\ length (scalars "Loss/validation" new) = length es
      /\ best_test v' = best_after (best_test v) (scalars "Loss/validation" new)
      /\ learning_rate st'
         = fold_left (fun lr e => next_learning_rate e lr) es (learning_rate st)
      /\ writer st' = writer st
      /\ (forall prefix e suffix,
            es = prefix ++ e :: suffix ->
            Forall (fun r => r = fold_left (fun lr e => next_learning_rate e lr)
                                   prefix (learning_rate st))
              (step_rates e new))
      /\ ((forall r n, length (fst (randperm env r n)) = n) ->
          forall e, In e es ->
            length (step_losses e new) = length (train_data cfg)).
Proof.
  induction 1 as [|e rest Hnot Hnd IH]; intros v v' st st' H.
  - cbn in H. injection H as <- <-. exists [].
    rewrite app_nil_r. cbn.
    split; [reflexivity|]. split; [reflexivity|].
    split; [intros; now split|]. split; [reflexivity|].
    split; [now left|]. split; [reflexivity|]. split; [reflexivity|].
    split; [reflexivity|]. split; [reflexivity|].
    split; [intros; constructor|].
    intros _ e [].
  - cbn [for_each] in H. apply bind_ok in H.
    destruct H as (v1 & st1 & Hstep & Hrest).
    apply epoch_step_ok in Hstep.
    destruct Hstep
      as (losses & ev & rm & ma & mp & saves & Hlen & Htl & Hbest & Hsaves
          & Ht & Hlr & Hw & _).
    apply IH in Hrest.
    destruct Hrest
      as (new & Ht' & Hchain & Hother & Hlog & Hhead & Hvals & Hbest' & Hlr'
          & Hw' & Hrates & Hcount).
    set (block := epoch_events e (learning_rate st)
                    (fst (randperm env (rng st) (length (train_data cfg))))
                    losses (train_loss v1) ev rm ma mp saves
                    (min_rmse v1) (min_mae v1) (min_mape v1)) in *.
    assert (Hshape : (exists p1 p2, saves = [EvSave p1; EvSave p2])
                     \/ saves = []).
    { destruct Hsaves as [[_ Hs]|[_ Hs]]; [now left | now right]. }
    destruct (epoch_events_read e (learning_rate st) _ losses (train_loss v1)
                ev rm ma mp saves (min_rmse v1) (min_mae v1) (min_mape v1)
                Hlen Hshape) as (B1 & B2 & B3 & B4 & B5).
    cbn zeta in B1, B2, B3, B4, B5. fold block in B1, B2, B3, B4, B5.
    assert (Hrest_e : step_losses e new = [] /\ step_rates e new = [])
      by (apply Hother; exact Hnot).
    exists (block ++ new).
    split; [rewrite Ht', Ht, <- app_assoc; reflexivity|].
    split.
    { (* the reports of the training loss *)
      rewrite scalars_app, B1, Hchain. cbn [cumulative_means app].
      rewrite step_losses_app, B3, Z.eqb_refl, (proj1 Hrest_e), app_nil_r.
      rewrite <- Htl. f_equal.
      apply cumulative_means_ext. intros e' He'.
      rewrite step_losses_app, B3.
      destruct (Z.eqb_spec e e') as [->|Hne]; [contradiction|reflexivity]. }
    split.
    { intros e' He'. rewrite step_losses_app, step_rates_app, B3, B4.
      destruct (Z.eqb_spec e e') as [->|Hne].
      - exfalso. apply He'. now left.
      - apply Hother. intros Hin. apply He'. now right. }
    split.
    { (* the checkpoints *)
      rewrite checkpoint_tokens_app, B5, scalars_app, B2.
      rewrite (checkpoint_log_block ev saves _ Hshape Hhead).
      cbn [app strict_improvements]. rewrite Hlog, Hbest. f_equal.
      f_equal.
      destruct Hsaves as [[Hflt (p1 & p2 & ->)]|[Hflt ->]];
        now rewrite Hflt. }
    split.
    { right. rewrite checkpoint_tokens_app, B5. cbn. eauto. }
    split.
    { rewrite scalars_app, B2, length_app, Hvals. reflexivity. }
    split.
    { rewrite scalars_app, B2. cbn. rewrite Hbest', Hbest. reflexivity. }
    split.
    { cbn [fold_left]. now rewrite Hlr', Hlr. }
    split; [now rewrite Hw', Hw|].
    split.
    { intros prefix e' suffix Heq. rewrite step_rates_app, B4.
      destruct prefix as [|e0 prefix]; cbn in Heq; injection Heq as <- Heq.
      - rewrite Z.eqb_refl, (proj2 Hrest_e), app_nil_r. cbn.
        apply Forall_forall. intros r Hr. apply in_map_iff in Hr.
        now destruct Hr as (? & <- & _).
      - assert (Hin : In e' rest) by (rewrite Heq; apply in_elt).
        destruct (Z.eqb_spec e e') as [->|Hne]; [contradiction|].
        cbn [app fold_left]. rewrite <- Hlr.
        apply (Hrates prefix e' suffix Heq). }
    { intros Hperm e' [<-|Hin].
      - rewrite step_losses_app, B3, Z.eqb_refl, (proj1 Hrest_e), app_nil_r.
        now rewrite Hlen, Hperm.
      - rewrite step_losses_app, B3.
        destruct (Z.eqb_spec e e') as [->|Hne]; [contradiction|].
        cbn. now apply Hcount. }
Qed.

(** *** [train] *)

Lemma cumulative_means_length (es : list Z) (tr : list event) :
  forall prev, length (cumulative_means prev es tr) = length es.
Proof.
  induction es as [|e rest IH]; intros prev; cbn; [reflexivity|].
  now rewrite IH.
Qed.

Lemma py_range_length (a b : Z) : length (py_range a b) = Z.to_nat (b - a).
Proof. unfold py_range. now rewrite length_map, length_seq. Qed.

Lemma py_range_In (a b e : Z) : In e (py_range a b) <-> (a <= e < b)%Z.
Proof.
  unfold py_range. rewrite in_map_iff. split.
  - intros (k & <- & Hk). apply in_seq in Hk. lia.
  - intros H. exists (Z.to_nat (e - a)). split; [lia|].
    apply in_seq. lia.
Qed.

(** A run of [train] that ends normally: the writer is opened, the epochs
    follow one another, the writer is closed. *)
Lemma train_ok (st st' : state) :
  train env cfg st = (Ok tt, st') ->
  exists d new,
    trace st' = trace st ++ EvWriterOpen d :: new ++ [EvWriterClose d]
    /\ scalars "Loss/train" new
       = cumulative_means (Fin 0) (py_range 1 (epochs cfg)) new
    /\ checkpoint_log (checkpoint_tokens new)
       = strict_improvements PInf (scalars "Loss/validation" new)
    /\ length (scalars "Loss/validation" new) = Z.to_nat (epochs cfg - 1)
    /\ learning_rate st'
       = fold_left (fun lr e => next_learning_rate e lr)
           (py_range 1 (epochs cfg)) (learning_rate st)
    /\ (forall prefix e suffix,
          py_range 1 (epochs cfg) = prefix ++ e :: suffix ->
          Forall (fun r => r = fold_left (fun lr e => next_learning_rate e lr)
                                 prefix (learning_rate st))
            (step_rates e new))
    /\ ((forall r n, length (fst (randperm env r n)) = n) ->
        forall e, (1 <= e < epochs cfg)%Z ->
          length (step_losses e new) = length (train_data cfg)).
Proof.
  unfold train. intros H.
  apply bind_ok in H. destruct H as (u & st1 & Hinit & H).
  destruct (initiate_writer_cases st)
    as [(e & s & Hr & _)|(d & s & Hr & Ht & Hw & Hl & H1 & H2 & H3)];
    rewrite Hr in Hinit; [discriminate|].
  injection Hinit as _ <-.
  apply bind_ok in H. destruct H as (v & st2 & Hloop & Hclose).
  apply (train_loop_ok _ (py_range_NoDup 1 (epochs cfg))) in Hloop.
  destruct Hloop
    as (new & Ht' & Hchain & _ & Hlog & _ & Hvals & _ & Hlr & Hw' & Hrates
        & Hcount).
  rewrite Hw in Hw'.
  destruct (writer_close_open d st2 Hw') as (st3 & Hc & Htc & _ & _ & Hl3).
  rewrite Hc in Hclose. injection Hclose as <-.
  exists d, new. cbn [train_loss best_test initial_locals] in *.
  split.
  { rewrite Htc, Ht', Ht, <- !app_assoc. reflexivity. }
  split; [exact Hchain|]. split; [exact Hlog|].
  split; [now rewrite Hvals, py_range_length|].
  split; [now rewrite Hl3, Hlr, H3|].
  split.
  { intros prefix e suffix Heq. rewrite <- H3.
    now apply (Hrates prefix e suffix). }
  intros Hperm e He. apply Hcount; [exact Hperm|]. now apply py_range_In.
Qed.

Lemma fadd_assoc (a b c : pyfloat) :
  fl_eq (fadd (fadd a b) c) (fadd a (fadd b c)).
Proof.
  destruct a, b, c; cbn; auto. ring.
Qed.

Lemma fadd_zero_l (a : pyfloat) : fl_eq (fadd (Fin 0) a) a.
Proof. destruct a; cbn; auto. ring. Qed.

(** Adding the losses one after the other to a start value gives the start
    value plus their sum. *)
Lemma fold_fadd_sum (losses : list pyfloat) :
  forall prev,
    fl_eq (fold_left fadd losses prev) (fadd prev (fsum losses)).
Proof.
  unfold fsum. induction losses as [|x rest IH]; intros prev; cbn.
  - destruct prev; cbn; auto. ring.
  - eapply fl_eq_trans; [apply IH|].
    eapply fl_eq_trans; [apply fadd_assoc|].
    apply fadd_compat; [apply fl_eq_refl|].
    apply fl_eq_sym.
    eapply fl_eq_trans; [apply IH|].
    apply fadd_compat; [apply fadd_zero_l | apply fl_eq_refl].
Qed.

Lemma scalars_open_close (tag : string) (d : string) (new : list event) :
  scalars tag (EvWriterOpen d :: new ++ [EvWriterClose d]) = scalars tag new.
Proof.
  change (EvWriterOpen d :: new ++ [EvWriterClose d])
    with ([EvWriterOpen d] ++ new ++ [EvWriterClose d]).
  rewrite !scalars_app. cbn. now rewrite app_nil_r.
Qed.

Lemma step_losses_open_close (e : Z) (d : string) (new : list event) :
  step_losses e (EvWriterOpen d :: new ++ [EvWriterClose d])
  = step_losses e new.
Proof.
  change (EvWriterOpen d :: new ++ [EvWriterClose d])
    with ([EvWriterOpen d] ++ new ++ [EvWriterClose d]).
  rewrite !step_losses_app. cbn. now rewrite app_nil_r.
Qed.

Lemma checkpoint_tokens_open_close (d : string) (new : list event) :
  checkpoint_tokens (EvWriterOpen d :: new ++ [EvWriterClose d])
  = checkpoint_tokens new.
Proof.
  change (EvWriterOpen d :: new ++ [EvWriterClose d])
    with ([EvWriterOpen d] ++ new ++ [EvWriterClose d]).
  rewrite !checkpoint_tokens_app. cbn. now rewrite app_nil_r.
Qed.

(** C3.  In a run of [train] that ends normally, the training losses
    reported, epoch after epoch, are those of an accumulator that starts
    at 0 and is never reset: the report of an epoch is the previous report
    plus the losses of the timestamps of the epoch, divided by their
    number; there is one report per epoch of [range(1, epochs)], and with
    a generator that returns [n] indices for [n] timestamps that number is
    the number of training timestamps. *)
Theorem train_loss_is_cumulative (st st' : state) :
  train env cfg st = (Ok tt, st') ->
  exists events,
    trace st' = trace st ++ events
    /\ scalars "Loss/train" events
       = cumulative_means (Fin 0) (py_range 1 (epochs cfg)) events
    /\ length (scalars "Loss/train" events) = Z.to_nat (epochs cfg - 1)
    /\ (forall prev losses,
          fl_eq (fdiv (fold_left fadd losses prev) (of_len losses))
            (fdiv (fadd prev (fsum losses)) (of_len losses)))
    /\ ((forall r n, length (fst (randperm env r n)) = n) ->
        forall e, (1 <= e < epochs cfg)%Z ->
          length (step_losses e events) = length (train_data cfg)).
Proof.
  intros H. apply train_ok in H.
  destruct H as (d & new & Ht & Hchain & _ & _ & _ & _ & Hcount).
  exists (EvWriterOpen d :: new ++ [EvWriterClose d]).
  split; [exact Ht|].
  assert (Hmeans :
    cumulative_means (Fin 0) (py_range 1 (epochs cfg))
      (EvWriterOpen d :: new ++ [EvWriterClose d])
    = cumulative_means (Fin 0) (py_range 1 (epochs cfg)) new).
  { apply cumulative_means_ext. intros e _. apply step_losses_open_close. }
  split; [now rewrite scalars_open_close, Hmeans|].
  split.
  { rewrite scalars_open_close, Hchain, cumulative_means_length.
    apply py_range_length. }
  split.
  { intros prev losses. apply fdiv_compat; [apply fold_fadd_sum|].
    apply fl_eq_refl. }
  intros Hperm e He. rewrite step_losses_open_close. now apply Hcount.
Qed.

Lemma flt_irrefl (a : pyfloat) : flt a a = false.
Proof.
  destruct a; cbn; try reflexivity.
  destruct (Qltb q q) eqn:E; [|reflexivity].
  apply Qltb_lt in E. exfalso. exact (Qlt_irrefl _ E).
Qed.

Lemma flt_asym (a b : pyfloat) : flt a b = true -> flt b a = false.
Proof.
  destruct a, b; cbn; try reflexivity; try discriminate.
  intros H. apply Qltb_lt in H.
  destruct (Qltb q0 q) eqn:E; [|reflexivity].
  apply Qltb_lt in E. exfalso. exact (Qlt_irrefl _ (Qlt_trans _ _ _ H E)).
Qed.

(** The best loss never goes up. *)
Lemma best_after_snoc (best : pyfloat) (vs : list pyfloat) (v : pyfloat) :
  flt (best_after best vs) (best_after best (vs ++ [v])) = false.
Proof.
  unfold best_after. rewrite fold_left_app. cbn. unfold improve at 2.
  destruct (flt v (fold_left improve vs best)) eqn:E.
  - now apply flt_asym.
  - apply flt_irrefl.
Qed.

Lemma last_cons_default {A : Type} (x d : A) (l : list A) :
  last (x :: l) d = last l x.
Proof.
  revert x d. induction l as [|y t IH]; intros x d; [reflexivity|].
  change (last (x :: y :: t) d) with (last (y :: t) d).
  now rewrite (IH y d), (IH y x).
Qed.

(** The file system over the epochs: it changes in the epochs that
    improve on the best validation loss, by the two files of the
    checkpoint, and in no other. *)
Lemma train_loop_persisted (d : string) (es : list Z) :
  forall (v v' : locals) (st st' : state),
    log_dir st = Some d ->
    for_each es (epoch_step env cfg) v st = (Ok v', st') ->
    exists new ends,
      trace st' = trace st ++ new
      /\ map end_loss ends = scalars "Loss/validation" new
      /\ saved_on_improvement env d (best_test v) (fs st) ends
      /\ (time_stamp_model st', regression_model st', fs st')
         = last (map end_files ends)
             (time_stamp_model st, regression_model st, fs st).
Proof.
  induction es as [|e rest IH]; intros v v' st st' Hd H.
  - cbn in H. injection H as <- <-. exists [], [].
    rewrite app_nil_r. now repeat split.
  - cbn [for_each] in H. apply bind_ok in H.
    destruct H as (v1 & st1 & Hstep & Hrest).
    apply epoch_step_ok in Hstep.
    destruct Hstep
      as (losses & ev & rm & ma & mp & saves & Hlen & _ & Hbest & Hsaves
          & Ht & _ & _ & _ & _ & Hl & _ & _ & _ & _ & _ & Hfs).
    assert (Hd1 : log_dir st1 = Some d) by (now rewrite Hl).
    destruct (IH _ _ _ _ Hd1 Hrest) as (new & ends & Ht' & Hv & Hsaved & Hlast).
    assert (Hshape : (exists p1 p2, saves = [EvSave p1; EvSave p2])
                     \/ saves = []).
    { destruct Hsaves as [[_ Hs]|[_ Hs]]; [now left | now right]. }
    destruct (epoch_events_read e (learning_rate st) _ losses (train_loss v1)
                ev rm ma mp saves (min_rmse v1) (min_mae v1) (min_mape v1)
                Hlen Hshape) as (_ & B2 & _).
    cbn zeta in B2.
    eexists (_ ++ new),
      (mk_epoch_end ev (time_stamp_model st1) (regression_model st1) (fs st1)
       :: ends).
    split; [rewrite Ht', Ht, <- app_assoc; reflexivity|].
    split; [rewrite scalars_app, B2; cbn; now rewrite Hv|].
    split.
    + cbn [saved_on_improvement end_loss end_time_stamp_model
           end_regression_model end_fs].
      rewrite <- Hbest. split; [|exact Hsaved].
      destruct Hfs as [(Hflt & d0 & f1 & Hd0 & Hf1 & Hf2)|[Hflt Hsame]];
        rewrite Hflt.
      * rewrite Hd in Hd0. injection Hd0 as <-. now exists f1.
      * exact Hsame.
    + cbn [map]. rewrite last_cons_default. exact Hlast.
Qed.

(** A run of [train] that ends normally, on the file system. *)
Lemma train_persisted (st st' : state) :
  train env cfg st = (Ok tt, st') ->
  exists d s0 new ends,
    initiate_writer env cfg st = (Ok tt, s0)
    /\ log_dir s0 = Some d
    /\ trace st' = trace st ++ EvWriterOpen d :: new ++ [EvWriterClose d]
    /\ map end_loss ends = scalars "Loss/validation" new
    /\ saved_on_improvement env d PInf (fs s0) ends
    /\ (time_stamp_model st', regression_model st', fs st')
       = last (map end_files ends)
           (time_stamp_model s0, regression_model s0, fs s0).
Proof.
  unfold train. intros H.
  apply bind_ok in H. destruct H as ([] & s0 & Hinit & H).
  destruct (initiate_writer_cases st)
    as [(e & s & Hr & _)|(d & s & Hr & Ht & Hw & Hl & _)];
    rewrite Hr in Hinit; [discriminate|].
  injection Hinit as <-.
  apply bind_ok in H. destruct H as (v & st2 & Hloop & Hclose).
  pose proof (train_loop_ok _ (py_range_NoDup 1 (epochs cfg)) _ _ _ _ Hloop)
    as (new0 & Ht0 & _ & _ & _ & _ & _ & _ & _ & Hw' & _).
  destruct (train_loop_persisted d _ _ _ _ _ Hl Hloop)
    as (new & ends & Ht' & Hv & Hsaved & Hlast).
  rewrite Hw in Hw'.
  destruct (writer_close_open d st2 Hw') as (st3 & Hc & Htc & M1 & M2 & _).
  rewrite Hc in Hclose. injection Hclose as <-.
  assert (Hfs3 : fs st3 = fs st2).
  { unfold writer_close, bind, gets in Hc. rewrite Hw' in Hc.
    apply emit_ok in Hc. now subst st3. }
  exists d, s, new, ends.
  split; [exact Hr|]. split; [exact Hl|].
  split; [rewrite Htc, Ht', Ht, <- !app_assoc; reflexivity|].
  split; [exact Hv|]. split; [exact Hsaved|].
  now rewrite M1, M2, Hfs3.
Qed.

(** C4.  In a run of [train] that ends normally, a checkpoint follows a
    validation loss exactly when that loss is strictly below the best one
    before it (infinity before the first epoch); a loss equal to the best
    so far, as in 0.50 after 0.50, is not saved again, and the best loss
    never goes up.  The checkpoint is on the file system: in an epoch
    whose loss is strictly below the best before it, [torch.save] writes
    the two models of that epoch to the two files of the run directory,
    and the file system at the end of the epoch is the one it returns; in
    every other epoch the file system stays what it was; when [train]
    returns, the models and the file system are those of the end of the
    last epoch. *)
Theorem checkpoint_iff_strict_improvement (st st' : state) :
  train env cfg st = (Ok tt, st') ->
  exists events,
    trace st' = trace st ++ events
    /\ checkpoint_log (checkpoint_tokens events)
       = strict_improvements PInf (scalars "Loss/validation" events)
    /\ length (scalars "Loss/validation" events) = Z.to_nat (epochs cfg - 1)
    /\ strict_improvements PInf [Fin (1 # 2); Fin (1 # 2)]
       = [(Fin (1 # 2), true); (Fin (1 # 2), false)]
    /\ (forall vs v,
          flt (best_after PInf vs) (best_after PInf (vs ++ [v])) = false)
    /\ exists d s0 ends,
         initiate_writer env cfg st = (Ok tt, s0)
         /\ log_dir s0 = Some d
         /\ map end_loss ends = scalars "Loss/validation" events
         /\ saved_on_improvement env d PInf (fs s0) ends
         /\ (time_stamp_model st', regression_model st', fs st')
            = last (map end_files ends)
                (time_stamp_model s0, regression_model s0, fs s0).
Proof.
  intros H. pose proof (train_persisted _ _ H) as Hp. apply train_ok in H.
  destruct H as (d & new & Ht & _ & Hlog & Hvals & _).
  destruct Hp as (d' & s0 & new' & ends & Hinit & Hl & Ht' & Hv & Hsaved
                  & Hlast).
  assert (Hsame : new' = new /\ d' = d).
  { rewrite Ht in Ht'. apply app_inv_head in Ht'.
    injection Ht' as Hd Hn. subst d'.
    apply app_inv_tail in Hn. now split. }
  destruct Hsame as [-> ->].
  exists (EvWriterOpen d :: new ++ [EvWriterClose d]).
  split; [exact Ht|].
  rewrite checkpoint_tokens_open_close, scalars_open_close.
  split; [exact Hlog|]. split; [exact Hvals|].
  split; [reflexivity|].
  split; [intros vs v; apply best_after_snoc|].
  exists d, s0, ends. now repeat split.
Qed.

(** The learning rate [train] leaves is the one of the schedule, whatever
    the learning rate it was constructed with does after the first
    epoch. *)
Lemma train_learning_rate (st st' : state) :
  train env cfg st = (Ok tt, st') ->
  learning_rate st' = learning_rate_after (learning_rate st) (epochs cfg - 1).
Proof.
  intros H. apply train_ok in H.
  destruct H as (d & new & _ & _ & _ & _ & Hlr & _).
  rewrite Hlr. unfold learning_rate_after.
  now replace (epochs cfg - 1 + 1)%Z with (epochs cfg) by lia.
Qed.

(** The two branches of the schedule: the rate is halved after the epochs
    8, 16 and 24, and set to 0.0001 after every other epoch, those before
    24 included. *)
Lemma next_learning_rate_halves (e : Z) (lr : Q) :
  (e <= 24)%Z -> (e mod 8 = 0)%Z -> next_learning_rate e lr = lr / 2.
Proof.
  intros H1 H2. unfold next_learning_rate.
  apply Z.leb_le in H1. apply Z.eqb_eq in H2. now rewrite H1, H2.
Qed.

Lemma next_learning_rate_resets (e : Z) (lr : Q) :
  (24 < e)%Z \/ (e mod 8 <> 0)%Z -> next_learning_rate e lr = 1 # 10000.
Proof.
  intros H. unfold next_learning_rate.
  destruct (Z.leb_spec e 24) as [Hle|Hgt]; cbn; [|reflexivity].
  destruct (Z.eqb_spec (e mod 8) 0) as [Heq|Hne]; [|reflexivity].
  destruct H as [H|H]; [lia | contradiction].
Qed.

(** *** More on the loop over the epochs *)

Lemma epoch_events_read_more (e : Z) (lr : Q) (indices : list nat)
    (losses : list pyfloat) (tl ev rm ma mp : pyfloat) (saves : list event)
    (m1 m2 m3 : pyfloat) :
  length losses = length indices ->
  (exists p1 p2, saves = [EvSave p1; EvSave p2]) \/ saves = [] ->
  let block := epoch_events e lr indices losses tl ev rm ma mp saves
                 m1 m2 m3 in
  scalars "RMSE/validation" block = [rm]
  /\ scalars "MAE/validation" block = [ma]
  /\ scalars "MAPE/validation" block = [mp]
  /\ scalars "Evaluation/Min_RMSE" block = [m1]
  /\ scalars "Evaluation/Min_MAE" block = [m2]
  /\ scalars "Evaluation/Min_MAPE" block = [m3]
  /\ (forall p, In (EvSave p) block <-> In (EvSave p) saves).
Proof.
  intros Hlen Hsaves. cbn zeta. unfold epoch_events.
  assert (Hs1 : forall tag, scalars tag saves = []).
  { intros tag. destruct Hsaves as [(p1 & p2 & ->)| ->]; reflexivity. }
  destruct (steps_read e e lr indices losses Hlen) as (_ & _ & S3 & _).
  cbn zeta in S3.
  repeat split; intros;
    rewrite ?scalars_app, ?Hs1, ?S3; try reflexivity.
  - rewrite !in_app_iff in H. destruct H as [H|[H|[H|H]]].
    + apply in_map_iff in H. destruct H as (q & Hq & _). discriminate Hq.
    + cbn in H. repeat destruct H as [H|H]; try discriminate H.
      contradiction.
    + exact H.
    + cbn in H. repeat destruct H as [H|H]; try discriminate H.
      contradiction.
  - rewrite !in_app_iff. auto.
Qed.

Lemma train_loop_more (es : list Z) :
  forall (v v' : locals) (st st' : state),
    for_each es (epoch_step env cfg) v st = (Ok v', st') ->
    exists new,
      trace st' = trace st ++ new
      /\ scalars "Evaluation/Min_RMSE" new
         = running_mins (min_rmse v) (scalars "RMSE/validation" new)
      /\ scalars "Evaluation/Min_MAE" new
         = running_mins (min_mae v) (scalars "MAE/validation" new)
      /\ scalars "Evaluation/Min_MAPE" new
         = running_mins (min_mape v) (scalars "MAPE/validation" new)
      /\ log_dir st' = log_dir st
      /\ writer st' = writer st
      /\ (forall p, In (EvSave p) new ->
            exists d,
              log_dir st = Some d
              /\ (p = path_join d "time_stamp_model.pth"
                  \/ p = path_join d "regression_model.pth"))
      /\ (test_data cfg = [] ->
          Forall (fun x => x = NaN) (scalars "Loss/validation" new)
          /\ forall p, ~ In (EvSave p) new).
Proof.
  induction es as [|e rest IH]; intros v v' st st' H.
  - cbn in H. injection H as <- <-. exists [].
    rewrite app_nil_r. cbn.
    repeat split; try reflexivity;
      [intros p [] | intros; constructor | intros p []].
  - cbn [for_each] in H. apply bind_ok in H.
    destruct H as (v1 & st1 & Hstep & Hrest).
    apply epoch_step_ok in Hstep.
    destruct Hstep
      as (losses & ev & rm & ma & mp & saves & Hlen & _ & _ & Hsaves
          & Ht & _ & Hw & _ & _ & Hl & M1 & M2 & M3 & Hpaths & Hnan & _).
    apply IH in Hrest.
    destruct Hrest as (new & Ht' & R1 & R2 & R3 & Hl' & Hw' & Hp' & Hnan').
    assert (Hshape : (exists p1 p2, saves = [EvSave p1; EvSave p2])
                     \/ saves = []).
    { destruct Hsaves as [[_ Hs]|[_ Hs]]; [now left | now right]. }
    destruct (epoch_events_read e (learning_rate st) _ losses (train_loss v1)
                ev rm ma mp saves (min_rmse v1) (min_mae v1) (min_mape v1)
                Hlen Hshape) as (_ & B2 & _).
    destruct (epoch_events_read_more e (learning_rate st) _ losses
                (train_loss v1) ev rm ma mp saves
                (min_rmse v1) (min_mae v1) (min_mape v1) Hlen Hshape)
      as (C1 & C2 & C3 & C4 & C5 & C6 & C7).
    cbn zeta in B2, C1, C2, C3, C4, C5, C6, C7.
    eexists (_ ++ new).
    split; [rewrite Ht', Ht, <- app_assoc; reflexivity|].
    rewrite !scalars_app, B2, C1, C2, C3, C4, C5, C6.
    cbn [app running_mins].
    rewrite R1, R2, R3, M1, M2, M3.
    split; [reflexivity|]. split; [reflexivity|]. split; [reflexivity|].
    split; [now rewrite Hl', Hl|].
    split; [now rewrite Hw', Hw|].
    split.
    + intros p Hp. apply in_app_iff in Hp. destruct Hp as [Hp|Hp].
      * rewrite M1, M2, M3 in C7. apply C7 in Hp. now apply Hpaths.
      * rewrite <- Hl. now apply Hp'.
    + intros Hempty. destruct (Hnan' Hempty) as [Hn1 Hn2]. split.
      * constructor; [now apply Hnan | exact Hn1].
      * intros p Hp. apply in_app_iff in Hp. destruct Hp as [Hp|Hp].
        -- rewrite M1, M2, M3 in C7. apply C7 in Hp.
           rewrite (Hnan Hempty) in Hsaves.
           destruct Hsaves as [[Hf _]|[_ Hs]]; [discriminate Hf|].
           rewrite Hs in Hp. destruct Hp.
        -- now apply (Hn2 p).
Qed.

(** *** More on [train] *)

Lemma writer_close_keeps (st st' : state) (u : unit) :
  writer_close st = (Ok u, st') ->
  writer st' = writer st /\ log_dir st' = log_dir st.
Proof.
  unfold writer_close, bind, gets. destruct (writer st) as [d|] eqn:E.
  - intros H. apply emit_ok in H. subst st'. cbn. now rewrite E.
  - discriminate.
Qed.

Lemma train_more (st st' : state) :
  train env cfg st = (Ok tt, st') ->
  exists d new,
    trace st' = trace st ++ EvWriterOpen d :: new ++ [EvWriterClose d]
    /\ scalars "Evaluation/Min_RMSE" new
       = running_mins PInf (scalars "RMSE/validation" new)
    /\ scalars "Evaluation/Min_MAE" new
       = running_mins PInf (scalars "MAE/validation" new)
    /\ scalars "Evaluation/Min_MAPE" new
       = running_mins PInf (scalars "MAPE/validation" new)
    /\ writer st' = Some d
    /\ log_dir st' = Some d
    /\ (forall p, In (EvSave p) new ->
          p = path_join d "time_stamp_model.pth"
          \/ p = path_join d "regression_model.pth")
    /\ (test_data cfg = [] ->
        Forall (fun x => x = NaN) (scalars "Loss/validation" new)
        /\ forall p, ~ In (EvSave p) new).
Proof.
  unfold train. intros H.
  apply bind_ok in H. destruct H as (u & st1 & Hinit & H).
  destruct (initiate_writer_cases st)
    as [(e & s & Hr & _)|(d & s & Hr & Ht & Hw & Hl & _)];
    rewrite Hr in Hinit; [discriminate|].
  injection Hinit as _ <-.
  apply bind_ok in H. destruct H as (v & st2 & Hloop & Hclose).
  apply train_loop_more in Hloop.
  destruct Hloop as (new & Ht' & R1 & R2 & R3 & Hl' & Hw' & Hp & Hnan).
  rewrite Hw in Hw'. rewrite Hl in Hl'.
  destruct (writer_close_open d st2 Hw') as (st3 & Hc & Htc & _).
  rewrite Hc in Hclose. injection Hclose as <-.
  apply writer_close_keeps in Hc. destruct Hc as [Kw Kl].
  exists d, new. cbn [min_rmse min_mae min_mape initial_locals] in *.
  split.
  { rewrite Htc, Ht', Ht, <- !app_assoc. reflexivity. }
  split; [exact R1|]. split; [exact R2|]. split; [exact R3|].
  split; [now rewrite Kw|]. split; [now rewrite Kl|].
  split; [|exact Hnan].
  intros p Hin. destruct (Hp p Hin) as (d' & Hd & Hor).
  rewrite Hl in Hd. injection Hd as <-. exact Hor.
Qed.

(** X12.  In a run of [train] that ends normally the three series
    [Evaluation/Min_RMSE], [Evaluation/Min_MAE] and [Evaluation/Min_MAPE]
    are the running minima of the series [RMSE/validation],
    [MAE/validation] and [MAPE/validation], started at positive infinity
    and taken with Python's [min]. *)
Theorem train_reports_running_minima (st st' : state) :
  train env cfg st = (Ok tt, st') ->
  exists d new,
    trace st' = trace st ++ EvWriterOpen d :: new ++ [EvWriterClose d]
    /\ scalars "Evaluation/Min_RMSE" new
       = running_mins PInf (scalars "RMSE/validation" new)
    /\ scalars "Evaluation/Min_MAE" new
       = running_mins PInf (scalars "MAE/validation" new)
    /\ scalars "Evaluation/Min_MAPE" new
       = running_mins PInf (scalars "MAPE/validation" new).
Proof.
  intros H. apply train_more in H.
  destruct H as (d & new & Ht & R1 & R2 & R3 & _).
  exists d, new. now repeat split.
Qed.

Lemma py_min_not_nan (m v : pyfloat) : m <> NaN -> py_min m v <> NaN.
Proof.
  intros Hm. unfold py_min. destruct (flt v m) eqn:E; [|exact Hm].
  destruct v; discriminate.
Qed.

Lemma running_mins_not_nan (vs : list pyfloat) :
  forall m, m <> NaN -> Forall (fun x => x <> NaN) (running_mins m vs).
Proof.
  induction vs as [|v rest IH]; intros m Hm; cbn; constructor.
  - now apply py_min_not_nan.
  - apply IH. now apply py_min_not_nan.
Qed.

(** X13.  A minimum that [train] reports is never nan, whatever the
    metrics of the epochs are: a nan metric is below nothing, so [min]
    keeps the value it had (positive infinity as long as every metric was
    nan). *)
Theorem train_minima_never_nan (st st' : state) :
  train env cfg st = (Ok tt, st') ->
  exists d new,
    trace st' = trace st ++ EvWriterOpen d :: new ++ [EvWriterClose d]
    /\ Forall (fun x => x <> NaN) (scalars "Evaluation/Min_RMSE" new)
    /\ Forall (fun x => x <> NaN) (scalars "Evaluation/Min_MAE" new)
    /\ Forall (fun x => x <> NaN) (scalars "Evaluation/Min_MAPE" new).
Proof.
  intros H. apply train_more in H.
  destruct H as (d & new & Ht & R1 & R2 & R3 & _).
  exists d, new. rewrite R1, R2, R3.
  repeat split; [exact Ht| | |]; now apply running_mins_not_nan.
Qed.

(** X14.  Every checkpoint of a run of [train] that ends normally is one
    of the two files [time_stamp_model.pth] and [regression_model.pth] of
    the directory the writer of that run was opened on, which is also the
    value of [log_dir] and of [writer] when [train] returns. *)
Theorem train_checkpoints_in_run_directory (st st' : state) :
  train env cfg st = (Ok tt, st') ->
  exists d new,
    trace st' = trace st ++ EvWriterOpen d :: new ++ [EvWriterClose d]
    /\ log_dir st' = Some d
    /\ writer st' = Some d
    /\ forall p, In (EvSave p) new ->
         p = path_join d "time_stamp_model.pth"
         \/ p = path_join d "regression_model.pth".
Proof.
  intros H. apply train_more in H.
  destruct H as (d & new & Ht & _ & _ & _ & Hw & Hl & Hp & _).
  exists d, new. now repeat split.
Qed.

(** X15.  With an empty test set a run of [train] that ends normally
    reports nan as the validation loss of every epoch and writes no
    checkpoint at all. *)
Theorem train_without_test_data_never_saves (st st' : state) :
  test_data cfg = [] ->
  train env cfg st = (Ok tt, st') ->
  exists d new,
    trace st' = trace st ++ EvWriterOpen d :: new ++ [EvWriterClose d]
    /\ Forall (fun x => x = NaN) (scalars "Loss/validation" new)
    /\ forall p, ~ In (EvSave p) new.
Proof.
  intros Hempty H. apply train_more in H.
  destruct H as (d & new & Ht & _ & _ & _ & _ & _ & _ & Hnan).
  exists d, new. split; [exact Ht|]. now apply Hnan.
Qed.




(** X17.  After a run of [train] that ended normally the writer is still
    set, so [test] called on the same trainer without a model path raises
    the [ValueError] of [load_model] and leaves the trainer as [train]
    left it: nothing is evaluated and no table is made. *)
Theorem test_after_train_requires_model_path
    (st st' : state) (test_start num_days : Z) :
  train env cfg st = (Ok tt, st') ->
  test env cfg test_start None num_days st'
  = (Raise (ValueError "No model path provided"), st').
Proof.
  intros H. apply train_more in H.
  destruct H as (d & new & _ & _ & _ & _ & Hw & _).
  unfold test, load_model, bind, gets. now rewrite Hw.
Qed.

(** *** [load_model] and the name of the run directory *)

(** X18.  [load_model] with a path is not atomic.  When it raises, the
    trainer is in one of four states: untouched (the first file could not
    be loaded); with the new time-stamp model beside the old regression
    model (the second file could not be loaded); with both new models and
    [log_dir] on the path but the old writer (the writer could not be
    opened); or fully loaded, with the writer open on the path, but with
    the old run version (the text after the last underscore of the path is
    not an integer). *)
Theorem load_model_failure_states (path : string) (e : exn) (st st' : state) :
  load_model env cfg (Some path) st = (Raise e, st') ->
  (torch_load env (fs st) (path_join path "time_stamp_model.pth") = Raise e
   /\ st' = st)
  \/ (exists ts,
        torch_load env (fs st) (path_join path "time_stamp_model.pth") = Ok ts
        /\ torch_load env (fs st) (path_join path "regression_model.pth")
           = Raise e
        /\ st' = set_time_stamp_model ts st)
  \/ (exists ts reg,
        torch_load env (fs st) (path_join path "time_stamp_model.pth") = Ok ts
        /\ torch_load env (fs st) (path_join path "regression_model.pth")
           = Ok reg
        /\ summary_writer env (fs st) path = Raise e
        /\ st' = set_log_dir (Some path)
                   (set_regression_model reg (set_time_stamp_model ts st)))
  \/ (exists ts reg f,
        torch_load env (fs st) (path_join path "time_stamp_model.pth") = Ok ts
        /\ torch_load env (fs st) (path_join path "regression_model.pth")
           = Ok reg
        /\ summary_writer env (fs st) path = Ok f
        /\ py_int env (last_field path) = Raise e
        /\ st' = log_event (EvWriterOpen path)
                   (set_writer (Some path)
                      (set_fs f
                         (set_log_dir (Some path)
                            (set_regression_model reg
                               (set_time_stamp_model ts st)))))).
Proof.
  unfold load_model, open_writer, emit, bind, modify, fs_op, lift.
  cbn -[path_join].
  destruct (torch_load env (fs st) (path_join path "time_stamp_model.pth"))
    as [ts|e1]; cbn -[path_join].
  2:{ intros H. injection H as <- <-. now left. }
  destruct (torch_load env (fs st) (path_join path "regression_model.pth"))
    as [reg|e2]; cbn -[path_join].
  2:{ intros H. injection H as <- <-. right. left. now exists ts. }
  destruct (summary_writer env (fs st) path) as [f|e3]; cbn -[path_join].
  2:{ intros H. injection H as <- <-. right. right. left. now exists ts, reg. }
  destruct (py_int env (last_field path)) as [v|e4]; [discriminate|].
  intros H. injection H as <- <-. right. right. right. now exists ts, reg, f.
Qed.

Lemma append_assoc (a b c : string) :
  ((a ++ b) ++ c = a ++ (b ++ c))%string.
Proof. induction a as [|x a IH]; cbn; [reflexivity | now rewrite IH]. Qed.

Lemma last_field_from_plain (s : string) :
  has_underscore s = false ->
  forall acc, last_field_from acc s = (acc ++ s)%string.
Proof.
  induction s as [|c t IH]; intros H acc; cbn in *.
  - clear H. induction acc as [|x a IHa]; cbn; [reflexivity | now rewrite <- IHa].
  - apply orb_false_iff in H. destruct H as [Hc Ht]. rewrite Hc.
    rewrite (IH Ht). now rewrite append_assoc.
Qed.

Lemma last_field_from_suffix (s : string) :
  has_underscore s = false ->
  forall x acc, last_field_from acc (x ++ String "_" s) = s.
Proof.
  intros H x. induction x as [|c t IH]; intros acc.
  - cbn. now rewrite (last_field_from_plain s H).
  - cbn [String.append last_field_from].
    destruct (Ascii.eqb c "_"); apply IH.
Qed.

Lemma str_of_nat_plain (n : nat) : has_underscore (str_of_nat n) = false.
Proof.
  unfold str_of_nat. induction (Nat.to_uint n); cbn; auto.
Qed.

Lemma last_field_run (logs : string) (n : nat) :
  last_field (path_join logs ("run_" ++ str_of_nat n)) = str_of_nat n.
Proof.
  unfold last_field.
  assert (E : exists x, path_join logs ("run_" ++ str_of_nat n)
                        = (x ++ String "_" (str_of_nat n))%string).
  { unfold path_join. destruct logs as [|c t].
    - now exists "run"%string.
    - destruct (ends_with_slash (String c t)).
      + exists (String c t ++ "run")%string. now rewrite append_assoc.
      + exists (String c t ++ "/run")%string. now rewrite append_assoc. }
  destruct E as (x & ->).
  apply last_field_from_suffix, str_of_nat_plain.
Qed.

(** X19.  When [initiate_writer] returns, [log_dir] and the writer are on
    the directory [run_<n>] of [<work_dir>/logs], [run_version] is [n],
    and [n] is 0 when the logs directory did not exist and the number of
    its entries when it did.  The text [load_model] would hand to [int]
    for that directory, what follows its last underscore, is the decimal
    numeral of [n]. *)
Theorem run_directory_names_its_version (st st' : state) :
  initiate_writer env cfg st = (Ok tt, st') ->
  exists n,
    let logs := (work_dir cfg ++ "/logs")%string in
    let d := path_join logs ("run_" ++ str_of_nat n) in
    run_version st' = Some (Z.of_nat n)
    /\ log_dir st' = Some d
    /\ writer st' = Some d
    /\ last_field d = str_of_nat n
    /\ (path_exists env (fs st) logs = false -> n = 0%nat)
    /\ (forall names,
          path_exists env (fs st) logs = true ->
          listdir env (fs st) logs = Ok names ->
          n = length names).
Proof.
  unfold initiate_writer, open_writer, emit, bind, modify, gets, fs_op, ret.
  cbn -[path_join str_of_nat String.append last_field].
  destruct (path_exists env (fs st) _) eqn:Hp;
    cbn -[path_join str_of_nat String.append last_field].
  - destruct (listdir env (fs st) _) as [names|e] eqn:Hn;
      cbn -[path_join str_of_nat String.append last_field];
      [|discriminate].
    destruct (summary_writer env (fs st) _) as [f|e];
      cbn -[path_join str_of_nat String.append last_field];
      [|discriminate].
    intros H. injection H as <-. exists (length names).
    cbn -[path_join str_of_nat String.append last_field].
    repeat split; try reflexivity.
    + apply last_field_run.
    + discriminate.
    + intros names' _ H. now injection H as <-.
  - destruct (makedirs env (fs st) _) as [f0|e];
      cbn -[path_join str_of_nat String.append last_field];
      [|discriminate].
    destruct (summary_writer env f0 _) as [f|e];
      cbn -[path_join str_of_nat String.append last_field];
      [|discriminate].
    intros H. injection H as <-. exists 0%nat.
    cbn -[path_join str_of_nat String.append last_field].
    repeat split; try reflexivity.
    + apply last_field_run.
    + discriminate.
Qed.

(** *** [evaluate] and [test] *)

Lemma py_index_nth {A : Type} (l : list A) (i : nat) (x d : A) :
  py_index l i = Ok x -> nth i l d = x /\ (i < length l)%nat.
Proof.
  unfold py_index. destruct (nth_error l i) as [y|] eqn:E; [|discriminate].
  intros H. injection H as <-. split.
  - now apply nth_error_nth.
  - apply nth_error_Some. now rewrite E.
Qed.

(** X20.  When [evaluate] returns, every index it drew is a position of
    both the test data and the test labels, and the labels it returns are
    the rows of the test labels of the drawn indices, in the order the
    indices were drawn (not in the order of the test set). *)
Theorem evaluate_returns_rows_in_drawn_order
    (labels pred : tensor2) (loss : pyfloat) (st st' : state) :
  evaluate env cfg st = (Ok (labels, pred, loss), st') ->
  let indices := fst (randperm env (rng st) (length (test_data cfg))) in
  labels = concat (map (fun i => nth i (test_labels cfg) []) indices)
  /\ Forall (fun i => (i < length (test_data cfg))%nat
                      /\ (i < length (test_labels cfg))%nat) indices.
Proof.
  intros H indices. apply evaluate_ok in H.
  destruct H as (_ & _ & _ & _ & _ & _ & blocks & Hall & Hl & _).
  cbn [fst snd] in Hl. subst labels. fold indices in Hall.
  induction Hall as [|i b ix bs (Hi & data & Hd & _) _ [IH1 IH2]].
  - split; [reflexivity | constructor].
  - apply (py_index_nth _ _ _ []) in Hi. destruct Hi as [Hi Hlt].
    apply (py_index_nth _ _ _ []) in Hd. destruct Hd as [_ Hlt'].
    cbn [map concat]. cbn beta. split.
    + exact (f_equal2 (@app _) (eq_sym Hi) IH1).
    + constructor; [now split | exact IH2].
Qed.





Lemma foodwise_loop_no_rows (n : nat) (todo : list nat) :
  n <> 0%nat ->
  forall r m,
    exists res,
      Tools.foodwise_loop (sqrtQ env) (@concat Q) [] [] n todo r m = Ok res.
Proof.
  intros Hn. induction todo as [|i rest IH]; intros r m.
  - now eexists.
  - destruct n as [|n']; [contradiction|].
    cbn [Tools.foodwise_loop py_slice every rbind concat].
    unfold Tools.rmse, Tools.mae. cbn [broadcast length Nat.eqb combine map rbind].
    apply IH.
Qed.

Lemma evaluate_no_test_data (st : state) :
  test_data cfg = [] ->
  (exists st', evaluate env cfg st = (Ok ([], [], NaN), st'))
  \/ (exists st',
        evaluate env cfg st = (Raise (IndexError "index out of range"), st')).
Proof.
  intros Hempty. unfold evaluate.
  rewrite (bind_run _ _ st (log_event EvEvaluate st) tt) by reflexivity.
  unfold draw_randperm. rewrite Hempty. cbn [length].
  destruct (randperm env (rng (log_event EvEvaluate st)) 0)
    as [[|i rest] r'] eqn:E.
  - left. eexists. unfold bind at 1. rewrite E. reflexivity.
  - right. eexists. unfold bind at 1. rewrite E.
    apply bind_raise. cbn [for_each]. apply bind_raise.
    unfold evaluate_step. apply bind_raise. unfold lift.
    rewrite Hempty. unfold py_index. destruct i; reflexivity.
Qed.

(** X22.  With an empty test set [test] cannot make its tables: once the
    model is loaded and every node has a dish name, it raises
    [IndexError], from [evaluate] when the permutation it draws is not
    empty and from [pred[0]] otherwise. *)
Theorem test_without_test_data_raises
    (test_start num_days : Z) (model_path : option string)
    (names : list string) (st s1 : state) :
  test_data cfg = [] ->
  load_model env cfg model_path st = (Ok tt, s1) ->
  dish_names (dish_dict cfg) (seq 0 (num_nodes cfg)) = Ok names ->
  exists st',
    test env cfg test_start model_path num_days st
    = (Raise (IndexError "index out of range"), st').
Proof.
  intros Hempty Hload Hnames.
  unfold test. rewrite (bind_run _ _ _ _ _ Hload).
  destruct (evaluate_no_test_data s1 Hempty) as [(s2 & Hev)|(s2 & Hev)].
  - rewrite (bind_run _ _ _ _ _ Hev).
    unfold all_nodes. rewrite length_seq, Hnames.
    assert (Hf : exists res,
               Tools.calculate_foodwise_errors (sqrtQ env) (@concat Q) [] []
                 (num_nodes cfg) = Ok res).
    { unfold Tools.calculate_foodwise_errors.
      destruct (Nat.eq_dec (num_nodes cfg) 0) as [Hz|Hnz].
      - rewrite Hz. now eexists.
      - now apply foodwise_loop_no_rows. }
    destruct Hf as (res & ->).
    exists s2. reflexivity.
  - exists s2. now apply bind_raise.
Qed.

(** *** Saving and loading *)

Lemma append_inj_l (a b b' : string) :
  (a ++ b)%string = (a ++ b')%string -> b = b'.
Proof.
  induction a as [|c a IH]; cbn; intros H; [exact H|].
  injection H as H. now apply IH.
Qed.

Lemma path_join_inj (a b b' : string) :
  path_join a b = path_join a b' -> b = b'.
Proof.
  unfold path_join. destruct a as [|c a]; [auto|].
  destruct (ends_with_slash (String c a)); intros H.
  - now apply append_inj_l in H.
  - apply append_inj_l in H. now injection H.
Qed.

(** X23.  On a file system that keeps what is saved (a file that was
    written is read back as it was written, and writing a file leaves the
    other files as they are), the two models that [save_model] wrote are
    what [load_model] reads from the run directory: the second file does
    not overwrite the first, and a trainer on that file system that is
    told to load the directory ends with the two saved models, also when
    [load_model] raises afterwards on the writer or on the run version. *)
Theorem save_model_then_load_model (st s1 : state) :
  (forall f f' m p,
      torch_save env f m p = Ok f' -> torch_load env f' p = Ok m) ->
  (forall f f' m p q,
      torch_save env f m p = Ok f' -> q <> p ->
      torch_load env f' q = torch_load env f q) ->
  save_model env st = (Ok tt, s1) ->
  exists d,
    log_dir st = Some d
    /\ torch_load env (fs s1) (path_join d "time_stamp_model.pth")
       = Ok (time_stamp_model st)
    /\ torch_load env (fs s1) (path_join d "regression_model.pth")
       = Ok (regression_model st)
    /\ forall (other s2 : state) (r : result unit),
         fs other = fs s1 ->
         load_model env cfg (Some d) other = (r, s2) ->
         time_stamp_model s2 = time_stamp_model st
         /\ regression_model s2 = regression_model st.
Proof.
  intros Hread Hkeep H. unfold save_model in H.
  apply bind_ok in H. destruct H as (d & s & H1 & H).
  apply gets_ok in H1. destruct H1 as [-> ->].
  destruct (log_dir st) as [d|] eqn:Hd; [|discriminate].
  apply bind_ok in H. destruct H as (ts & s & H1 & H).
  apply gets_ok in H1. destruct H1 as [-> ->].
  apply bind_ok in H. destruct H as (u1 & s & H1 & H).
  apply fs_op_ok in H1. destruct H1 as (f1 & Hf1 & ->).
  apply bind_ok in H. destruct H as (u2 & s & H1 & H).
  apply emit_ok in H1. subst s.
  apply bind_ok in H. destruct H as (reg & s & H1 & H).
  apply gets_ok in H1. destruct H1 as [-> ->].
  apply bind_ok in H. destruct H as (u3 & s & H1 & H).
  apply fs_op_ok in H1. destruct H1 as (f2 & Hf2 & ->).
  apply emit_ok in H. subst s1.
  cbn -[path_join] in Hf1, Hf2 |- *.
  assert (Hne : path_join d "time_stamp_model.pth"
                <> path_join d "regression_model.pth").
  { intros E. apply path_join_inj in E. discriminate E. }
  assert (L1 : torch_load env f2 (path_join d "time_stamp_model.pth")
               = Ok (time_stamp_model st)).
  { rewrite (Hkeep _ _ _ _ _ Hf2 Hne). now apply (Hread _ _ _ _ Hf1). }
  assert (L2 : torch_load env f2 (path_join d "regression_model.pth")
               = Ok (regression_model st)).
  { now apply (Hread _ _ _ _ Hf2). }
  exists d. split; [reflexivity|]. split; [exact L1|]. split; [exact L2|].
  intros other s2 r Hfs. cbn -[path_join] in Hfs.
  unfold load_model, open_writer, emit, bind, modify, fs_op, lift.
  cbn -[path_join]. rewrite Hfs, L1. cbn -[path_join]. rewrite L2.
  cbn -[path_join].
  destruct (summary_writer env f2 d) as [f|e]; cbn -[path_join].
  - destruct (py_int env (last_field d)) as [v|e];
      intros E; injection E as _ <-; now split.
  - intros E. injection E as _ <-. now split.
Qed.

(** *** An empty training set *)

Lemma cumulative_means_no_steps (es : list Z) (tr : list event) :
  (forall e, In e es -> step_losses e tr = []) ->
  forall prev,
    prev = Fin 0 \/ prev = NaN ->
    Forall (fun x => x = NaN) (cumulative_means prev es tr).
Proof.
  induction es as [|e rest IH]; intros Hno prev Hprev; cbn [cumulative_means].
  - constructor.
  - rewrite (Hno e) by now left. cbn [fold_left].
    assert (E : fdiv prev (of_len (@nil pyfloat)) = NaN)
      by (destruct Hprev as [-> | ->]; reflexivity).
    rewrite E. constructor; [reflexivity|].
    apply IH; [|now right]. intros e' He'. apply Hno. now right.
Qed.

(** X24.  With an empty training set, and a [randperm] that returns as
    many indices as it is asked for, a run of [train] that ends normally
    reports a training loss for every epoch, and every one of them is nan
    (zero over zero in the first epoch, nan from then on). *)
Theorem train_without_training_data_reports_nan (st st' : state) :
  (forall r n, length (fst (randperm env r n)) = n) ->
  train_data cfg = [] ->
  train env cfg st = (Ok tt, st') ->
  exists d new,
    trace st' = trace st ++ EvWriterOpen d :: new ++ [EvWriterClose d]
    /\ length (scalars "Loss/train" new) = Z.to_nat (epochs cfg - 1)
    /\ Forall (fun x => x = NaN) (scalars "Loss/train" new).
Proof.
  intros Hperm Hempty H. apply train_ok in H.
  destruct H as (d & new & Ht & Hmeans & _ & _ & _ & _ & Hcount).
  exists d, new. split; [exact Ht|]. rewrite Hmeans. split.
  - now rewrite cumulative_means_length, py_range_length.
  - apply cumulative_means_no_steps; [|now left].
    intros e He. apply py_range_In in He.
    specialize (Hcount Hperm e He). rewrite Hempty in Hcount.
    now destruct (step_losses e new).
Qed.

End TrainerFacts.

(** ** The commands on the sample world *)

(** C9 as stated fails: when the forward pass raises, [evaluate] is left
    between the switching off and the switching on, and the parameters
    that required a gradient no longer do. *)
Lemma evaluate_leaks_disabled_grad_on_error :
  let env := sample_env failing_forward Ok in
  let st := roundtrip_state [] in
  (exists e, fst (Trainer.evaluate env roundtrip_cfg st) = Raise e)
  /\ Trainer.requires_grad (Trainer.time_stamp_model st) = [true]
  /\ Trainer.requires_grad
       (Trainer.time_stamp_model (snd (Trainer.evaluate env roundtrip_cfg st)))
     = [false]
  /\ Trainer.requires_grad
       (Trainer.time_stamp_model (snd (Trainer.evaluate env roundtrip_cfg st)))
     <> Trainer.requires_grad (Trainer.time_stamp_model st).
Proof.
  cbv zeta. split; [eexists; vm_compute; reflexivity|].
  split; [reflexivity|]. split; [vm_compute; reflexivity|].
  vm_compute. discriminate.
Qed.

Lemma evaluate_restores_requires_grad_witness :
  let env := sample_env (tag_forward 2) Ok in
  let st := roundtrip_state [[1; 0]%nat] in
  Trainer.requires_grad
    (Trainer.time_stamp_model (snd (Trainer.evaluate env roundtrip_cfg st)))
  = Trainer.requires_grad (Trainer.time_stamp_model st).
Proof.
  cbv zeta.
  eassert (H : Trainer.evaluate (sample_env (tag_forward 2) Ok) roundtrip_cfg
                 (roundtrip_state [[1; 0]%nat]) = (Ok _, _))
    by (vm_compute; reflexivity).
  rewrite H. cbn [snd].
  exact (proj1 (evaluate_restores_requires_grad _ _ _ _ _ H)).
Defined.

Lemma calculate_foodwise_errors_per_entity_witness :
  exists rmse_list mse_list,
    Tools.calculate_foodwise_errors (fun x => x) (fun l => l)
      [1; 2; 3; 4; 5; 6] [1; 2; 3; 4; 5; 8] 3 = Ok (rmse_list, mse_list)
    /\ length rmse_list = 3%nat.
Proof.
  destruct (calculate_foodwise_errors_per_entity (fun x => x) 3
              [1; 2; 3; 4; 5; 6] [1; 2; 3; 4; 5; 8])
    as (rl & ml & H1 & H2 & _); [lia | reflexivity|].
  exists rl, ml. now split.
Defined.


Lemma mape_all_zero_finite_witness :
  exists v, Tools.mape [0; 0] [1; -3] = Ok (Fin v) /\ 0 <= v.
Proof.
  destruct (mape_all_zero_finite [0; 0] [1; -3]) as [_ Hfin].
  - discriminate.
  - reflexivity.
  - repeat constructor; reflexivity.
  - repeat constructor; reflexivity.
  - destruct Hfin as (v & H & Hv & _).
    + vm_compute. discriminate.
    + exists v. split; [exact H | exact Hv].
Defined.

Lemma train_without_epochs_witness :
  let env := sample_env scale_forward Ok in
  let st := roundtrip_state [] in
  Trainer.train env roundtrip_cfg st
  = Trainer.bind (Trainer.initiate_writer env roundtrip_cfg)
      (fun _ => Trainer.writer_close) st.
Proof.
  cbv zeta. apply train_without_epochs. vm_compute. discriminate.
Defined.

Lemma load_model_without_path_witness :
  let env := sample_env scale_forward Ok in
  let st := roundtrip_state [] in
  Trainer.writer st = None
  /\ fst (Trainer.load_model env roundtrip_cfg None st) = Ok tt
  /\ Trainer.load_model env roundtrip_cfg None st
     = Trainer.initiate_writer env roundtrip_cfg st.
Proof.
  cbv zeta. split; [reflexivity|]. split; [vm_compute; reflexivity|].
  now apply load_model_without_path.
Defined.

(** C6, the code on the synthetic input.  Two entities, two timestamps, one
    value per prediction, the prediction of entity [e] at timestamp [t]
    being [e * 1000 + t].  When [evaluate] draws the permutation [[1, 0]],
    [test] writes against the first date the predictions of the second
    timestamp: the columns are [[1, 0]] and [[1001, 1000]] where the grid
    has [[0, 1]] and [[1000, 1001]].  The slicing itself is right
    ([every_concat_blocks]): the rows come in the order of evaluation, and
    only with the identity permutation is that the order of the dates. *)
Theorem test_columns_follow_evaluation_order :
  let env := sample_env (tag_forward 2) Ok in
  let grid := [("rice", [0; 1]); ("dal", [1000; 1001])] in
  let dates := ["2020-01-01"; "2020-01-02"]%string in
  (exists t,
     fst (Trainer.test env roundtrip_cfg 0 None 0 (roundtrip_state [[1; 0]%nat]))
       = Ok t
     /\ Trainer.df_dates (Trainer.df_pred t) = dates
     /\ Trainer.df_columns (Trainer.df_pred t)
        = [("rice", [1; 0]); ("dal", [1001; 1000])])
  /\ (exists t,
     fst (Trainer.test env roundtrip_cfg 0 None 0 (roundtrip_state [[0; 1]%nat]))
       = Ok t
     /\ Trainer.df_dates (Trainer.df_pred t) = dates
     /\ Trainer.df_columns (Trainer.df_pred t) = grid).
Proof.
  cbv zeta. split.
  - eexists. split; [vm_compute; reflexivity|].
    cbn [Trainer.df_pred Trainer.df_dates Trainer.df_columns].
    repeat split.
  - eexists. split; [vm_compute; reflexivity|].
    cbn [Trainer.df_pred Trainer.df_dates Trainer.df_columns].
    repeat split.
Qed.

(** C1, the code on the scenario of the claim.  Starting from 0.01 the
    learning rate is 0.0001 after the first epoch already, since every
    epoch that is not 8, 16 or 24 sets it to that constant; after the
    epochs 8, 16 and 24 it is therefore 0.00005, not 0.005, 0.0025 and
    0.00125, and from epoch 25 on it is 0.0001.  A run of [train] with ten
    epochs ends with the rate of the schedule after epoch 9, and takes the
    steps of epoch 9 with the rate left by epoch 8. *)
Theorem learning_rate_schedule_from_one_hundredth :
  let lr0 := 1 # 100 in
  let env := sample_env scale_forward halfway_step in
  let run := Trainer.train env (training_cfg 10) (training_state lr0) in
  learning_rate_after lr0 1 == 1 # 10000
  /\ learning_rate_after lr0 7 == 1 # 10000
  /\ learning_rate_after lr0 8 == 1 # 20000
  /\ learning_rate_after lr0 16 == 1 # 20000
  /\ learning_rate_after lr0 24 == 1 # 20000
  /\ learning_rate_after lr0 25 == 1 # 10000
  /\ learning_rate_after lr0 26 == 1 # 10000
  /\ fst run = Ok tt
  /\ Trainer.learning_rate (snd run) = learning_rate_after lr0 9
  /\ step_rates 1 (Trainer.trace (snd run)) = [1 # 100; 1 # 100]
  /\ step_rates 2 (Trainer.trace (snd run)) = [1 # 10000; 1 # 10000]
  /\ step_rates 9 (Trainer.trace (snd run)) = [1 # 20000; 1 # 20000].
Proof.
  cbv zeta. repeat split; vm_compute; reflexivity.
Qed.

Lemma train_loss_is_cumulative_witness :
  let env := sample_env scale_forward halfway_step in
  let run := Trainer.train env (training_cfg 4) (training_state (1 # 100)) in
  exists events,
    Trainer.trace (snd run) = events
    /\ length (scalars "Loss/train" events) = 3%nat.
Proof.
  cbv zeta.
  eassert (H : Trainer.train (sample_env scale_forward halfway_step)
                 (training_cfg 4) (training_state (1 # 100)) = (Ok tt, _))
    by (vm_compute; reflexivity).
  destruct (train_loss_is_cumulative _ _ _ _ H) as (events & Ht & _ & Hl & _).
  exists events. rewrite H. cbn [snd]. split; [exact Ht | exact Hl].
Defined.

Lemma checkpoint_iff_strict_improvement_witness :
  let run := Trainer.train store_env (training_cfg 4) (store_state None) in
  exists events,
    Trainer.trace (snd run) = events
    /\ checkpoint_log (checkpoint_tokens events)
       = strict_improvements PInf (scalars "Loss/validation" events)
    /\ map snd (checkpoint_log (checkpoint_tokens events))
       = [true; false; false]
    /\ store_lookup (Trainer.fs (snd run))
         "work/logs/run_0/time_stamp_model.pth"
       = Ok (Trainer.time_stamp_model (snd run))
    /\ store_lookup (Trainer.fs (snd run))
         "work/logs/run_0/regression_model.pth"
       = Ok (Trainer.regression_model (snd run)).
Proof.
  cbv zeta.
  eassert (H : Trainer.train store_env (training_cfg 4) (store_state None)
               = (Ok tt, _))
    by (vm_compute; reflexivity).
  destruct (checkpoint_iff_strict_improvement _ _ _ _ H)
    as (events & Ht & Hl & _).
  exists events. rewrite H. cbn [snd].
  split; [exact Ht|]. split; [exact Hl|].
  cbn [Trainer.trace app store_state] in Ht. subst events.
  repeat split; vm_compute; reflexivity.
Defined.

(** ** The further properties on sample inputs *)


Lemma rmse_of_moderate_values_witness :
  exists m, Tools.rmse (fun x => x) [1; 2] [3; 5] = Ok (Fin m) /\ 0 <= m.
Proof.
  destruct (rmse_of_moderate_values (fun x => x) [1; 2] [3; 5])
    as (m & H & Hm & _).
  - reflexivity.
  - discriminate.
  - reflexivity.
  - repeat constructor; discriminate.
  - exists m. split; [exact H | exact Hm].
Defined.

Lemma mae_rmse_symmetric_witness :
  result_eq fl_eq (Tools.mae [1; 2] [3; 5]) (Tools.mae [3; 5] [1; 2])
  /\ result_eq fl_eq (Tools.rmse (fun x => x) [1; 2] [3; 5])
       (Tools.rmse (fun x => x) [3; 5] [1; 2]).
Proof.
  apply (mae_rmse_symmetric (fun x => x) [1; 2] [3; 5]).
  - intros x y H. exact H.
  - repeat constructor; reflexivity.
Defined.

Lemma mape_never_negative_witness :
  exists r, Tools.mape [-1; 2] [3; 5] = Ok r /\ not_negative r.
Proof.
  eassert (H : Tools.mape [-1; 2] [3; 5] = Ok _) by (vm_compute; reflexivity).
  eexists. split; [exact H|].
  exact (mape_never_negative _ _ _ H).
Defined.

Lemma metrics_reject_mismatched_lengths_witness :
  Tools.mae [1; 2] [1; 2; 3]
  = Raise (ValueError "operands could not be broadcast together").
Proof.
  destruct (metrics_reject_mismatched_lengths (fun x => x) [1; 2] [1; 2; 3])
    as (_ & H & _).
  - cbn. lia.
  - cbn. lia.
  - cbn. lia.
  - exact H.
Defined.

Lemma calculate_foodwise_errors_on_rows_witness :
  exists rmse_list mse_list,
    Tools.calculate_foodwise_errors (fun x => x) (@concat Q)
      [[1]; [2]; [3]; [4]] [[1]; [2]; [3]; [5]] 2 = Ok (rmse_list, mse_list)
    /\ length rmse_list = 2%nat.
Proof.
  destruct (calculate_foodwise_errors_on_rows (fun x => x) 2 1
              [[1]; [2]; [3]; [4]] [[1]; [2]; [3]; [5]])
    as (rl & ml & H1 & H2 & _).
  - lia.
  - reflexivity.
  - repeat constructor.
  - repeat constructor.
  - exists rl, ml. now split.
Defined.

Lemma foods_without_observations_get_nan_witness :
  exists rmse_list mse_list,
    Tools.calculate_foodwise_errors (fun x => x) (fun l => l)
      [1; 2] [1; 3] 3 = Ok (rmse_list, mse_list)
    /\ nth_error rmse_list 2 = Some NaN.
Proof.
  destruct (foods_without_observations_get_nan (fun x => x) 3 [1; 2] [1; 3])
    as (rl & ml & H1 & H2 & _).
  - reflexivity.
  - exists rl, ml. split; [exact H1|]. apply (H2 2%nat). cbn. lia.
Defined.

Lemma slices_cover_each_position_witness :
  nth_error (every 3 (7 mod 3) [10; 11; 12; 13; 14; 15; 16; 17; 18]%nat)
    (7 / 3)
  = nth_error [10; 11; 12; 13; 14; 15; 16; 17; 18]%nat 7.
Proof.
  destruct (slices_cover_each_position 3 7
              [10; 11; 12; 13; 14; 15; 16; 17; 18]%nat) as (_ & _ & H & _).
  - lia.
  - exact H.
Defined.

Lemma learning_rate_after_forgets_initial_witness :
  learning_rate_after (1 # 100) 8 = 1 # 20000.
Proof.
  exact (learning_rate_after_forgets_initial (1 # 100) 8 ltac:(lia)).
Defined.

Lemma train_reports_running_minima_witness :
  let env := sample_env scale_forward halfway_step in
  let run := Trainer.train env (training_cfg 4) (training_state (1 # 100)) in
  exists d new,
    Trainer.trace (snd run)
    = Trainer.EvWriterOpen d :: new ++ [Trainer.EvWriterClose d]
    /\ scalars "Evaluation/Min_RMSE" new
       = running_mins PInf (scalars "RMSE/validation" new).
Proof.
  cbv zeta.
  eassert (H : Trainer.train (sample_env scale_forward halfway_step)
                 (training_cfg 4) (training_state (1 # 100)) = (Ok tt, _))
    by (vm_compute; reflexivity).
  destruct (train_reports_running_minima _ _ _ _ H) as (d & new & Ht & R & _).
  exists d, new. rewrite H. cbn [snd]. split; [exact Ht | exact R].
Defined.

Lemma train_minima_never_nan_witness :
  let env := sample_env scale_forward halfway_step in
  let run := Trainer.train env (training_cfg 4) (training_state (1 # 100)) in
  exists d new,
    Trainer.trace (snd run)
    = Trainer.EvWriterOpen d :: new ++ [Trainer.EvWriterClose d]
    /\ Forall (fun x => x <> NaN) (scalars "Evaluation/Min_MAPE" new).
Proof.
  cbv zeta.
  eassert (H : Trainer.train (sample_env scale_forward halfway_step)
                 (training_cfg 4) (training_state (1 # 100)) = (Ok tt, _))
    by (vm_compute; reflexivity).
  destruct (train_minima_never_nan _ _ _ _ H) as (d & new & Ht & _ & _ & R).
  exists d, new. rewrite H. cbn [snd]. split; [exact Ht | exact R].
Defined.

Lemma train_checkpoints_in_run_directory_witness :
  let env := sample_env scale_forward exact_step in
  let run := Trainer.train env (training_cfg 4) (training_state (1 # 100)) in
  exists d, Trainer.log_dir (snd run) = Some d
            /\ Trainer.writer (snd run) = Some d.
Proof.
  cbv zeta.
  eassert (H : Trainer.train (sample_env scale_forward exact_step)
                 (training_cfg 4) (training_state (1 # 100)) = (Ok tt, _))
    by (vm_compute; reflexivity).
  destruct (train_checkpoints_in_run_directory _ _ _ _ H)
    as (d & new & _ & Hl & Hw & _).
  exists d. rewrite H. cbn [snd]. split; [exact Hl | exact Hw].
Defined.

Lemma train_without_test_data_never_saves_witness :
  let env := sample_env scale_forward halfway_step in
  let run := Trainer.train env (no_test_cfg 3) (training_state (1 # 100)) in
  exists d new,
    Trainer.trace (snd run)
    = Trainer.EvWriterOpen d :: new ++ [Trainer.EvWriterClose d]
    /\ forall p, ~ In (Trainer.EvSave p) new.
Proof.
  cbv zeta.
  eassert (H : Trainer.train (sample_env scale_forward halfway_step)
                 (no_test_cfg 3) (training_state (1 # 100)) = (Ok tt, _))
    by (vm_compute; reflexivity).
  destruct (train_without_test_data_never_saves
              (sample_env scale_forward halfway_step) (no_test_cfg 3) _ _
              eq_refl H)
    as (d & new & Ht & _ & Hs).
  exists d, new. rewrite H. cbn [snd]. split; [exact Ht | exact Hs].
Defined.


Lemma test_after_train_requires_model_path_witness :
  let env := sample_env scale_forward halfway_step in
  let run := Trainer.train env (training_cfg 4) (training_state (1 # 100)) in
  Trainer.test env (training_cfg 4) 0 None 30 (snd run)
  = (Raise (ValueError "No model path provided"), snd run).
Proof.
  cbv zeta.
  eassert (H : Trainer.train (sample_env scale_forward halfway_step)
                 (training_cfg 4) (training_state (1 # 100)) = (Ok tt, _))
    by (vm_compute; reflexivity).
  rewrite H. cbn [snd].
  exact (test_after_train_requires_model_path _ _ _ _ 0 30 H).
Defined.

Lemma load_model_failure_states_witness :
  let env := sample_env scale_forward Ok in
  let st := roundtrip_state [] in
  snd (Trainer.load_model env roundtrip_cfg (Some "work/logs/run_0"%string) st)
  = st.
Proof.
  cbv zeta.
  eassert (H : Trainer.load_model (sample_env scale_forward Ok) roundtrip_cfg
                 (Some "work/logs/run_0"%string) (roundtrip_state [])
               = (Raise _, _))
    by (vm_compute; reflexivity).
  rewrite H. cbn [snd].
  destruct (load_model_failure_states _ _ _ _ _ _ H)
    as [[_ E]|[(ts & E & _)|[(ts & reg & E & _)|(ts & reg & f & E & _)]]].
  - exact E.
  - vm_compute in E. discriminate E.
  - vm_compute in E. discriminate E.
  - vm_compute in E. discriminate E.
Defined.

Lemma run_directory_names_its_version_witness :
  let env := sample_env scale_forward Ok in
  let run := Trainer.initiate_writer env roundtrip_cfg (roundtrip_state []) in
  exists n, Trainer.run_version (snd run) = Some (Z.of_nat n).
Proof.
  cbv zeta.
  eassert (H : Trainer.initiate_writer (sample_env scale_forward Ok)
                 roundtrip_cfg (roundtrip_state []) = (Ok tt, _))
    by (vm_compute; reflexivity).
  destruct (run_directory_names_its_version _ _ _ _ H) as (n & Hv & _).
  exists n. rewrite H. cbn [snd]. exact Hv.
Defined.

Lemma evaluate_returns_rows_in_drawn_order_witness :
  let env := sample_env (tag_forward 2) Ok in
  let st := roundtrip_state [[1; 0]%nat] in
  exists labels pred loss,
    fst (Trainer.evaluate env roundtrip_cfg st) = Ok (labels, pred, loss)
    /\ labels
       = concat (map (fun i => nth i (Trainer.test_labels roundtrip_cfg) [])
                   [1; 0]%nat).
Proof.
  cbv zeta.
  eassert (H : Trainer.evaluate (sample_env (tag_forward 2) Ok) roundtrip_cfg
                 (roundtrip_state [[1; 0]%nat]) = (Ok (_, _, _), _))
    by (vm_compute; reflexivity).
  destruct (evaluate_returns_rows_in_drawn_order _ _ _ _ _ _ _ H) as [E _].
  eexists _, _, _. split; [rewrite H; reflexivity | exact E].
Defined.


Lemma test_without_test_data_raises_witness :
  let env := sample_env scale_forward Ok in
  exists st',
    Trainer.test env (no_test_cfg 3) 0 None 30 (training_state (1 # 100))
    = (Raise (IndexError "index out of range"), st').
Proof.
  cbv zeta.
  eapply (test_without_test_data_raises (sample_env scale_forward Ok)
            (no_test_cfg 3) 0 30 None).
  - reflexivity.
  - vm_compute. reflexivity.
  - vm_compute. reflexivity.
Defined.

Lemma save_model_then_load_model_witness :
  let st := store_state (Some "work/logs/run_0"%string) in
  exists d,
    Trainer.log_dir st = Some d
    /\ Trainer.torch_load store_env
         (Trainer.fs (snd (Trainer.save_model store_env st)))
         (path_join d "time_stamp_model.pth")
       = Ok (Trainer.time_stamp_model st).
Proof.
  cbv zeta.
  eassert (H : Trainer.save_model store_env
                 (store_state (Some "work/logs/run_0"%string)) = (Ok tt, _))
    by (vm_compute; reflexivity).
  assert (Hread : forall f f' m p,
             Trainer.torch_save store_env f m p = Ok f' ->
             Trainer.torch_load store_env f' p = Ok m).
  { intros f f' m p E. cbn in E |- *. injection E as <-. cbn.
    now rewrite String.eqb_refl. }
  assert (Hkeep : forall f f' m p q,
             Trainer.torch_save store_env f m p = Ok f' -> q <> p ->
             Trainer.torch_load store_env f' q
             = Trainer.torch_load store_env f q).
  { intros f f' m p q E Hne. cbn in E |- *. injection E as <-. cbn.
    destruct (String.eqb_spec q p); [contradiction | reflexivity]. }
  destruct (save_model_then_load_model store_env roundtrip_cfg _ _
              Hread Hkeep H) as (d & Hd & L1 & _).
  exists d. rewrite H. cbn [snd]. split; [exact Hd | exact L1].
Defined.

Lemma train_without_training_data_reports_nan_witness :
  let run := Trainer.train store_env (no_train_cfg 3) (store_state None) in
  exists d new,
    Trainer.trace (snd run)
    = Trainer.EvWriterOpen d :: new ++ [Trainer.EvWriterClose d]
    /\ length (scalars "Loss/train" new) = 2%nat
    /\ Forall (fun x => x = NaN) (scalars "Loss/train" new).
Proof.
  cbv zeta.
  eassert (H : Trainer.train store_env (no_train_cfg 3) (store_state None)
               = (Ok tt, _))
    by (vm_compute; reflexivity).
  destruct (train_without_training_data_reports_nan store_env (no_train_cfg 3)
              _ _ (fun r n => length_seq n 0) eq_refl H)
    as (d & new & Ht & Hl & Hn).
  exists d, new. rewrite H. cbn [snd].
  split; [exact Ht|]. split; [exact Hl | exact Hn].
Defined.
